(** * A shallow embedding of the vocabulary trainer [A word.py]

    The development follows the layout of the Python module: a small prelude
    for the Python values the program manipulates, then one Rocq module per
    Python class ([WordListManager], [MemoryAlgorithm], [VocabularyApp]) and
    one for the calls into [random], then the properties of the scheduling
    and persistence code.

    Modelling conventions.
    - A Python [str] is a list of Unicode code points ([pystr]).
    - A Python [int] is a [Z]; lengths and list positions are [nat].
    - A Python [float] is an exact rational ([Q]): rounding, infinities and
      NaN of binary64 are outside the model.
    - A raised exception is the [Raise] branch of [result]; the [try/except
      Exception] of [load_wordlist] is a [match] on that branch.
    - The clock, the calendar and the random generator are read from an
      explicit environment [Env]; files live in an explicit [World]. *)

From Stdlib Require Import ZArith QArith Qminmax Lia Lqa String Ascii SpecFloat.
From Stdlib Require Import DecimalString.
From stdpp Require Import base option list gmap.

Set Default Proof Using "Type".

(** ** Python prelude *)

Definition pystr : Type := list N.

(** An ASCII literal as a Python string. *)
Definition lit (x : string) : pystr := map N_of_ascii (list_ascii_of_string x).
Arguments lit : simpl never.

Inductive exn : Type :=
  | ValueError | TypeError | IndexError | KeyError | AttributeError
  | FileNotFoundError | JSONDecodeError.

Inductive result (A : Type) : Type :=
  | Ok (a : A)
  | Raise (e : exn).
Arguments Ok {A} a.
Arguments Raise {A} e.

#[global] Instance result_ret : MRet result := fun _ a => Ok a.
#[global] Instance result_bind : MBind result := fun _ _ f m =>
  match m with Ok a => f a | Raise e => Raise e end.
#[global] Instance result_fmap : FMap result := fun _ _ f m =>
  match m with Ok a => Ok (f a) | Raise e => Raise e end.

(** [try: v = m / except Exception: v = d]. *)
Definition try_except {A} (m : result A) (d : A) : A :=
  match m with Ok a => a | Raise _ => d end.

(** The values [json.load] can return, which are also the values
    [json.dump] accepts. A dict is kept as its item list. *)
#[warnings="-register-all"]
Inductive pyval : Type :=
  | PNone
  | PBool (b : bool)
  | PInt (z : Z)
  | PFloat (q : Q)
  | PStr (s : pystr)
  | PList (l : list pyval)
  | PDict (d : list (pystr * pyval)).

(** An [int] or a [float] stored under one dict key. *)
Inductive number : Type :=
  | Int (z : Z)
  | Float (q : Q).

Definition num_val (x : number) : Q :=
  match x with Int z => inject_Z z | Float q => q end.

Definition num_to_py (x : number) : pyval :=
  match x with Int z => PInt z | Float q => PFloat q end.

(** The library functions the program calls and whose result depends on the
    platform or on a text format: [os.path] and the string cases of
    [float()] and [int()]. *)
Class PyLib : Type := {
  path_basename : pystr -> pystr;
  path_splitext : pystr -> pystr * pystr;
  path_join : pystr -> pystr -> pystr;
  str_to_float : pystr -> option Q;
  str_to_int : pystr -> option Z
}.

Definition pystr_eqb (a b : pystr) : bool := bool_decide (a = b).

(** [int(x)] of a float truncates towards zero. *)
Definition Qtrunc (q : Q) : Z := Z.quot (Qnum q) (Zpos (Qden q)).

(** [float(x)] and [int(x)]. An int beyond the range of binary64, on
    which [float()] raises [OverflowError], is outside the model, as are
    the infinities and NaN on which [int()] raises. *)
Definition py_float `{PyLib} (v : pyval) : result Q :=
  match v with
  | PBool b => Ok (if b then 1%Q else 0%Q)
  | PInt z => Ok (inject_Z z)
  | PFloat q => Ok q
  | PStr s => match str_to_float s with Some q => Ok q | None => Raise ValueError end
  | PNone | PList _ | PDict _ => Raise TypeError
  end.

Definition py_int `{PyLib} (v : pyval) : result Z :=
  match v with
  | PBool b => Ok (if b then 1%Z else 0%Z)
  | PInt z => Ok z
  | PFloat q => Ok (Qtrunc q)
  | PStr s => match str_to_int s with Some z => Ok z | None => Raise ValueError end
  | PNone | PList _ | PDict _ => Raise TypeError
  end.

(** [v[i]] for a literal index [i >= 0]. The keys of a dict read from JSON
    are strings, so an integer key is never found. *)
Definition getitem (v : pyval) (i : nat) : result pyval :=
  match v with
  | PList l => match l !! i with Some x => Ok x | None => Raise IndexError end
  | PStr s => match s !! i with Some c => Ok (PStr [c]) | None => Raise IndexError end
  | PDict _ => Raise KeyError
  | PNone | PBool _ | PInt _ | PFloat _ => Raise TypeError
  end.

(** [for w in v]. *)
Definition py_iter (v : pyval) : result (list pyval) :=
  match v with
  | PList l => Ok l
  | PStr s => Ok (map (fun c => PStr [c]) s)
  | PDict d => Ok (map (fun kv => PStr (fst kv)) d)
  | PNone | PBool _ | PInt _ | PFloat _ => Raise TypeError
  end.

Fixpoint assoc_lookup (k : pystr) (d : list (pystr * pyval)) : option pyval :=
  match d with
  | [] => None
  | (k', v) :: d' => if pystr_eqb k k' then Some v else assoc_lookup k d'
  end.

(** [v.get(k, default)]: only a dict has the method. *)
Definition py_get (v : pyval) (k : pystr) (dflt : pyval) : result pyval :=
  match v with
  | PDict d => Ok (default dflt (assoc_lookup k d))
  | _ => Raise AttributeError
  end.

(** [l[i]] for a Python integer index: negative indices count from the end. *)
Definition py_index {A} (l : list A) (i : Z) : result A :=
  let len := Z.of_nat (length l) in
  let j := if (i <? 0)%Z then (len + i)%Z else i in
  if (j <? 0)%Z then Raise IndexError
  else match l !! Z.to_nat j with Some x => Ok x | None => Raise IndexError end.

(** [max(a, b)] returns [a] unless [b > a]. *)
Definition py_max (a b : Q) : Q := if Qlt_le_dec a b then b else a.

(** *** Strings *)

(** [str.isspace] on one code point. *)
Definition is_space (c : N) : bool :=
  ((9 <=? c) && (c <=? 13) || (28 <=? c) && (c <=? 32) || (c =? 133) || (c =? 160)
   || (c =? 5760) || (8192 <=? c) && (c <=? 8202) || (c =? 8232) || (c =? 8233)
   || (c =? 8239) || (c =? 8287) || (c =? 12288))%N.

Fixpoint lstrip (s : pystr) : pystr :=
  match s with
  | [] => []
  | c :: s' => if is_space c then lstrip s' else s
  end.

Definition rstrip (s : pystr) : pystr := rev (lstrip (rev s)).

Definition strip (s : pystr) : pystr := rstrip (lstrip s).

(** The truth value of a string: non-empty. *)
Definition truthy (s : pystr) : bool := match s with [] => false | _ => true end.

Definition tab : N := 9%N.

Definition contains (c : N) (s : pystr) : bool := existsb (N.eqb c) s.

(** [s.split(sep)] for a one-character separator. *)
Fixpoint split_on (sep : N) (s : pystr) : list pystr :=
  match s with
  | [] => [[]]
  | c :: s' =>
      if (c =? sep)%N then [] :: split_on sep s'
      else match split_on sep s' with
           | [] => [[c]]
           | w :: ws => (c :: w) :: ws
           end
  end.

(** The longest prefix without white space, and what follows it. *)
Fixpoint span_word (s : pystr) : pystr * pystr :=
  match s with
  | [] => ([], [])
  | c :: s' =>
      if is_space c then ([], s)
      else let '(w, r) := span_word s' in (c :: w, r)
  end.

(** [s.split(maxsplit=1)]: split once at the first run of white space. *)
Definition split_ws1 (s : pystr) : list pystr :=
  match lstrip s with
  | [] => []
  | s1 =>
      let '(w, r) := span_word s1 in
      match lstrip r with
      | [] => [w]
      | r' => [w; r']
      end
  end.

(** ** Data: the dicts of the program as records *)

(** An element of [self.words]: the six persisted keys, and the two keys
    [get_word] attaches to a new word. A key that is absent is [None]. *)
Module LearnedWord.
Record t : Type := mk {
  word : pyval;
  translation : pyval;
  ef : Q;
  n : Z;
  interval : number;
  last_review : Z;
  is_new : option bool;
  learn_date : option pystr
}.
End LearnedWord.

(** The six persisted keys of a learned word, and what a second dict must
    agree on to count as the same learning state: [interval] is compared
    as a number, since [1] and [1.0] are equal in Python. *)
Definition persisted_keys (w : LearnedWord.t)
    : pyval * pyval * Q * Z * number * Z :=
  (LearnedWord.word w, LearnedWord.translation w, LearnedWord.ef w,
   LearnedWord.n w, LearnedWord.interval w, LearnedWord.last_review w).

Definition same_state (w w' : LearnedWord.t) : Prop :=
  LearnedWord.word w = LearnedWord.word w' /\
  LearnedWord.translation w = LearnedWord.translation w' /\
  LearnedWord.ef w = LearnedWord.ef w' /\
  LearnedWord.n w = LearnedWord.n w' /\
  num_val (LearnedWord.interval w) = num_val (LearnedWord.interval w') /\
  LearnedWord.last_review w = LearnedWord.last_review w'.

(** A learned word with [interval] as the float of the same value and
    without the two extra keys. *)
Definition reloaded (w : LearnedWord.t) : LearnedWord.t :=
  LearnedWord.mk (LearnedWord.word w) (LearnedWord.translation w)
    (LearnedWord.ef w) (LearnedWord.n w)
    (Float (num_val (LearnedWord.interval w))) (LearnedWord.last_review w)
    None None.

(** An element of [self._all_words]. *)
Module Entry.
Record t : Type := mk {
  word : pystr;
  translation : pystr;
  is_learned : bool
}.
End Entry.

(** The cache file as [json.load] sees it: text it rejects, or text it
    reads as a value. [json.dump] of a value writes text that reads back
    as that value. *)
Inductive artifact : Type :=
  | Unparsable
  | Parsed (v : pyval).

(** The files of the program. A word list is the sequence of lines that
    iterating over the open file yields: a path that cannot be opened and
    read as UTF-8 text (a directory, a file in another encoding) is
    outside the model. The settings file is kept as the dict that was
    written to it; [SettingsText] below models its text. *)
Record World : Type := mkWorld {
  wordlist_files : gmap pystr (list pystr);
  cache_files : gmap pystr artifact;
  settings_file : option (gmap pystr pyval)
}.

Definition set_cache_files (f : gmap pystr artifact -> gmap pystr artifact)
    (fs : World) : World :=
  mkWorld (wordlist_files fs) (f (cache_files fs)) (settings_file fs).

(** [save_settings(cfg)] *)
Definition save_settings (cfg : gmap pystr pyval) (fs : World) : World :=
  mkWorld (wordlist_files fs) (cache_files fs) (Some cfg).

(** [load_settings()]: the defaults, overridden by what the file holds. *)
Definition load_settings (fs : World) : gmap pystr pyval :=
  let cfg : gmap pystr pyval :=
    <[lit "TODAY_DATE" := PStr []]>
      (<[lit "TODAY_COUNT" := PStr (lit "0")]>
         (<[lit "DAILY_NEW_LIMIT" := PStr (lit "50")]> ∅)) in
  match settings_file fs with
  | Some stored => stored ∪ cfg
  | None => cfg
  end.

(** ** File management: [class WordListManager] *)

Module WordListManager.

Record t : Type := mk {
  script_dir : pystr;
  assets_dir : pystr
}.

Section WithLib.
Context `{PyLib}.

(** [base = splitext(basename(path))[0]; join(assets_dir, f"_{base}.json")] *)
Definition get_cache_file (self : t) (wordlist_path : pystr) : pystr :=
  let base := fst (path_splitext (path_basename wordlist_path)) in
  path_join (assets_dir self) (lit "_" ++ base ++ lit ".json").

(** [[ln.strip() for ln in f if ln.strip()]] *)
Definition nonblank_lines (f : list pystr) : list pystr :=
  map strip (List.filter (fun ln => truthy (strip ln)) f).

(** One element of the comprehension over the cached rows. *)
Definition learned_of_row (w : pyval) : result LearnedWord.t :=
  w0 ← getitem w 0;
  w1 ← getitem w 1;
  w2 ← getitem w 2;
  ef ← py_float w2;
  w3 ← getitem w 3;
  n ← py_int w3;
  w4 ← getitem w 4;
  interval ← py_float w4;
  w5 ← getitem w 5;
  last_review ← py_int w5;
  mret (LearnedWord.mk w0 w1 ef n (Float interval) last_review None None).

(** The body of the [try] block: open the cache, [json.load] it, take
    the key [WORDLIST] and convert every row. *)
Definition read_cache (a : artifact) : result (list LearnedWord.t) :=
  match a with
  | Unparsable => Raise JSONDecodeError
  | Parsed doc =>
      data ← py_get doc (lit "WORDLIST") (PList []);
      rows ← py_iter data;
      mapM learned_of_row rows
  end.

Definition load_wordlist (self : t) (wordlist_path : pystr) (fs : World)
    : result (list LearnedWord.t * nat) :=
  let cache := get_cache_file self wordlist_path in
  match wordlist_files fs !! wordlist_path with
  | None => Raise FileNotFoundError
  | Some f =>
      let raw := nonblank_lines f in
      let total := length raw in
      let learned :=
        match cache_files fs !! cache with
        | Some a => try_except (read_cache a) []
        | None => []
        end in
      Ok (learned, total)
  end.

(** [[w["word"], w["translation"], w["ef"], w["n"], w["interval"],
    w["last_review"]]] *)
Definition row_of_learned (w : LearnedWord.t) : pyval :=
  PList [LearnedWord.word w; LearnedWord.translation w;
         PFloat (LearnedWord.ef w); PInt (LearnedWord.n w);
         num_to_py (LearnedWord.interval w); PInt (LearnedWord.last_review w)].

Definition save_wordlist (self : t) (path : pystr) (words : list LearnedWord.t)
    (fs : World) : World :=
  let cache := get_cache_file self path in
  let data := map row_of_learned words in
  set_cache_files (insert cache (Parsed (PDict [(lit "WORDLIST", PList data)]))) fs.

Definition reset_wordlist (self : t) (path : pystr) (fs : World) : bool * World :=
  let cache := get_cache_file self path in
  match cache_files fs !! cache with
  | Some _ => (true, set_cache_files (delete cache) fs)
  | None => (false, fs)
  end.

End WithLib.
End WordListManager.

(** ** Anki/SM-2 algorithm: [class MemoryAlgorithm] *)

Module MemoryAlgorithm.

Definition initial_ef : Q := 2.5%Q.

(** [[1, 6][min(n, 1)]] *)
Definition initial_interval (n : Z) : result Z :=
  py_index [1%Z; 6%Z] (Z.min n 1).

(** [prev_interval * ef] *)
Definition next_interval (prev_interval : number) (ef : Q) : number :=
  Float (num_val prev_interval * ef)%Q.

(** [ef += 0.1 - (5 - q) * (0.08 + (5 - q) * 0.02); return max(ef, 1.3)] *)
Definition update_ef (ef : Q) (q : Z) : Q :=
  let ef := (ef + (0.1 - inject_Z (5 - q) * (0.08 + inject_Z (5 - q) * 0.02)))%Q in
  py_max ef 1.3%Q.

(** [elapsed = (now - w["last_review"]) / (86400 * 1000)]
    [return elapsed / w["interval"] if w["interval"] > 0 else 1.0] *)
Definition review_weight (w : LearnedWord.t) (now : Z) : Q :=
  let elapsed := (inject_Z (now - LearnedWord.last_review w)
                  / inject_Z (86400 * 1000))%Q in
  if Qlt_le_dec 0 (num_val (LearnedWord.interval w))
  then (elapsed / num_val (LearnedWord.interval w))%Q
  else 1.0%Q.

End MemoryAlgorithm.

(** The same update rule on IEEE 754 binary64 numbers, to run the worked
    examples with the rounding Python does. A decimal literal [n/d] is the
    correctly rounded quotient of two exact integers. *)
Module Binary64.

Definition prec : Z := 53.
Definition emax : Z := 1024.

Definition of_Z (z : Z) : spec_float := binary_normalize prec emax z 0 false.

Definition literal (n d : Z) : spec_float := SFdiv prec emax (of_Z n) (of_Z d).

(** [max(a, b)] returns [a] unless [b > a]. *)
Definition py_max (a b : spec_float) : spec_float := if SFltb a b then b else a.

Definition update_ef (ef : spec_float) (q : Z) : spec_float :=
  let ef :=
    SFadd prec emax ef
      (SFsub prec emax (literal 1 10)
         (SFmul prec emax (of_Z (5 - q))
            (SFadd prec emax (literal 8 100)
               (SFmul prec emax (of_Z (5 - q)) (literal 2 100))))) in
  py_max ef (literal 13 10).

End Binary64.

(** ** The functions of the standard module [random] that the program calls

    The generator is replaced by its draws: [r] is what [_randbelow] is
    computed from, [u] is the value of [random()], a float in [0, 1). *)

Module Random.

(** [seq[self._randbelow(len(seq))]]; [_randbelow(n)] is any position
    below [n], here [r mod n]. *)
Definition choice {A} (seq : list A) (r : nat) : result A :=
  match seq with
  | [] => Raise IndexError
  | _ => match seq !! (r mod length seq)%nat with
         | Some x => Ok x
         | None => Raise IndexError
         end
  end.

Fixpoint accumulate_from (acc : Q) (l : list Q) : list Q :=
  match l with
  | [] => []
  | x :: l' => let acc' := (acc + x)%Q in acc' :: accumulate_from acc' l'
  end.

(** [itertools.accumulate]: the running sums. *)
Definition accumulate (l : list Q) : list Q :=
  match l with
  | [] => []
  | x :: l' => x :: accumulate_from x l'
  end.

(** The loop of [bisect.bisect_right(a, x, lo, hi)]; each turn makes
    [hi - lo] smaller, so [hi - lo] turns are enough. *)
Fixpoint bisect_loop (fuel : nat) (a : list Q) (x : Q) (lo hi : nat) : result nat :=
  match fuel with
  | O => Ok lo
  | S fuel' =>
      if (lo <? hi)%nat then
        let mid := ((lo + hi) / 2)%nat in
        match a !! mid with
        | None => Raise IndexError
        | Some am =>
            if Qlt_le_dec x am then bisect_loop fuel' a x lo mid
            else bisect_loop fuel' a x (mid + 1) hi
        end
      else Ok lo
  end.

Definition bisect (a : list Q) (x : Q) (lo hi : nat) : result nat :=
  bisect_loop (hi - lo) a x lo hi.

(** [random.choices(population, weights=weights)] with the default
    [k = 1], as in CPython 3.9 and later:
    [total = cum_weights[-1] + 0.0; if total <= 0.0: raise ValueError]. *)
Definition choices {A} (population : list A) (weights : list Q) (u : Q)
    : result (list A) :=
  let n := length population in
  let cum_weights := accumulate weights in
  if negb (length cum_weights =? n)%nat then Raise ValueError
  else
    last_cum ← py_index cum_weights (-1);
    let total := (last_cum + 0.0)%Q in
    if Qlt_le_dec 0 total then
      let hi := (n - 1)%nat in
      i ← bisect cum_weights (u * total)%Q 0 hi;
      x ← py_index population (Z.of_nat i);
      mret [x]
    else Raise ValueError.

(** The same call before CPython 3.9, where the total is not checked. *)
Definition choices_legacy {A} (population : list A) (weights : list Q) (u : Q)
    : result (list A) :=
  let n := length population in
  let cum_weights := accumulate weights in
  if negb (length cum_weights =? n)%nat then Raise ValueError
  else
    total ← py_index cum_weights (-1);
    let hi := (n - 1)%nat in
    i ← bisect cum_weights (u * total)%Q 0 hi;
    x ← py_index population (Z.of_nat i);
    mret [x].

End Random.

(** What the program reads from outside during one call: [date.today()],
    [time.time()] in milliseconds, and the two random draws. *)
Record Env : Type := mkEnv {
  date_today : pystr;
  time_ms : Z;
  randbelow_draw : nat;
  random_draw : Q
}.

(** ** Main program: [class VocabularyApp] *)

(** An element of [self.wordlists]. *)
Module WordListRef.
Record t : Type := mk {
  path : pystr;
  name : pystr
}.
End WordListRef.

(** What [get_word] returns: the dict of a new word, an element of
    [self.words], or an error dict. *)
Inductive selection : Type :=
  | NewWord (word translation : pystr) (is_new : bool)
            (temp_new_word : LearnedWord.t)
  | Review (w : LearnedWord.t)
  | ErrorDict (error : pystr).

Module VocabularyApp.

Record t : Type := mk {
  mgr : WordListManager.t;
  wordlists : list WordListRef.t;
  curr : option WordListRef.t;
  words : list LearnedWord.t;
  _all_words : option (list Entry.t);
  total : nat;
  idx : nat;
  rand : bool;
  review_only : bool;
  cfg : gmap pystr pyval;
  limit : Z;
  today : pystr;
  today_count : Z
}.

Definition set_words (v : list LearnedWord.t) (a : t) : t :=
  mk (mgr a) (wordlists a) (curr a) v (_all_words a) (total a) (idx a)
     (rand a) (review_only a) (cfg a) (limit a) (today a) (today_count a).

Definition set_all_words (v : option (list Entry.t)) (a : t) : t :=
  mk (mgr a) (wordlists a) (curr a) (words a) v (total a) (idx a)
     (rand a) (review_only a) (cfg a) (limit a) (today a) (today_count a).

Definition set_idx (v : nat) (a : t) : t :=
  mk (mgr a) (wordlists a) (curr a) (words a) (_all_words a) (total a) v
     (rand a) (review_only a) (cfg a) (limit a) (today a) (today_count a).

Definition set_today_count (v : Z) (a : t) : t :=
  mk (mgr a) (wordlists a) (curr a) (words a) (_all_words a) (total a) (idx a)
     (rand a) (review_only a) (cfg a) (limit a) (today a) v.

Definition set_today (v : pystr) (a : t) : t :=
  mk (mgr a) (wordlists a) (curr a) (words a) (_all_words a) (total a) (idx a)
     (rand a) (review_only a) (cfg a) (limit a) v (today_count a).

Definition set_cfg (k : pystr) (v : pyval) (a : t) : t :=
  mk (mgr a) (wordlists a) (curr a) (words a) (_all_words a) (total a) (idx a)
     (rand a) (review_only a) (<[k := v]> (cfg a)) (limit a) (today a)
     (today_count a).

(** [x != s] for a string [s]: a value of another type is never equal. *)
Definition py_ne_str (x : pyval) (s : pystr) : bool :=
  match x with
  | PStr s' => negb (pystr_eqb s' s)
  | _ => true
  end.

(** [cfg[k]] *)
Definition cfg_item (c : gmap pystr pyval) (k : pystr) : result pyval :=
  match c !! k with Some v => Ok v | None => Raise KeyError end.

(** The body of the first [if] of [get_word]: the four assignments of a
    day change, then [save_settings(self.cfg)]. *)
Definition new_day (day : pystr) (self : t) (fs : World) : t * World :=
  let self := set_today day self in
  let self := set_today_count 0 self in
  let self := set_cfg (lit "TODAY_DATE") (PStr day) self in
  let self := set_cfg (lit "TODAY_COUNT") (PInt 0) self in
  (self, save_settings (cfg self) fs).

Section WithLib.
Context `{PyLib}.

(** [__init__]; [found] is the result of [find_user_wordlists()] and
    [day] the value of [str(date.today())]. *)
Definition init (m : WordListManager.t) (found : list WordListRef.t)
    (day : pystr) (fs : World) : result (t * World) :=
  let c := load_settings fs in
  lim ← cfg_item c (lit "DAILY_NEW_LIMIT") ≫= py_int;
  cnt ← cfg_item c (lit "TODAY_COUNT") ≫= py_int;
  date ← cfg_item c (lit "TODAY_DATE");
  let self := mk m found None [] None 0 0 false false c lim day cnt in
  if py_ne_str date day then
    let self := set_today_count 0 self in
    let self := set_cfg (lit "TODAY_DATE") (PStr day) self in
    let self := set_cfg (lit "TODAY_COUNT") (PInt 0) self in
    Ok (self, save_settings (cfg self) fs)
  else Ok (self, fs).

(** The three assignments of [select_wordlist] once a number [i] in
    range was typed. *)
Definition select_wordlist (i : nat) (self : t) (fs : World) : result t :=
  match wordlists self !! i with
  | None => Raise IndexError
  | Some wl =>
      '(learned, tot) ← WordListManager.load_wordlist (mgr self)
                          (WordListRef.path wl) fs;
      Ok (mk (mgr self) (wordlists self) (Some wl) learned None tot (idx self)
             (rand self) (review_only self) (cfg self) (limit self)
             (today self) (today_count self))
  end.

(** [ln.split('\t') if '\t' in ln else ln.split(maxsplit=1)], kept when
    it has two elements. *)
Definition entry_of_line (ln : pystr) : list Entry.t :=
  let p := if contains tab ln then split_on tab ln else split_ws1 ln in
  match p with
  | [w; tr] => [Entry.mk w tr false]
  | _ => []
  end.

(** Building a [set] hashes its elements: lists and dicts raise. *)
Definition hashable (v : pyval) : bool :=
  match v with
  | PList _ | PDict _ => false
  | _ => true
  end.

(** [w['word'] in learned_words] for a string [w['word']]. *)
Definition str_in (s : pystr) (vs : list pyval) : bool :=
  existsb (fun v => match v with PStr s' => pystr_eqb s s' | _ => false end) vs.

Definition _load_all (self : t) (fs : World) : result t :=
  match curr self with
  | None => Ok self
  | Some c =>
      match wordlist_files fs !! WordListRef.path c with
      | None => Raise FileNotFoundError
      | Some f =>
          let lines := WordListManager.nonblank_lines f in
          let all := flat_map entry_of_line lines in
          let learned_words := map LearnedWord.word (words self) in
          if forallb hashable learned_words then
            Ok (set_all_words
                  (Some (map (fun w => Entry.mk (Entry.word w) (Entry.translation w)
                                         (str_in (Entry.word w) learned_words))
                             all))
                  self)
          else Raise TypeError
      end
  end.

(** The property [all_words]: load on first use, then return the field. *)
Definition all_words (self : t) (fs : World)
    : result (option (list Entry.t) * t) :=
  match _all_words self with
  | None => self' ← _load_all self fs; Ok (_all_words self', self')
  | Some l => Ok (Some l, self)
  end.

Definition save (self : t) (fs : World) : World :=
  match curr self with
  | None => fs
  | Some c =>
      save_settings (cfg self)
        (WordListManager.save_wordlist (mgr self) (WordListRef.path c)
           (words self) fs)
  end.

(** [flush] has the body of [save]. *)
Definition flush (self : t) (fs : World) : World := save self fs.

(** The dict built for a word shown for the first time. *)
Definition new_word_of (w : Entry.t) (now : Z) (day : pystr) : LearnedWord.t :=
  LearnedWord.mk (PStr (Entry.word w)) (PStr (Entry.translation w))
    MemoryAlgorithm.initial_ef 0 (Int 1) now (Some true) (Some day).

(** The block under the comment "new word" of [get_word]: [Some] of the
    returned dict, or [None] when control falls through to the review
    block. *)
Definition get_new_word (env : Env) (self : t) (fs : World)
    : result (option selection * t) :=
  if negb (review_only self) && (today_count self <? limit self)%Z then
    '(aw, self) ← all_words self fs;
    match aw with
    | None => Raise TypeError
    | Some aw =>
        let unlearned := List.filter (fun w => negb (Entry.is_learned w)) aw in
        match unlearned with
        | [] => Ok (None, self)
        | _ =>
            w ← Random.choice unlearned (randbelow_draw env);
            let new_word := new_word_of w (time_ms env) (date_today env) in
            Ok (Some (NewWord (Entry.word w) (Entry.translation w) true new_word),
                self)
        end
    end
  else Ok (None, self).

(** [[MemoryAlgorithm.review_weight(w, now) for w in self.words]] *)
Definition weights_of (self : t) (now : Z) : list Q :=
  map (fun w => MemoryAlgorithm.review_weight w now) (words self).

(** The block under the comment "review" of [get_word], and the two
    error returns after it. *)
Definition get_review_word (env : Env) (self : t) (fs : World)
    : result (selection * t) :=
  let now := time_ms env in
  match words self with
  | _ :: _ =>
      let weights := weights_of self now in
      drawn ← Random.choices (seq 0 (length (words self))) weights (random_draw env);
      i ← py_index drawn 0;
      let self := set_idx i self in
      match words self !! idx self with
      | Some w => Ok (Review w, self)
      | None => Raise IndexError
      end
  | [] =>
      '(aw, self) ← all_words self fs;
      match aw with
      | Some (_ :: _) => Ok (ErrorDict (lit "no_learned_words"), self)
      | _ => Ok (ErrorDict (lit "no_words"), self)
      end
  end.

Definition get_word (env : Env) (self : t) (fs : World)
    : result (selection * t * World) :=
  let '(self, fs) :=
    if negb (pystr_eqb (date_today env) (today self))
    then new_day (date_today env) self fs
    else (self, fs) in
  '(new, self) ← get_new_word env self fs;
  match new with
  | Some sel => Ok (sel, self, fs)
  | None => '(sel, self) ← get_review_word env self fs; Ok (sel, self, fs)
  end.

(** The update [answer] makes to the dict [w = self.words[self.idx]]. *)
Definition answer_word (w : LearnedWord.t) (q : Z) (now : Z)
    : result LearnedWord.t :=
  let '(LearnedWord.mk word tr ef n interval _ is_new learn_date) := w in
  '(ef, n, interval) ←
    (if (q <? 3)%Z then
       i0 ← MemoryAlgorithm.initial_interval 0;
       Ok (ef, 0%Z, Int i0)
     else
       let n := (n + 1)%Z in
       let ef := MemoryAlgorithm.update_ef ef q in
       if (n =? 1)%Z then
         i1 ← MemoryAlgorithm.initial_interval 1;
         Ok (ef, n, Int i1)
       else Ok (ef, n, MemoryAlgorithm.next_interval interval ef));
  Ok (LearnedWord.mk word tr ef n interval now None learn_date).

(** [answer]: the dict is an element of [self.words], so the update is
    seen through the list. *)
Definition answer (q : Z) (now : Z) (self : t) : result t :=
  match words self !! idx self with
  | None => Raise IndexError
  | Some w =>
      w' ← answer_word w q now;
      Ok (set_words (<[idx self := w']> (words self)) self)
  end.

(** [for a in app.all_words: if a["word"] == new_word["word"]:
    a["is_learned"] = True; break] *)
Fixpoint mark_learned (word : pyval) (l : list Entry.t) : list Entry.t :=
  match l with
  | [] => []
  | a :: l' =>
      if negb (py_ne_str word (Entry.word a))
      then Entry.mk (Entry.word a) (Entry.translation a) true :: l'
      else a :: mark_learned word l'
  end.

(** The branch of [main] for the keys [u] and [d] once the quality [q] is
    known: a new word is appended to [app.words] and counted, then
    [app.answer(q)] and [app.flush()]. *)
Definition main_confirm (w : selection) (q : Z) (now : Z) (app : t) (fs : World)
    : result (t * World) :=
  '(app, fs) ←
    match w with
    | NewWord _ _ _ new_word =>
        let app := set_words (words app ++ [new_word]) app in
        let app := set_idx (length (words app) - 1) app in
        '(aw, app) ← all_words app fs;
        match aw with
        | None => Raise TypeError
        | Some aw =>
            let app := set_all_words
                         (Some (mark_learned (LearnedWord.word new_word) aw)) app in
            let app := set_today_count (today_count app + 1) app in
            let app := set_cfg (lit "TODAY_COUNT") (PInt (today_count app)) app in
            Ok (app, save_settings (cfg app) fs)
        end
    | _ => Ok (app, fs)
    end;
  app ← answer q now app;
  Ok (app, flush app fs).

End WithLib.
End VocabularyApp.

(** ** The rest of [WordListManager], of [main] and of [UI] *)

(** [s.startswith(p)] and [s.endswith(p)] *)
Fixpoint startswith (s p : pystr) : bool :=
  match p, s with
  | [], _ => true
  | _ :: _, [] => false
  | c :: p', d :: s' => (c =? d)%N && startswith s' p'
  end.

Definition endswith (s p : pystr) : bool := startswith (rev s) (rev p).

Module Discovery.

(** The condition of the comprehension in [find_user_wordlists]. *)
Definition is_user_wordlist (f : pystr) : bool :=
  endswith f (lit ".txt") && negb (startswith f (lit "_")).

(** [find_user_wordlists]; [listing] is what [os.listdir(self.assets_dir)]
    returns. *)
Definition find_user_wordlists `{PyLib} (self : WordListManager.t)
    (listing : list pystr) : list WordListRef.t :=
  map (fun f => WordListRef.mk (path_join (WordListManager.assets_dir self) f)
                  (fst (path_splitext f)))
      (List.filter is_user_wordlist listing).

End Discovery.

Module Main.

(** The branch of [main] for the key [x]; [confirmed] is the answer of
    [UI.confirm_reset]. *)
Definition main_reset `{PyLib} (confirmed : bool) (app : VocabularyApp.t)
    (fs : World) : result (VocabularyApp.t * World) :=
  match VocabularyApp.curr app with
  | Some c =>
      if confirmed then
        let '(existed, fs') :=
          WordListManager.reset_wordlist (VocabularyApp.mgr app)
            (WordListRef.path c) fs in
        if existed then
          '(learned, tot) ← WordListManager.load_wordlist (VocabularyApp.mgr app)
                              (WordListRef.path c) fs';
          Ok (VocabularyApp.mk (VocabularyApp.mgr app) (VocabularyApp.wordlists app)
                (VocabularyApp.curr app) learned None tot (VocabularyApp.idx app)
                (VocabularyApp.rand app) (VocabularyApp.review_only app)
                (VocabularyApp.cfg app) (VocabularyApp.limit app)
                (VocabularyApp.today app) (VocabularyApp.today_count app), fs')
        else Ok (app, fs')
      else Ok (app, fs)
  | None => Ok (app, fs)
  end.

End Main.

Module UI.

(** What one line of the table of [UI.stats] shows. *)
Record row : Type := mk_row {
  name : pystr;
  learned_cnt : nat;
  total : nat;
  learned_ratio : Q;
  mastery_ratio : Q
}.

(** [sum(1 for w in learned if w["interval"] >= 21)] *)
Definition known_cnt (learned : list LearnedWord.t) : nat :=
  length (List.filter
            (fun w => if Qlt_le_dec (num_val (LearnedWord.interval w)) 21
                      then false else true) learned).

(** The body of the loop of [UI.stats] for one word list: [None] when the
    list is skipped ([total == 0], or an exception). *)
Definition stats_row `{PyLib} (mgr : WordListManager.t) (wl : WordListRef.t)
    (fs : World) : option row :=
  match WordListManager.load_wordlist mgr (WordListRef.path wl) fs with
  | Raise _ => None
  | Ok (learned, tot) =>
      if (tot =? 0)%nat then None
      else
        let cnt := length learned in
        let known := known_cnt learned in
        let ratio := (inject_Z (Z.of_nat cnt) / inject_Z (Z.of_nat tot) * 100)%Q in
        let mastery :=
          if (cnt =? 0)%nat then 0.0%Q
          else (inject_Z (Z.of_nat known) / inject_Z (Z.of_nat cnt) * 100)%Q in
        Some (mk_row (WordListRef.name wl) cnt tot ratio mastery)
  end.

(** [UI.stats]: save first, then one line per word list found; the lines
    printed are returned. *)
Definition stats `{PyLib} (app : VocabularyApp.t) (listing : list pystr)
    (fs : World) : list row * World :=
  let fs := VocabularyApp.save app fs in
  let found := Discovery.find_user_wordlists (VocabularyApp.mgr app) listing in
  (omap (fun wl => stats_row (VocabularyApp.mgr app) wl fs) found, fs).

End UI.

(** ** The settings file as text: [load_settings], [save_settings]

    The dict kept in [World] stands for a text file. This part models the
    text itself: [save_settings] writes one line [k = "v"] per item of the
    dict, in the order of [cfg.items()], and [load_settings] parses the
    lines back. The file is UTF-8 text written and read on a system whose
    line end is [\n]. *)

Module SettingsText.

Definition quote : N := 34%N.
Definition newline : N := 10%N.
Definition cr : N := 13%N.
Definition equals : N := 61%N.

(** What UTF-8 can encode: every code point but the surrogates. *)
Definition encodable (c : N) : bool :=
  ((c <? 55296) || (57343 <? c) && (c <=? 1114111))%N.

(** [str(z)] for an [int]. *)
Definition decimal (z : Z) : pystr := lit (NilZero.string_of_int (Z.to_int z)).

(** [f'{v}']: [str(v)], for the values whose text is modelled. *)
Definition py_str (v : pyval) : option pystr :=
  match v with
  | PStr s => Some s
  | PInt z => Some (decimal z)
  | PBool b => Some (lit (if b then "True" else "False"))
  | PNone => Some (lit "None")
  | PFloat _ | PList _ | PDict _ => None
  end.

(** The text of one [f.write]. *)
Definition line (k : pystr) (v : pyval) : option pystr :=
  s ← py_str v; Some (k ++ lit " = " ++ [quote] ++ s ++ [quote; newline]).

(** What the loop of [save_settings] writes, one text for each item of
    [cfg.items()]. *)
Definition written (items : list (pystr * pyval)) : option (list pystr) :=
  mapM (fun kv => line kv.1 kv.2) items.

(** [save_settings(cfg)], given [cfg.items()], returns the text of the
    file; [None] stands for a value whose text is not modelled and for
    text that the encoder rejects. *)
Definition save_settings (items : list (pystr * pyval)) : option pystr :=
  match written items with
  | Some ls => if forallb encodable (concat ls) then Some (concat ls) else None
  | None => None
  end.

(** Iterating over the file opened in text mode: the lines, each with its
    line end, where [\r\n] and [\r] are read as [\n]. [cur] is the line
    being read, last character first. *)
Fixpoint lines_of (cur text : pystr) : list pystr :=
  match text with
  | [] => match cur with [] => [] | _ => [rev cur] end
  | c :: rest =>
      if (c =? newline)%N then rev (newline :: cur) :: lines_of [] rest
      else if (c =? cr)%N then
        match rest with
        | d :: rest' =>
            if (d =? newline)%N then rev (newline :: cur) :: lines_of [] rest'
            else rev (newline :: cur) :: lines_of [] rest
        | [] => [rev (newline :: cur)]
        end
      else lines_of (c :: cur) rest
  end.

(** [s.strip(c)] for one character [c]. *)
Fixpoint lstrip_char (c : N) (s : pystr) : pystr :=
  match s with
  | [] => []
  | d :: s' => if (d =? c)%N then lstrip_char c s' else s
  end.

Definition strip_char (c : N) (s : pystr) : pystr :=
  rev (lstrip_char c (rev (lstrip_char c s))).

(** [s.split(sep, 1)] for a string that holds [sep]: what stands before
    the first [sep] and what stands after it. *)
Fixpoint split_first (sep : N) (s : pystr) : pystr * pystr :=
  match s with
  | [] => ([], [])
  | c :: s' =>
      if (c =? sep)%N then ([], s')
      else let '(a, b) := split_first sep s' in (c :: a, b)
  end.

(** The body of the loop of [load_settings]. *)
Definition read_line (cfg : gmap pystr pyval) (ln : pystr) : gmap pystr pyval :=
  let ln := strip ln in
  if contains equals ln then
    let '(k, v) := split_first equals ln in
    <[strip k := PStr (strip_char quote (strip v))]> cfg
  else cfg.

Definition defaults : gmap pystr pyval :=
  <[lit "TODAY_DATE" := PStr []]>
    (<[lit "TODAY_COUNT" := PStr (lit "0")]>
       (<[lit "DAILY_NEW_LIMIT" := PStr (lit "50")]> ∅)).

(** [load_settings()]; [file] is the text of the settings file, if there
    is one. *)
Definition load_settings (file : option pystr) : gmap pystr pyval :=
  match file with
  | Some text => foldl read_line defaults (lines_of [] text)
  | None => defaults
  end.

(** What a value reads back as. *)
Definition read_back (v : pyval) : pyval := PStr (default [] (py_str v)).

(** The keys and values that a line carries unchanged. *)
Definition plain (c : N) : bool :=
  negb (c =? newline)%N && negb (c =? cr)%N && encodable c.

Definition key_ok (k : pystr) : bool :=
  pystr_eqb (strip k) k && forallb (fun c => plain c && negb (c =? equals)%N) k.

Definition text_ok (s : pystr) : bool :=
  forallb plain s
  && match s with c :: _ => negb (c =? quote)%N | [] => true end
  && match last s with Some c => negb (c =? quote)%N | None => true end.

Definition value_ok (v : pyval) : bool :=
  match v with
  | PStr s => text_ok s
  | PInt _ | PBool _ | PNone => true
  | PFloat _ | PList _ | PDict _ => false
  end.

End SettingsText.

(** ** A concrete library and concrete inputs, for running the model *)

Module Posix.

Definition slash : N := 47%N.
Definition dot : N := 46%N.

(** The part after the last [/]. *)
Definition basename (p : pystr) : pystr :=
  default [] (last (split_on slash p)).

(** [s.rfind(c)]: the last position of [c], if there is one. *)
Fixpoint rfind (c : N) (s : pystr) : option nat :=
  match s with
  | [] => None
  | d :: s' =>
      match rfind c s' with
      | Some i => Some (S i)
      | None => if (d =? c)%N then Some 0%nat else None
      end
  end.

(** [os.path.splitext]: split before the last dot, when that dot stands
    in the last component of the path and after a character of it that
    is not a dot. *)
Definition splitext (p : pystr) : pystr * pystr :=
  let start := match rfind slash p with Some i => S i | None => 0%nat end in
  match rfind dot p with
  | Some di =>
      if (start <=? di)%nat
         && existsb (fun c => negb (c =? dot)%N) (take (di - start) (drop start p))
      then (take di p, drop di p)
      else (p, [])
  | None => (p, [])
  end.

Definition join (a b : pystr) : pystr :=
  match b with
  | c :: _ => if (c =? slash)%N then b
              else match last a with
                   | None => b
                   | Some d => if (d =? slash)%N then a ++ b else a ++ slash :: b
                   end
  | [] => match last a with
          | None => []
          | Some d => if (d =? slash)%N then a else a ++ [slash]
          end
  end.

Definition digit (c : N) : option Z :=
  if ((48 <=? c) && (c <=? 57))%N then Some (Z.of_N c - 48)%Z else None.

Fixpoint digits (acc : Z) (s : pystr) : option Z :=
  match s with
  | [] => Some acc
  | c :: s' => d ← digit c; digits (10 * acc + d)%Z s'
  end.

(** Digits in groups that single underscores separate, as [int()] and
    [float()] read them: the value and the number of digits. *)
Definition digit_groups (s : pystr) : option (Z * nat) :=
  let groups := split_on 95%N s in
  if forallb (fun g => match g with
                       | [] => false
                       | _ => forallb (fun c => bool_decide (is_Some (digit c))) g
                       end) groups
  then v ← digits 0 (concat groups); Some (v, length (concat groups))
  else None.

(** A leading sign: whether it is a minus, and the rest. *)
Definition signed (s : pystr) : bool * pystr :=
  match s with
  | c :: s' => if (c =? 45)%N then (true, s')
               else if (c =? 43)%N then (false, s') else (false, s)
  | [] => (false, [])
  end.

(** The text before the first character that satisfies [p], and the text
    after it, if there is such a character. *)
Fixpoint break_at (p : N -> bool) (s : pystr) : pystr * option pystr :=
  match s with
  | [] => ([], None)
  | c :: s' =>
      if p c then ([], Some s')
      else let '(a, b) := break_at p s' in (c :: a, b)
  end.

(** [int(s)] for a string: blanks around, a sign, decimal digits with
    underscores between them. The digits are the ASCII digits; [int()]
    also reads the decimal digits of other scripts, which are rejected
    here. *)
Definition to_int (s : pystr) : option Z :=
  let '(neg, body) := signed (strip s) in
  '(v, _) ← digit_groups body;
  Some (if neg then (- v)%Z else v).

(** [float(s)] for a string: blanks around, a sign, digits with an
    optional point, an optional exponent; the value is the exact
    rational. The texts [inf], [infinity] and [nan], which [float()]
    reads, have no value in the model and are rejected here, as are
    digits that are not ASCII. *)
Definition to_float (s : pystr) : option Q :=
  let '(neg, body) := signed (strip s) in
  let '(mant, expo) := break_at (fun c => (c =? 101)%N || (c =? 69)%N) body in
  let '(ip, fp) := break_at (fun c => (c =? dot)%N) mant in
  '(vi, ni) ← match ip with [] => Some (0%Z, 0%nat) | _ => digit_groups ip end;
  '(vf, nf) ← match fp with
              | None | Some [] => Some (0%Z, 0%nat)
              | Some fp => digit_groups fp
              end;
  e ← match expo with
      | None => Some 0%Z
      | Some ex =>
          let '(eneg, ebody) := signed ex in
          '(ve, _) ← digit_groups ebody;
          Some (if eneg then (- ve)%Z else ve)
      end;
  if (ni + nf =? 0)%nat then None
  else
    let m := ((inject_Z vi * inject_Z (10 ^ Z.of_nat nf) + inject_Z vf)
              / inject_Z (10 ^ Z.of_nat nf))%Q in
    let v := (m * Qpower 10 e)%Q in
    Some (if neg then (- v)%Q else v).

Definition lib : PyLib := Build_PyLib basename splitext join to_float to_int.

End Posix.

Module Examples.

Definition the_mgr : WordListManager.t :=
  WordListManager.mk (lit "/app") (lit "/app/assets").

Definition list_path : pystr := lit "/app/assets/fruit.txt".

Definition the_ref : WordListRef.t := WordListRef.mk list_path (lit "fruit").

Definition nl : N := 10%N.

(** Two well-formed lines, a blank line, and a line with a single field. *)
Definition fruit_lines : list pystr :=
  [lit "apple" ++ tab :: lit "a red fruit" ++ [nl];
   [nl];
   lit "pear  a green fruit" ++ [nl];
   lit "hello" ++ [nl]].

Definition world0 : World :=
  mkWorld {[ list_path := fruit_lines ]} ∅ None.

(** A word list whose only line has a single field. *)
Definition hello_world : World :=
  mkWorld {[ list_path := [lit "hello" ++ [nl]] ]} ∅ None.

Definition cache_path : pystr := lit "/app/assets/_fruit.json".

(** The word list of [world0] next to a cache that is not JSON, and next
    to a cache whose only row has five elements. *)
Definition world_garbage : World :=
  mkWorld {[ list_path := fruit_lines ]} {[ cache_path := Unparsable ]} None.

Definition short_row : pyval :=
  PList [PStr (lit "apple"); PStr (lit "a red fruit"); PFloat 2.5%Q; PInt 0;
         PFloat 1%Q].

Definition world_short_row : World :=
  mkWorld {[ list_path := fruit_lines ]}
    {[ cache_path := Parsed (PDict [(lit "WORDLIST", PList [short_row])]) ]} None.

Definition day1 : pystr := lit "2024-05-01".
Definition day2 : pystr := lit "2024-05-02".

(** A state as [answer] leaves it after a first successful review. *)
Definition apple : LearnedWord.t :=
  LearnedWord.mk (PStr (lit "apple")) (PStr (lit "a red fruit"))
    2.6%Q 1 (Int 6) 1000 None (Some day1).

(** A state that does not come from [answer]: no repetition yet, but an
    interval of ten days. *)
Definition stale : LearnedWord.t :=
  LearnedWord.mk (PStr (lit "pear")) (PStr (lit "a green fruit"))
    2.5%Q 0 (Float 10%Q) 1000 None None.

(** A state with a negative interval. *)
Definition negative : LearnedWord.t :=
  LearnedWord.mk (PStr (lit "pear")) (PStr (lit "a green fruit"))
    2.5%Q 1 (Float (-1)%Q) 1000 None None.

Definition app_with (ws : list LearnedWord.t) (count lim : Z) (day : pystr)
    : VocabularyApp.t :=
  VocabularyApp.mk the_mgr [the_ref] (Some the_ref) ws None
    4 0 false false
    (<[lit "TODAY_DATE" := PStr day]>
       (<[lit "TODAY_COUNT" := PInt count]>
          (<[lit "DAILY_NEW_LIMIT" := PStr (lit "50")]> ∅)))
    lim day count.

Definition env_at (day : pystr) (now : Z) (r : nat) (u : Q) : Env :=
  mkEnv day now r u.

(** The state after the key [m]: review only. *)
Definition reviewing (ws : list LearnedWord.t) (day : pystr) : VocabularyApp.t :=
  VocabularyApp.mk the_mgr [the_ref] (Some the_ref) ws None
    4 0 false true
    (<[lit "TODAY_DATE" := PStr day]>
       (<[lit "TODAY_COUNT" := PInt 1]>
          (<[lit "DAILY_NEW_LIMIT" := PStr (lit "50")]> ∅)))
    50 day 1.



(** A word list that names a word twice. *)
Definition twice_lines : list pystr :=
  [lit "apple" ++ tab :: lit "a red fruit" ++ [nl];
   lit "apple" ++ tab :: lit "a fruit of the apple tree" ++ [nl];
   lit "pear" ++ tab :: lit "a green fruit" ++ [nl]].

Definition world_twice : World :=
  mkWorld {[ list_path := twice_lines ]} ∅ None.

End Examples.

(** ** The update rule of the ease factor, as the specification words it *)

Module Spec.

(** [ef + 0.1 - (5-q) * (0.08 + (5-q) * 0.02)], clamped to a minimum of
    1.3. *)
Definition UpdateEase (ef : Q) (q : Z) : Q :=
  Qmax (ef + 0.1 - inject_Z (5 - q) * (0.08 + inject_Z (5 - q) * 0.02))%Q 1.3%Q.

(** [allowNewItem(today)]: if the stored date is not [today], the count
    is reset to 0 before [count < limit] is evaluated. *)
Definition allowNewItem (day : pystr) (app : VocabularyApp.t) : bool :=
  let count := if pystr_eqb day (VocabularyApp.today app)
               then VocabularyApp.today_count app else 0%Z in
  (count <? VocabularyApp.limit app)%Z.

End Spec.

(** ** The caches that [load_wordlist] does not read *)

Module CacheSpec.

Section WithLib.
Context `{PyLib}.

(** The items of a row that can be indexed by position: the elements of a
    list, the characters of a string. *)
Definition row_items (w : pyval) : option (list pyval) :=
  match w with
  | PList l => Some l
  | PStr s => Some (map (fun c => PStr [c]) s)
  | PNone | PBool _ | PInt _ | PFloat _ | PDict _ => None
  end.

(** A row that fails to load: it cannot be indexed by position, it has
    fewer than six items, or [float()] or [int()] rejects what stands at
    its third, fourth, fifth or sixth place. The first two places are not
    looked at. *)
Definition bad_row (w : pyval) : Prop :=
  match row_items w with
  | None => True
  | Some l =>
      (length l < 6)%nat \/
      (exists v e, l !! 2%nat = Some v /\ py_float v = Raise e) \/
      (exists v e, l !! 3%nat = Some v /\ py_int v = Raise e) \/
      (exists v e, l !! 4%nat = Some v /\ py_float v = Raise e) \/
      (exists v e, l !! 5%nat = Some v /\ py_int v = Raise e)
  end.

(** The rows of a cache: what iterating over the value of the key
    [WORDLIST] yields (no row when the key is missing). There are none to
    speak of when the text is not JSON, when it is not a JSON object, and
    when the value of the key is [null], a boolean or a number. *)
Definition cache_rows (a : artifact) : option (list pyval) :=
  match a with
  | Parsed (PDict d) =>
      match assoc_lookup (lit "WORDLIST") d with
      | None => Some []
      | Some (PList l) => Some l
      | Some (PStr s) => Some (map (fun c => PStr [c]) s)
      | Some (PDict d') => Some (map (fun kv => PStr (fst kv)) d')
      | Some (PNone | PBool _ | PInt _ | PFloat _) => None
      end
  | Parsed (PNone | PBool _ | PInt _ | PFloat _ | PStr _ | PList _) => None
  | Unparsable => None
  end.

(** A cache that fails to load. *)
Definition bad_cache (a : artifact) : Prop :=
  match cache_rows a with
  | None => True
  | Some rows => Exists bad_row rows
  end.

End WithLib.



End CacheSpec.

(** ** The learning states the program itself produces *)

Module Inv.

(** A new word has [n = 0] and [interval = 1]; [answer] keeps [n >= 0],
    resets the interval to 1 together with [n], and never leaves an
    interval below one day. The interval is taken as a number: it is the
    int [1] on a new word and the float [1.0] once the word was saved and
    loaded again. *)
Definition scheduled (w : LearnedWord.t) : Prop :=
  (0 <= LearnedWord.n w)%Z /\
  (LearnedWord.n w = 0%Z -> num_val (LearnedWord.interval w) == 1)%Q /\
  (1 <= num_val (LearnedWord.interval w))%Q.

(** The flags of the cached view agree with [self.words]: this is how
    [_load_all] sets them. *)
Definition synced (app : VocabularyApp.t) : Prop :=
  match VocabularyApp._all_words app with
  | None => True
  | Some aw =>
      Forall (fun e => Entry.is_learned e
                       = VocabularyApp.str_in (Entry.word e)
                           (map LearnedWord.word (VocabularyApp.words app))) aw
  end.

(** The invariants of a learning state: those of [scheduled], and an ease
    factor that is at least 1.3. *)
Definition well_formed (w : LearnedWord.t) : Prop :=
  scheduled w /\ (1.3 <= LearnedWord.ef w)%Q.

End Inv.

(** * Properties *)

(** ** The result monad *)

Lemma bind_Ok {A B} (f : A -> result B) (a : A) : (Ok a ≫= f) = f a.
Proof. reflexivity. Qed.

Lemma bind_Raise {A B} (f : A -> result B) (e : exn) : (Raise e ≫= f) = Raise e.
Proof. reflexivity. Qed.

(** ** [MemoryAlgorithm] *)

Section MemoryAlgorithmFacts.
Import MemoryAlgorithm.
Local Open Scope Q_scope.

Lemma py_max_ge_r (a b : Q) : b <= py_max a b.
Proof. unfold py_max. destruct (Qlt_le_dec a b); [apply Qle_refl | assumption]. Qed.

Lemma update_ef_floor (ef : Q) (q : Z) : 1.3 <= update_ef ef q.
Proof. unfold update_ef. apply py_max_ge_r. Qed.

Lemma initial_interval_0 : initial_interval 0 = Ok 1%Z.
Proof. reflexivity. Qed.

Lemma initial_interval_1 : initial_interval 1 = Ok 6%Z.
Proof. reflexivity. Qed.

(** The worked examples in binary64: the results are the floats that the
    literals 2.6, 2.5 and 2.36 denote. *)
Lemma update_ef_binary64_examples :
  Binary64.update_ef (Binary64.literal 25 10) 5 = Binary64.literal 26 10 /\
  Binary64.update_ef (Binary64.literal 25 10) 4 = Binary64.literal 25 10 /\
  Binary64.update_ef (Binary64.literal 25 10) 3 = Binary64.literal 236 100.
Proof. repeat split; vm_compute; reflexivity. Qed.

End MemoryAlgorithmFacts.

(** ** [VocabularyApp.answer] *)

Section AnswerFacts.
Import MemoryAlgorithm VocabularyApp.
Local Open Scope Q_scope.

Lemma py_max_Qmax (a b : Q) : py_max a b == Qmax a b.
Proof.
  unfold py_max. destruct (Qlt_le_dec a b) as [Hlt | Hle].
  - symmetry. apply Q.max_r. now apply Qlt_le_weak.
  - symmetry. now apply Q.max_l.
Qed.

Lemma update_ef_UpdateEase (ef : Q) (q : Z) : update_ef ef q == Spec.UpdateEase ef q.
Proof.
  unfold update_ef, Spec.UpdateEase. rewrite py_max_Qmax.
  apply Q.max_compat; [ring | reflexivity].
Qed.

(** A failed recall: the first branch of [answer]. *)
Lemma answer_word_failed (w : LearnedWord.t) (q now : Z) :
  (q < 3)%Z ->
  answer_word w q now =
    Ok (LearnedWord.mk (LearnedWord.word w) (LearnedWord.translation w)
          (LearnedWord.ef w) 0 (Int 1) now None (LearnedWord.learn_date w)).
Proof.
  intros Hq. destruct w. unfold answer_word. cbn [LearnedWord.word
    LearnedWord.translation LearnedWord.ef LearnedWord.learn_date].
  destruct (Z.ltb_spec q 3) as [_ | Hge]; [reflexivity | lia].
Qed.

(** A successful recall that is the first in a row. *)
Lemma answer_word_first_success (w : LearnedWord.t) (q now : Z) :
  (3 <= q)%Z -> LearnedWord.n w = 0%Z ->
  answer_word w q now =
    Ok (LearnedWord.mk (LearnedWord.word w) (LearnedWord.translation w)
          (update_ef (LearnedWord.ef w) q) 1 (Int 6) now None
          (LearnedWord.learn_date w)).
Proof.
  intros Hq Hn. destruct w. cbn in Hn. subst. unfold answer_word.
  destruct (Z.ltb_spec q 3) as [Hlt | _]; [lia | reflexivity].
Qed.

(** A successful recall after an earlier one. *)
Lemma answer_word_later_success (w : LearnedWord.t) (q now : Z) :
  (3 <= q)%Z -> LearnedWord.n w <> 0%Z ->
  answer_word w q now =
    Ok (LearnedWord.mk (LearnedWord.word w) (LearnedWord.translation w)
          (update_ef (LearnedWord.ef w) q) (LearnedWord.n w + 1)
          (Float (num_val (LearnedWord.interval w)
                  * update_ef (LearnedWord.ef w) q))
          now None (LearnedWord.learn_date w)).
Proof.
  intros Hq Hn. destruct w. cbn in Hn. unfold answer_word.
  destruct (Z.ltb_spec q 3) as [Hlt | _]; [lia |].
  cbn [LearnedWord.n LearnedWord.interval LearnedWord.ef LearnedWord.word
       LearnedWord.translation LearnedWord.learn_date].
  destruct (Z.eqb_spec (n + 1) 1) as [Heq | _]; [lia | reflexivity].
Qed.

(** [answer] never fails on a word: only the look-up of [self.idx] can. *)
Lemma answer_word_total (w : LearnedWord.t) (q now : Z) :
  exists w', answer_word w q now = Ok w'.
Proof.
  destruct (Z.lt_ge_cases q 3) as [Hlt | Hge].
  - eexists. now apply answer_word_failed.
  - destruct (Z.eq_dec (LearnedWord.n w) 0%Z) as [Hn | Hn].
    + eexists. now apply answer_word_first_success.
    + eexists. now apply answer_word_later_success.
Qed.

Lemma answer_at (app : t) (w w' : LearnedWord.t) (q now : Z) :
  words app !! idx app = Some w ->
  answer_word w q now = Ok w' ->
  answer q now app = Ok (set_words (<[idx app := w']> (words app)) app).
Proof. intros Hw Hw'. unfold answer. now rewrite Hw, Hw'. Qed.

Lemma lookup_answered (app : t) (w w' : LearnedWord.t) :
  words app !! idx app = Some w ->
  words (set_words (<[idx app := w']> (words app)) app)
    !! idx (set_words (<[idx app := w']> (words app)) app) = Some w'.
Proof.
  intros Hw. cbn. apply list_lookup_insert_eq. now apply lookup_lt_Some in Hw.
Qed.

(** C4. For every ease factor [ef >= 1.3] and every quality [q] in
    [0, 5], [update_ef ef q] is [ef + 0.1 - (5-q) * (0.08 + (5-q) * 0.02)]
    clamped below at 1.3, and the result is at least 1.3; for [ef = 2.5]
    the qualities 5, 4 and 3 give 2.6, 2.5 and 2.36. *)
Theorem update_ef_clamped_formula (ef : Q) (q : Z) :
  1.3 <= ef -> (0 <= q <= 5)%Z ->
  update_ef ef q == Spec.UpdateEase ef q /\
  1.3 <= update_ef ef q /\
  update_ef 2.5 5 == 2.6 /\ update_ef 2.5 4 == 2.5 /\ update_ef 2.5 3 == 2.36.
Proof.
  intros _ _. split; [apply update_ef_UpdateEase |].
  split; [apply update_ef_floor |].
  repeat split; vm_compute; reflexivity.
Qed.

Lemma update_ef_clamped_formula_witness :
  1.3 <= 2.5 /\ (0 <= 3 <= 5)%Z /\
  update_ef 2.5 3 == Spec.UpdateEase 2.5 3 /\ 1.3 <= update_ef 2.5 3.
Proof.
  assert (H1 : 1.3 <= 2.5) by (vm_compute; discriminate).
  assert (H2 : (0 <= 3 <= 5)%Z) by lia.
  destruct (update_ef_clamped_formula 2.5 3 H1 H2) as (Ha & Hb & _).
  exact (conj H1 (conj H2 (conj Ha Hb))).
Defined.

(** C3. For every learning state and every quality [q] with
    [0 <= q < 3], [answer] yields [n = 0] and [interval = 1] and leaves
    [ef] unchanged, whatever these fields held before. *)
Theorem answer_failed_recall (app : t) (w : LearnedWord.t) (q now : Z) :
  words app !! idx app = Some w -> (0 <= q < 3)%Z ->
  exists app' w',
    answer q now app = Ok app' /\
    words app' !! idx app' = Some w' /\
    LearnedWord.n w' = 0%Z /\
    LearnedWord.interval w' = Int 1 /\
    LearnedWord.ef w' = LearnedWord.ef w.
Proof.
  intros Hw [_ Hq].
  pose proof (answer_word_failed w q now Hq) as Hw'.
  eexists _, _. split; [exact (answer_at app w _ q now Hw Hw') |].
  split; [now apply (lookup_answered app w) |]. cbn. auto.
Qed.

Lemma answer_failed_recall_witness :
  exists app' w',
    answer 1 2000 (Examples.app_with [Examples.apple] 0 50 Examples.day1) = Ok app' /\
    words app' !! idx app' = Some w' /\
    LearnedWord.n w' = 0%Z /\
    LearnedWord.interval w' = Int 1 /\
    LearnedWord.ef w' = LearnedWord.ef Examples.apple.
Proof.
  apply (answer_failed_recall _ Examples.apple); [reflexivity | lia].
Defined.

(** C7, as amended. For every learning state with [ef >= 1.0] and a
    non-negative interval that either has a repetition count other than
    0 or an interval of at most 6 days, and every quality [q] with
    [3 <= q <= 5], [answer] yields an interval that is at least the prior
    one. *)
Theorem answer_success_interval_grows (app : t) (w : LearnedWord.t) (q now : Z) :
  words app !! idx app = Some w ->
  1.0 <= LearnedWord.ef w -> (3 <= q <= 5)%Z ->
  0 <= num_val (LearnedWord.interval w) ->
  (LearnedWord.n w <> 0%Z \/ num_val (LearnedWord.interval w) <= 6) ->
  exists app' w',
    answer q now app = Ok app' /\
    words app' !! idx app' = Some w' /\
    num_val (LearnedWord.interval w) <= num_val (LearnedWord.interval w').
Proof.
  intros Hw _ [Hq _] Hpos Hcase.
  destruct (Z.eq_dec (LearnedWord.n w) 0%Z) as [Hn | Hn].
  - destruct Hcase as [Hcase | Hcase]; [contradiction |].
    pose proof (answer_word_first_success w q now Hq Hn) as Hw'.
    eexists _, _. split; [exact (answer_at app w _ q now Hw Hw') |].
    split; [now apply (lookup_answered app w) |]. exact Hcase.
  - pose proof (answer_word_later_success w q now Hq Hn) as Hw'.
    eexists _, _. split; [exact (answer_at app w _ q now Hw Hw') |].
    split; [now apply (lookup_answered app w) |]. cbn.
    pose proof (update_ef_floor (LearnedWord.ef w) q) as Hef.
    set (i := num_val (LearnedWord.interval w)) in *.
    set (e := update_ef (LearnedWord.ef w) q) in *.
    assert (He : 1 <= e) by (eapply Qle_trans; [| exact Hef]; vm_compute; discriminate).
    clearbody i e. clear Hw' Hcase. nra.
Qed.

Lemma answer_success_interval_grows_witness :
  exists app' w',
    answer 4 2000 (Examples.app_with [Examples.apple] 0 50 Examples.day1) = Ok app' /\
    words app' !! idx app' = Some w' /\
    num_val (LearnedWord.interval Examples.apple) <= num_val (LearnedWord.interval w').
Proof.
  apply (answer_success_interval_grows _ Examples.apple).
  - reflexivity.
  - vm_compute; discriminate.
  - lia.
  - vm_compute; discriminate.
  - left. vm_compute. discriminate.
Defined.

(** C7, as stated, fails. A state with no repetition yet and an interval
    of ten days is sent to six days by a perfect recall; a state with a
    negative interval is sent further below zero. Both have [ef = 2.5]. *)
Lemma answer_success_interval_shrinks :
  (1.0 <= LearnedWord.ef Examples.stale /\
   (map LearnedWord.interval ∘ words)
     <$> answer 5 2000 (Examples.app_with [Examples.stale] 0 50 Examples.day1)
   = Ok [Int 6] /\
   ~ num_val (LearnedWord.interval Examples.stale) <= num_val (Int 6)) /\
  (1.0 <= LearnedWord.ef Examples.negative /\
   (map LearnedWord.interval ∘ words)
     <$> answer 5 2000 (Examples.app_with [Examples.negative] 0 50 Examples.day1)
   = Ok [Float (-2.600000)] /\
   ~ num_val (LearnedWord.interval Examples.negative) <= num_val (Float (-2.600000))).
Proof.
  repeat split; try (vm_compute; discriminate); try reflexivity;
    intros Hle; vm_compute in Hle; apply Hle; reflexivity.
Qed.

Lemma new_word_scheduled (e : Entry.t) (now : Z) (day : pystr) :
  Inv.scheduled (new_word_of e now day).
Proof.
  split; [cbn; lia |]. split; [reflexivity | vm_compute; discriminate].
Qed.

Lemma reloaded_scheduled (w : LearnedWord.t) :
  Inv.scheduled w -> Inv.scheduled (reloaded w).
Proof. intros Hs. exact Hs. Qed.

Lemma answer_word_scheduled (w w' : LearnedWord.t) (q now : Z) :
  Inv.scheduled w -> answer_word w q now = Ok w' -> Inv.scheduled w'.
Proof.
  intros (Hn0 & H0 & H1) Hw'.
  destruct (Z.lt_ge_cases q 3) as [Hlt | Hge].
  - rewrite (answer_word_failed w q now Hlt) in Hw'. injection Hw' as <-.
    split; [cbn; lia |]. split; [reflexivity | vm_compute; discriminate].
  - destruct (Z.eq_dec (LearnedWord.n w) 0%Z) as [Hn | Hn].
    + rewrite (answer_word_first_success w q now Hge Hn) in Hw'.
      injection Hw' as <-.
      split; [cbn; lia |]. split; [cbn; lia | vm_compute; discriminate].
    + rewrite (answer_word_later_success w q now Hge Hn) in Hw'.
      injection Hw' as <-. unfold Inv.scheduled. cbn.
      split; [lia |]. split; [lia |].
      pose proof (update_ef_floor (LearnedWord.ef w) q) as Hef.
      set (i := num_val (LearnedWord.interval w)) in *.
      set (e := update_ef (LearnedWord.ef w) q) in *.
      clearbody i e. nra.
Qed.

(** On the states the program produces, a successful recall never
    shortens the interval. *)
Corollary answer_success_scheduled (app : t) (w : LearnedWord.t) (q now : Z) :
  words app !! idx app = Some w -> Inv.scheduled w -> (3 <= q)%Z ->
  exists app' w',
    answer q now app = Ok app' /\
    words app' !! idx app' = Some w' /\
    Inv.scheduled w' /\
    num_val (LearnedWord.interval w) <= num_val (LearnedWord.interval w').
Proof.
  intros Hw Hs Hq. destruct (answer_word_total w q now) as [w' Hw'].
  exists (set_words (<[idx app := w']> (words app)) app), w'.
  split; [exact (answer_at app w w' q now Hw Hw') |].
  split; [now apply (lookup_answered app w) |].
  split; [exact (answer_word_scheduled w w' q now Hs Hw') |].
  destruct Hs as (Hn0 & H0 & H1).
  destruct (Z.eq_dec (LearnedWord.n w) 0%Z) as [Hn | Hn].
  - rewrite (answer_word_first_success w q now Hq Hn) in Hw'.
    injection Hw' as <-. rewrite (H0 Hn). vm_compute. discriminate.
  - rewrite (answer_word_later_success w q now Hq Hn) in Hw'.
    injection Hw' as <-. cbn.
    pose proof (update_ef_floor (LearnedWord.ef w) q) as Hef.
    set (i := num_val (LearnedWord.interval w)) in *.
    set (e := update_ef (LearnedWord.ef w) q) in *.
    clearbody i e. nra.
Qed.

End AnswerFacts.

(** ** [WordListManager]: the cache of learned words *)

Section CacheFacts.
Import WordListManager.
Context `{PyLib}.

Lemma mapM_Raise {A B} (f : A -> result B) (l : list A) :
  Exists (fun x => exists e, f x = Raise e) l -> exists e, mapM f l = Raise e.
Proof.
  induction 1 as [x l [e He] | x l _ [e IH]].
  - exists e. cbn. now rewrite He.
  - cbn. destruct (f x) as [y | e']; [| now exists e'].
    cbn. rewrite IH. now exists e.
Qed.

Lemma learned_of_row_of_learned (w : LearnedWord.t) :
  learned_of_row (row_of_learned w) = Ok (reloaded w).
Proof. destruct w as [? ? ? ? [z | q] ? ? ?]; reflexivity. Qed.

Lemma reloaded_same_state (w : LearnedWord.t) : same_state (reloaded w) w.
Proof. repeat split. Qed.

Lemma mapM_cons {A B} (f : A -> result B) (x : A) (l : list A) :
  mapM f (x :: l) = (y ← f x; k ← mapM f l; mret (y :: k)).
Proof. reflexivity. Qed.

Lemma rows_back (words : list LearnedWord.t) :
  mapM learned_of_row (map row_of_learned words) = Ok (map reloaded words).
Proof.
  induction words as [| w words IH]; [reflexivity |].
  rewrite map_cons, mapM_cons, learned_of_row_of_learned, bind_Ok, IH.
  reflexivity.
Qed.

Lemma read_cache_saved (words : list LearnedWord.t) :
  read_cache (Parsed (PDict [(lit "WORDLIST", PList (map row_of_learned words))]))
  = Ok (map reloaded words).
Proof. unfold read_cache. cbn -[mapM]. apply rows_back. Qed.

Lemma load_wordlist_total (self : t) (path : pystr) (fs : World) (f : list pystr) :
  wordlist_files fs !! path = Some f ->
  exists learned,
    load_wordlist self path fs = Ok (learned, length (nonblank_lines f)).
Proof. intros Hf. unfold load_wordlist. rewrite Hf. eauto. Qed.

(** C8. For every list of learning states, [save_wordlist] followed by
    [load_wordlist] gives back one record per state, in the same order,
    with the same word, translation, ease factor, repetition count,
    interval and last-review time. *)
Theorem save_load_roundtrip (self : t) (path : pystr)
    (words : list LearnedWord.t) (fs : World) (f : list pystr) :
  wordlist_files fs !! path = Some f ->
  load_wordlist self path (save_wordlist self path words fs)
  = Ok (map reloaded words, length (nonblank_lines f)) /\
  Forall2 same_state (map reloaded words) words.
Proof.
  intros Hf. split.
  - unfold load_wordlist, save_wordlist. cbn [wordlist_files set_cache_files
      cache_files]. rewrite Hf, lookup_insert_eq, read_cache_saved. reflexivity.
  - induction words as [| w words IH]; constructor;
      [apply reloaded_same_state | exact IH].
Qed.

(** Ways in which a cache fails to load. *)
Lemma read_cache_not_a_dict (v : pyval) :
  (forall d, v <> PDict d) -> read_cache (Parsed v) = Raise AttributeError.
Proof. intros Hv. destruct v; try reflexivity. now destruct (Hv d). Qed.

Lemma learned_of_row_short (l : list pyval) :
  (length l < 6)%nat -> exists e, learned_of_row (PList l) = Raise e.
Proof.
  intros Hl. unfold learned_of_row.
  destruct l as [| w0 [| w1 [| w2 [| w3 [| w4 [| w5 l]]]]]];
    cbn in Hl; try lia; cbn; eauto;
    destruct (py_float w2) as [? | ?]; cbn; eauto;
    destruct (py_int w3) as [? | ?]; cbn; eauto;
    destruct (py_float w4) as [? | ?]; cbn; eauto.
Qed.

Lemma learned_of_row_not_a_number (w0 w1 w2 w3 w4 w5 : pyval) :
  w2 = PNone \/ (exists l, w2 = PList l) \/ (exists d, w2 = PDict d) ->
  learned_of_row (PList [w0; w1; w2; w3; w4; w5]) = Raise TypeError.
Proof. intros [-> | [[l ->] | [d ->]]]; reflexivity. Qed.

(** Elements after the sixth are ignored. *)
Lemma learned_of_row_extra_elements (w : LearnedWord.t) (extra : list pyval) :
  learned_of_row (PList [LearnedWord.word w; LearnedWord.translation w;
                         PFloat (LearnedWord.ef w); PInt (LearnedWord.n w);
                         num_to_py (LearnedWord.interval w);
                         PInt (LearnedWord.last_review w)])
  = Ok (reloaded w) /\
  learned_of_row (PList ([LearnedWord.word w; LearnedWord.translation w;
                          PFloat (LearnedWord.ef w); PInt (LearnedWord.n w);
                          num_to_py (LearnedWord.interval w);
                          PInt (LearnedWord.last_review w)] ++ extra))
  = Ok (reloaded w).
Proof. destruct w as [? ? ? ? [z | q] ? ? ?]; split; reflexivity. Qed.

(** One bad row anywhere invalidates the whole cache. *)
Lemma read_cache_bad_row (rest : list (pystr * pyval)) (rows : list pyval) :
  Exists (fun w => exists e, learned_of_row w = Raise e) rows ->
  exists e, read_cache (Parsed (PDict ((lit "WORDLIST", PList rows) :: rest)))
            = Raise e.
Proof. intros Hrows. unfold read_cache. cbn -[mapM]. now apply mapM_Raise. Qed.

(** C10. [save_wordlist] writes, for every word, the list of its six
    persisted keys and nothing else: two lists of words that agree on
    these keys, whatever [is_new] and [learn_date] they carry, leave the
    same files behind. *)
Theorem save_wordlist_six_keys (self : t) (path : pystr)
    (words : list LearnedWord.t) (fs : World) :
  cache_files (save_wordlist self path words fs) !! get_cache_file self path
  = Some (Parsed (PDict [(lit "WORDLIST",
       PList (map (fun w => PList [LearnedWord.word w; LearnedWord.translation w;
                                   PFloat (LearnedWord.ef w); PInt (LearnedWord.n w);
                                   num_to_py (LearnedWord.interval w);
                                   PInt (LearnedWord.last_review w)]) words))])) /\
  (forall words',
     map persisted_keys words' = map persisted_keys words ->
     save_wordlist self path words' fs = save_wordlist self path words fs).
Proof.
  split.
  - unfold save_wordlist. cbn. now rewrite lookup_insert_eq.
  - intros words' Hkeys.
    assert (Hrows : map row_of_learned words' = map row_of_learned words).
    { revert words' Hkeys.
      induction words as [| w words IH]; intros [| w' words'] Hk;
        cbn in Hk; try discriminate; [reflexivity |].
      injection Hk as Hw Hk. cbn. f_equal; [| now apply IH].
      unfold persisted_keys in Hw. unfold row_of_learned. congruence. }
    unfold save_wordlist. now rewrite Hrows.
Qed.

End CacheFacts.

Lemma save_load_roundtrip_witness :
  WordListManager.load_wordlist (H := Posix.lib) Examples.the_mgr Examples.list_path
    (WordListManager.save_wordlist (H := Posix.lib) Examples.the_mgr
       Examples.list_path [Examples.apple] Examples.world0)
  = Ok (map reloaded [Examples.apple],
        length (WordListManager.nonblank_lines Examples.fruit_lines)) /\
  Forall2 same_state (map reloaded [Examples.apple]) [Examples.apple].
Proof.
  apply (save_load_roundtrip (H := Posix.lib)). vm_compute. reflexivity.
Defined.


(** A cache with a row of five elements is dropped as a whole. *)
Lemma load_wordlist_short_row :
  WordListManager.load_wordlist (H := Posix.lib) Examples.the_mgr Examples.list_path
    Examples.world_short_row = Ok ([], 3%nat).
Proof. vm_compute. reflexivity. Qed.

(** ** The caches that fail to load *)

Section CacheSpecFacts.
Import WordListManager.
Context `{PyLib}.

Lemma learned_of_row_items (w : pyval) (l : list pyval) :
  CacheSpec.row_items w = Some l -> learned_of_row w = learned_of_row (PList l).
Proof.
  destruct w as [| b | z | q | s | l' | d]; try discriminate; intros [= <-];
    [| reflexivity].
  destruct s as [| c0 [| c1 [| c2 [| c3 [| c4 [| c5 s]]]]]]; reflexivity.
Qed.

Lemma bad_row_raises (w : pyval) :
  CacheSpec.bad_row w -> exists e, learned_of_row w = Raise e.
Proof.
  unfold CacheSpec.bad_row. destruct (CacheSpec.row_items w) as [l |] eqn:Hl.
  - rewrite (learned_of_row_items w l Hl).
    intros [Hshort | [(v & e & Hv & He) | [(v & e & Hv & He)
           | [(v & e & Hv & He) | (v & e & Hv & He)]]]].
    + now apply learned_of_row_short.
    + destruct l as [| w0 [| w1 [| w2 l]]]; try discriminate.
      injection Hv as ->. unfold learned_of_row. cbn. rewrite He. eauto.
    + destruct l as [| w0 [| w1 [| w2 [| w3 l]]]]; try discriminate.
      injection Hv as ->. unfold learned_of_row. cbn.
      destruct (py_float w2); cbn; [rewrite He |]; eauto.
    + destruct l as [| w0 [| w1 [| w2 [| w3 [| w4 l]]]]]; try discriminate.
      injection Hv as ->. unfold learned_of_row. cbn.
      destruct (py_float w2); cbn; [| eauto].
      destruct (py_int w3); cbn; [rewrite He |]; eauto.
    + destruct l as [| w0 [| w1 [| w2 [| w3 [| w4 [| w5 l]]]]]]; try discriminate.
      injection Hv as ->. unfold learned_of_row. cbn.
      destruct (py_float w2); cbn; [| eauto].
      destruct (py_int w3); cbn; [| eauto].
      destruct (py_float w4); cbn; [rewrite He |]; eauto.
  - intros _. destruct w; try discriminate; cbn; eauto.
Qed.



Lemma read_cache_rows (a : artifact) (rows : list pyval) :
  CacheSpec.cache_rows a = Some rows -> read_cache a = mapM learned_of_row rows.
Proof.
  destruct a as [| [| b | z | q | s | l | d]]; try discriminate.
  unfold CacheSpec.cache_rows, read_cache, py_get.
  destruct (assoc_lookup (lit "WORDLIST") d) as [[| b | z | q | s | l | d'] |];
    try discriminate; now intros [= <-].
Qed.

Lemma bad_cache_raises (a : artifact) :
  CacheSpec.bad_cache a -> exists e, read_cache a = Raise e.
Proof.
  unfold CacheSpec.bad_cache.
  destruct (CacheSpec.cache_rows a) as [rows |] eqn:Hrows.
  - intros Hbad. rewrite (read_cache_rows a rows Hrows). apply mapM_Raise.
    apply (Exists_impl _ _ _ Hbad). intros w. apply bad_row_raises.
  - intros _. destruct a as [| [| b | z | q | s | l | d]]; cbn; eauto.
    unfold CacheSpec.cache_rows in Hrows. unfold read_cache, py_get.
    destruct (assoc_lookup (lit "WORDLIST") d) as [[| b | z | q | s | l | d'] |];
      try discriminate; cbn; eauto.
Qed.




End CacheSpecFacts.



(** ** The word list: [load_wordlist] and [_load_all] *)

Section WordListFacts.
Import WordListManager VocabularyApp.

Lemma entry_of_line_length (ln : pystr) : (length (entry_of_line ln) <= 1)%nat.
Proof.
  unfold entry_of_line.
  destruct (if contains tab ln then split_on tab ln else split_ws1 ln)
    as [| a [| b [| c l]]]; cbn; lia.
Qed.

Lemma entries_le_lines (lines : list pystr) :
  (length (flat_map entry_of_line lines) <= length lines)%nat.
Proof.
  induction lines as [| ln lines IH]; [reflexivity |].
  cbn. rewrite length_app. pose proof (entry_of_line_length ln). lia.
Qed.

(** What [_load_all] stores: one entry per non-blank line that splits in
    two, so never more entries than [load_wordlist] counts. *)
Lemma _load_all_entries (self self' : VocabularyApp.t) (fs : World) (c : WordListRef.t)
    (f : list pystr) :
  curr self = Some c -> wordlist_files fs !! WordListRef.path c = Some f ->
  _load_all self fs = Ok self' ->
  exists aw,
    _all_words self' = Some aw /\
    map (fun e => (Entry.word e, Entry.translation e)) aw
    = map (fun e => (Entry.word e, Entry.translation e))
        (flat_map entry_of_line (nonblank_lines f)) /\
    (length aw <= length (nonblank_lines f))%nat.
Proof.
  intros Hc Hf Hload. unfold _load_all in Hload. rewrite Hc, Hf in Hload.
  destruct (forallb hashable (map LearnedWord.word (words self)));
    [| discriminate].
  injection Hload as <-. eexists. split; [reflexivity |]. split.
  - rewrite map_map. reflexivity.
  - rewrite length_map. apply entries_le_lines.
Qed.

(** C2 fails on the code: [load_wordlist] counts every non-blank line,
    [_load_all] keeps the lines with two fields. For a list with the one
    line [hello] the count is 1 and there is no entry; for the list
    [fruit_lines] the count is 3 and there are 2 entries. *)
Theorem total_counts_every_nonblank_line :
  (snd <$> load_wordlist (H := Posix.lib) Examples.the_mgr Examples.list_path
             Examples.hello_world = Ok 1%nat /\
   _all_words <$> _load_all (Examples.app_with [] 0 50 Examples.day1)
                    Examples.hello_world = Ok (Some [])) /\
  (snd <$> load_wordlist (H := Posix.lib) Examples.the_mgr Examples.list_path
             Examples.world0 = Ok 3%nat /\
   (fun a => length <$> _all_words a)
     <$> _load_all (Examples.app_with [] 0 50 Examples.day1) Examples.world0
   = Ok (Some 2%nat)).
Proof. repeat split; vm_compute; reflexivity. Qed.

End WordListFacts.

(** ** The weighted draw: [random.choices] *)

Section RandomFacts.
Import Random.
Local Open Scope Q_scope.

Lemma length_accumulate_from (acc : Q) (l : list Q) :
  length (accumulate_from acc l) = length l.
Proof. revert acc. induction l as [| x l IH]; intros acc; cbn; [| rewrite IH]; reflexivity. Qed.

Lemma length_accumulate (l : list Q) : length (accumulate l) = length l.
Proof. destruct l; cbn; [| rewrite length_accumulate_from]; reflexivity. Qed.

(** [l[-1]] of a non-empty list is its last element. *)
Lemma py_index_last {A} (l : list A) (x : A) :
  last l = Some x -> py_index l (-1) = Ok x.
Proof.
  intros Hl. unfold py_index. rewrite last_lookup in Hl.
  assert (Hlen : (0 < length l)%nat).
  { destruct l; [discriminate | cbn; lia]. }
  cbn [Z.ltb Z.compare]. 
  destruct (Z.ltb_spec (Z.of_nat (length l) + -1) 0) as [Hneg | _]; [lia |].
  replace (Z.to_nat (Z.of_nat (length l) + -1)) with (Nat.pred (length l)) by lia.
  now rewrite Hl.
Qed.

Lemma py_index_nat {A} (l : list A) (i : nat) (x : A) :
  l !! i = Some x -> py_index l (Z.of_nat i) = Ok x.
Proof.
  intros Hx. unfold py_index.
  destruct (Z.ltb_spec (Z.of_nat i) 0) as [Hneg | _]; [lia |].
  destruct (Z.ltb_spec (Z.of_nat i) 0) as [Hneg | _]; [lia |].
  now rewrite Nat2Z.id, Hx.
Qed.

(** The sum of the weights. *)
Lemma last_accumulate_from (acc : Q) (l : list Q) (t : Q) :
  last (accumulate_from acc l) = Some t -> t == acc + foldr Qplus 0 l.
Proof.
  revert acc. induction l as [| x l IH]; intros acc; [discriminate |].
  cbn [accumulate_from foldr]. destruct l as [| y l].
  - intros [= <-]. cbn. ring.
  - intros Hl. change (last (accumulate_from (acc + x) (y :: l)) = Some t) in Hl.
    rewrite (IH _ Hl). ring.
Qed.

Lemma last_accumulate (l : list Q) (t : Q) :
  last (accumulate l) = Some t -> t == foldr Qplus 0 l.
Proof.
  destruct l as [| x l]; [discriminate |]. cbn [accumulate foldr].
  destruct l as [| y l].
  - intros [= <-]. cbn. ring.
  - intros Hl. change (last (accumulate_from x (y :: l)) = Some t) in Hl.
    now apply last_accumulate_from.
Qed.

Lemma last_is_Some {A} (l : list A) : l <> [] -> exists x, last l = Some x.
Proof.
  intros Hl. destruct (last l) as [x |] eqn:Hlast; [eauto |].
  apply last_None in Hlast. contradiction.
Qed.

Lemma sum_zero (l : list Q) :
  Forall (fun w => w == 0) l -> foldr Qplus 0 l == 0.
Proof.
  induction 1 as [| w l Hw _ IH]; [reflexivity |]. cbn. rewrite Hw, IH. ring.
Qed.

(** With a total weight that is not positive, the draw raises. *)
Lemma choices_no_weight {A} (population : list A) (weights : list Q) (u : Q) :
  weights <> [] -> foldr Qplus 0 weights <= 0 ->
  choices population weights u = Raise ValueError.
Proof.
  intros Hne Hsum. unfold choices.
  destruct (negb (length (accumulate weights) =? length population)%nat);
    [reflexivity |].
  destruct (last_is_Some (accumulate weights)) as [t Ht].
  { intros Hnil. apply (f_equal length) in Hnil.
    rewrite length_accumulate in Hnil. destruct weights; [contradiction | discriminate]. }
  rewrite (py_index_last _ _ Ht), bind_Ok.
  pose proof (last_accumulate _ _ Ht) as Htot.
  destruct (Qlt_le_dec 0 (t + 0.0)) as [Hpos | _]; [| reflexivity].
  exfalso. rewrite Htot in Hpos. lra.
Qed.

(** The loop of [bisect] ends within its bounds and reads no position
    outside the list. *)
Lemma bisect_loop_bounds (fuel : nat) (a : list Q) (x : Q) (lo hi : nat) :
  (lo <= hi)%nat -> (hi <= length a)%nat ->
  exists i, bisect_loop fuel a x lo hi = Ok i /\ (lo <= i <= hi)%nat.
Proof.
  revert lo hi. induction fuel as [| fuel IH]; intros lo hi Hlo Hhi.
  - exists lo. split; [reflexivity | lia].
  - cbn [bisect_loop]. destruct (Nat.ltb_spec lo hi) as [Hlt | Hge].
    + pose proof (Nat.div_mod_eq (lo + hi) 2) as Hdiv.
      pose proof (Nat.mod_upper_bound (lo + hi) 2 ltac:(lia)) as Hmod.
      assert (Hmid : (lo <= (lo + hi) / 2 < hi)%nat) by lia.
      destruct (lookup_lt_is_Some_2 a ((lo + hi) / 2)%nat) as [am Ham]; [lia |].
      rewrite Ham. destruct (Qlt_le_dec x am).
      * destruct (IH lo ((lo + hi) / 2)%nat) as (i & Hi & Hb); [lia | lia |].
        exists i. split; [exact Hi | lia].
      * destruct (IH ((lo + hi) / 2 + 1)%nat hi) as (i & Hi & Hb); [lia | lia |].
        exists i. split; [exact Hi | lia].
    + exists lo. split; [reflexivity | lia].
Qed.

(** With a positive total weight, the draw returns an element of the
    population. *)
Lemma choices_some {A} (population : list A) (weights : list Q) (u : Q) :
  length weights = length population -> 0 < foldr Qplus 0 weights ->
  exists i x, choices population weights u = Ok [x] /\ population !! i = Some x.
Proof.
  intros Hlen Hsum. unfold choices.
  rewrite length_accumulate, Hlen, Nat.eqb_refl. cbn [negb].
  assert (Hne : weights <> []).
  { intros ->. cbn in Hsum. lra. }
  destruct (last_is_Some (accumulate weights)) as [t Ht].
  { intros Hnil. apply (f_equal length) in Hnil.
    rewrite length_accumulate in Hnil. destruct weights; [contradiction | discriminate]. }
  rewrite (py_index_last _ _ Ht), bind_Ok.
  pose proof (last_accumulate _ _ Ht) as Htot.
  destruct (Qlt_le_dec 0 (t + 0.0)) as [_ | Hle]; [| exfalso; rewrite Htot in Hle; lra].
  destruct (bisect_loop_bounds (length population - 1 - 0) (accumulate weights)
              (u * (t + 0.0)) 0 (length population - 1)) as (i & Hi & Hb).
  { lia. } { rewrite length_accumulate. lia. }
  unfold bisect. rewrite Hi, bind_Ok.
  destruct (lookup_lt_is_Some_2 population i) as [x Hx].
  { destruct weights; [contradiction |]. cbn in Hlen. lia. }
  exists i, x. rewrite (py_index_nat _ _ _ Hx). split; [reflexivity | exact Hx].
Qed.

(** Before CPython 3.9 the total is not checked: with two weights of
    zero the draw is the last element whatever [u] is. *)
Lemma choices_legacy_no_weight (u : Q) :
  choices_legacy [0%nat; 1%nat] [0; 0] u = Ok [1%nat].
Proof.
  unfold choices_legacy, bisect.
  change (py_index (accumulate [0; 0]) (-1)) with (Ok (0 + 0)).
  rewrite bind_Ok. cbn.
  destruct (Qlt_le_dec (u * (0 + 0)) 0) as [Hlt | _]; [| reflexivity].
  exfalso. lra.
Qed.

(** *** The draw is weighted *)

Lemma lookup_accumulate_from (acc : Q) (l : list Q) (i : nat) :
  (i < length l)%nat ->
  exists c, accumulate_from acc l !! i = Some c /\
            c == acc + foldr Qplus 0 (take (S i) l).
Proof.
  revert acc i. induction l as [| x l IH]; intros acc i Hi; [cbn in Hi; lia |].
  destruct i as [| i].
  - exists (acc + x). split; [reflexivity |].
    change (take 1 (x :: l)) with [x]. cbn [foldr]. ring.
  - destruct (IH (acc + x) i) as (c & Hc & Hsum); [cbn in Hi; lia |].
    exists c. split; [exact Hc |].
    rewrite Hsum. change (take (S (S i)) (x :: l)) with (x :: take (S i) l).
    cbn [foldr]. ring.
Qed.

(** [cum_weights[i]] is the sum of the weights up to position [i]. *)
Lemma lookup_accumulate (l : list Q) (i : nat) :
  (i < length l)%nat ->
  exists c, accumulate l !! i = Some c /\ c == foldr Qplus 0 (take (S i) l).
Proof.
  destruct l as [| x l]; intros Hi; [cbn in Hi; lia |].
  destruct i as [| i].
  - exists x. split; [reflexivity |].
    change (take 1 (x :: l)) with [x]. cbn [foldr]. ring.
  - destruct (lookup_accumulate_from x l i) as (c & Hc & Hsum); [cbn in Hi; lia |].
    exists c. split; [exact Hc |].
    rewrite Hsum. change (take (S (S i)) (x :: l)) with (x :: take (S i) l).
    cbn [foldr]. ring.
Qed.

Lemma sum_nonneg (l : list Q) : Forall (Qle 0) l -> 0 <= foldr Qplus 0 l.
Proof. induction 1 as [| x l Hx _ IH]; cbn; [apply Qle_refl | lra]. Qed.

Lemma prefix_sum_mono (l : list Q) (j k : nat) :
  Forall (Qle 0) l -> (j <= k)%nat ->
  foldr Qplus 0 (take j l) <= foldr Qplus 0 (take k l).
Proof.
  intros Hl. revert j k. induction Hl as [| x l Hx Hl IH]; intros j k Hjk.
  - rewrite !take_nil. apply Qle_refl.
  - destruct j as [| j].
    + cbn [take foldr]. apply sum_nonneg. apply Forall_take. now constructor.
    + destruct k as [| k]; [lia |]. cbn [take foldr].
      specialize (IH j k ltac:(lia)). lra.
Qed.

(** The loop of [bisect] on a sorted list: everything before the result
    is at most [x], and the result, when it is below [hi], is above [x]. *)
Lemma bisect_loop_sorted (fuel : nat) (a : list Q) (x : Q) (lo hi i : nat) :
  (forall j k aj ak, (j <= k)%nat -> a !! j = Some aj -> a !! k = Some ak ->
                     aj <= ak) ->
  (lo <= hi)%nat -> (hi <= length a)%nat -> (hi - lo <= fuel)%nat ->
  bisect_loop fuel a x lo hi = Ok i ->
  (forall j aj, (lo <= j < i)%nat -> a !! j = Some aj -> aj <= x) /\
  (forall ai, (i < hi)%nat -> a !! i = Some ai -> x < ai).
Proof.
  intros Hsorted. revert lo hi.
  induction fuel as [| fuel IH]; intros lo hi Hlo Hhi Hfuel Hi.
  - cbn in Hi. injection Hi as <-. split; intros; lia.
  - cbn [bisect_loop] in Hi. destruct (Nat.ltb_spec lo hi) as [Hlt | Hge].
    + pose proof (Nat.div_mod_eq (lo + hi) 2) as Hdiv.
      pose proof (Nat.mod_upper_bound (lo + hi) 2 ltac:(lia)) as Hmod.
      set (mid := ((lo + hi) / 2)%nat) in *.
      assert (Hmid : (lo <= mid < hi)%nat) by lia.
      destruct (a !! mid) as [am |] eqn:Ham; [| discriminate].
      destruct (Qlt_le_dec x am) as [Hxlt | Hxge].
      * destruct (bisect_loop_bounds fuel a x lo mid) as (i' & Hi' & Hb);
          [lia | lia |].
        rewrite Hi in Hi'. injection Hi' as <-.
        destruct (IH lo mid ltac:(lia) ltac:(lia) ltac:(lia) Hi) as [Hbefore Hat].
        split; [exact Hbefore |].
        intros ai Hlt' Hai. destruct (Nat.eq_dec i mid) as [-> | Hne].
        -- rewrite Ham in Hai. injection Hai as <-. exact Hxlt.
        -- apply Hat; [lia | exact Hai].
      * destruct (bisect_loop_bounds fuel a x (mid + 1) hi) as (i' & Hi' & Hb);
          [lia | lia |].
        rewrite Hi in Hi'. injection Hi' as <-.
        destruct (IH (mid + 1)%nat hi ltac:(lia) ltac:(lia) ltac:(lia) Hi)
          as [Hbefore Hat].
        split; [| exact Hat].
        intros j aj Hj Haj. destruct (Nat.le_gt_cases j mid) as [Hjm | Hjm].
        -- eapply Qle_trans; [| exact Hxge]. exact (Hsorted j mid aj am Hjm Haj Ham).
        -- apply (Hbefore j); [lia | exact Haj].
    + injection Hi as <-. split; intros; lia.
Qed.

Lemma accumulate_sorted (l : list Q) (j k : nat) (aj ak : Q) :
  Forall (Qle 0) l -> (j <= k)%nat ->
  accumulate l !! j = Some aj -> accumulate l !! k = Some ak -> aj <= ak.
Proof.
  intros Hl Hjk Hj Hk.
  pose proof (lookup_lt_Some _ _ _ Hj) as Hjl.
  pose proof (lookup_lt_Some _ _ _ Hk) as Hkl.
  rewrite length_accumulate in Hjl, Hkl.
  destruct (lookup_accumulate l j Hjl) as (cj & Hcj & Hsj).
  destruct (lookup_accumulate l k Hkl) as (ck & Hck & Hsk).
  rewrite Hj in Hcj. rewrite Hk in Hck.
  injection Hcj as <-. injection Hck as <-.
  rewrite Hsj, Hsk. apply prefix_sum_mono; [exact Hl | lia].
Qed.

(** With weights that are not negative and a positive total, the draw
    lands on position [i] exactly when [u * total] falls in the stretch
    of width [weights[i]] that follows the weights before [i]. *)
Lemma choices_weighted {A} (population : list A) (weights : list Q) (u : Q) :
  length weights = length population -> Forall (Qle 0) weights ->
  0 < foldr Qplus 0 weights -> 0 <= u < 1 ->
  exists i x,
    choices population weights u = Ok [x] /\ population !! i = Some x /\
    foldr Qplus 0 (take i weights) <= u * foldr Qplus 0 weights /\
    u * foldr Qplus 0 weights < foldr Qplus 0 (take (S i) weights).
Proof.
  intros Hlen Hnn Hsum [Hu0 Hu1]. unfold choices.
  rewrite length_accumulate, Hlen, Nat.eqb_refl. cbn [negb].
  assert (Hne : weights <> []).
  { intros ->. cbn in Hsum. lra. }
  assert (Hpos : (0 < length population)%nat).
  { destruct weights; [contradiction | cbn in Hlen; lia]. }
  destruct (last_is_Some (accumulate weights)) as [t Ht].
  { intros Hnil. apply (f_equal length) in Hnil.
    rewrite length_accumulate in Hnil. destruct weights; [contradiction | discriminate]. }
  rewrite (py_index_last _ _ Ht), bind_Ok.
  pose proof (last_accumulate _ _ Ht) as Htot.
  destruct (Qlt_le_dec 0 (t + 0.0)) as [_ | Hle]; [| exfalso; rewrite Htot in Hle; lra].
  set (x := u * (t + 0.0)).
  assert (Hx : x == u * foldr Qplus 0 weights).
  { unfold x. rewrite Htot. ring. }
  destruct (bisect_loop_bounds (length population - 1 - 0) (accumulate weights)
              x 0 (length population - 1)) as (i & Hi & Hb).
  { lia. } { rewrite length_accumulate. lia. }
  destruct (bisect_loop_sorted (length population - 1 - 0) (accumulate weights) x
              0 (length population - 1) i) as [Hbefore Hat]; try lia.
  { intros j k aj ak. now apply accumulate_sorted. }
  { rewrite length_accumulate. lia. }
  { exact Hi. }
  unfold bisect. rewrite Hi, bind_Ok.
  destruct (lookup_lt_is_Some_2 population i) as [y Hy]; [lia |].
  exists i, y. rewrite (py_index_nat _ _ _ Hy).
  split; [reflexivity |]. split; [exact Hy |].
  rewrite <- Hx. split.
  - destruct i as [| i].
    + cbn [take foldr]. rewrite Hx.
      apply Qmult_le_0_compat; [exact Hu0 | now apply Qlt_le_weak].
    + destruct (lookup_accumulate weights i) as (c & Hc & Hsc); [lia |].
      rewrite <- Hsc. apply (Hbefore i c); [lia | exact Hc].
  - destruct (lookup_accumulate weights i) as (c & Hc & Hsc); [lia |].
    rewrite <- Hsc.
    destruct (Nat.eq_dec i (length population - 1)%nat) as [Hlast | Hnl].
    + rewrite last_lookup, length_accumulate, Hlen in Ht.
      replace (Nat.pred (length population)) with i in Ht by lia.
      rewrite Hc in Ht. injection Ht as ->.
      rewrite Hx, Htot. 
      assert (Hshrink : forall s, 0 < s -> u * s < s) by (intros; nra).
      now apply Hshrink.
    + apply Hat; [lia | exact Hc].
Qed.

End RandomFacts.

(** ** [VocabularyApp.get_word] *)

Section GetWordFacts.
Import VocabularyApp.

Lemma pystr_eqb_eq (a b : pystr) : pystr_eqb a b = true <-> a = b.
Proof. unfold pystr_eqb. apply bool_decide_eq_true. Qed.

Lemma pystr_eqb_refl (a : pystr) : pystr_eqb a a = true.
Proof. now apply pystr_eqb_eq. Qed.

Lemma pystr_eqb_neq (a b : pystr) : a <> b -> pystr_eqb a b = false.
Proof. unfold pystr_eqb. apply bool_decide_eq_false. Qed.

(** [new_day] overwrites the counter: the value it held is forgotten. *)
Lemma new_day_forgets_count (day : pystr) (app : t) (fs : World) (c : Z) :
  new_day day (set_today_count c app) fs = new_day day app fs.
Proof. reflexivity. Qed.

Lemma get_word_stale (env : Env) (app : t) (fs : World) :
  today app <> date_today env ->
  get_word env app fs
  = ('(new, self) ← get_new_word env (new_day (date_today env) app fs).1
                      (new_day (date_today env) app fs).2;
     match new with
     | Some sel => Ok (sel, self, (new_day (date_today env) app fs).2)
     | None =>
         '(sel, self) ← get_review_word env self (new_day (date_today env) app fs).2;
         Ok (sel, self, (new_day (date_today env) app fs).2)
     end).
Proof.
  intros Hday. unfold get_word.
  rewrite (pystr_eqb_neq (date_today env) (today app)) by congruence.
  reflexivity.
Qed.

Lemma get_word_same_day (env : Env) (app : t) (fs : World) :
  today app = date_today env ->
  get_word env app fs
  = ('(new, self) ← get_new_word env app fs;
     match new with
     | Some sel => Ok (sel, self, fs)
     | None => '(sel, self) ← get_review_word env self fs; Ok (sel, self, fs)
     end).
Proof.
  intros Hday. unfold get_word. rewrite Hday, pystr_eqb_refl. reflexivity.
Qed.


(** With the quota used up the day before, the first query of the new
    day offers a new word; on the same day it does not. *)
Lemma get_word_after_midnight :
  (exists w tr nw st fs,
     get_word (Examples.env_at Examples.day2 5000 0 0%Q)
       (Examples.app_with [] 50 50 Examples.day1) Examples.world0
     = Ok (NewWord w tr true nw, st, fs) /\ w = lit "apple") /\
  (exists st fs,
     get_word (Examples.env_at Examples.day1 5000 0 0%Q)
       (Examples.app_with [] 50 50 Examples.day1) Examples.world0
     = Ok (ErrorDict (lit "no_learned_words"), st, fs)).
Proof.
  split.
  - eexists _, _, _, _, _. split; [vm_compute; reflexivity | reflexivity].
  - eexists _, _. vm_compute. reflexivity.
Qed.

(** [__init__] does the same reset when the settings hold another date. *)
Lemma init_day_rollover `{PyLib} (m : WordListManager.t)
    (found : list WordListRef.t) (day : pystr) (fs fs' : World) (app : t)
    (date : pyval) :
  init m found day fs = Ok (app, fs') ->
  load_settings fs !! lit "TODAY_DATE" = Some date ->
  py_ne_str date day = true ->
  today app = day /\ today_count app = 0%Z /\
  cfg app !! lit "TODAY_DATE" = Some (PStr day) /\
  cfg app !! lit "TODAY_COUNT" = Some (PInt 0) /\
  settings_file fs' = Some (cfg app).
Proof.
  intros Hinit Hdate Hne. unfold init in Hinit.
  destruct (cfg_item (load_settings fs) (lit "DAILY_NEW_LIMIT") ≫= py_int)
    as [lim |]; [| discriminate].
  destruct (cfg_item (load_settings fs) (lit "TODAY_COUNT") ≫= py_int)
    as [cnt |]; [| discriminate].
  unfold cfg_item in Hinit at 1. rewrite Hdate in Hinit.
  cbn -[lit load_settings] in Hinit. rewrite Hne in Hinit.
  injection Hinit as <- <-. cbn -[lit load_settings].
  split; [reflexivity |]. split; [reflexivity |].
  split.
  - rewrite lookup_insert_ne by (vm_compute; discriminate).
    apply lookup_insert_eq.
  - split; [apply lookup_insert_eq | reflexivity].
Qed.


(** A word list that was just selected has no cached view, so nothing
    to be out of step with [self.words]. *)
Lemma select_wordlist_synced `{PyLib} (i : nat) (app app' : t) (fs : World) :
  select_wordlist i app fs = Ok app' -> Inv.synced app'.
Proof.
  unfold select_wordlist. destruct (wordlists app !! i) as [wl |]; [| discriminate].
  destruct (WordListManager.load_wordlist (mgr app) (WordListRef.path wl) fs)
    as [[learned tot] | e]; [| discriminate].
  cbn. intros [= <-]. exact I.
Qed.

(** *** The new-word block *)

(** A uniform draw: the position is the draw reduced modulo the length,
    so every element is hit by the draws congruent to its position. *)
Lemma choice_position {A} (l : list A) (r : nat) :
  l <> [] ->
  exists x, l !! (r mod length l)%nat = Some x /\ Random.choice l r = Ok x.
Proof.
  intros Hl. unfold Random.choice.
  destruct l as [| a l]; [contradiction |].
  destruct (lookup_lt_is_Some_2 (a :: l) (r mod length (a :: l))%nat) as [x Hx].
  { apply Nat.mod_upper_bound. cbn. lia. }
  exists x. now rewrite Hx.
Qed.

Lemma choice_onto {A} (l : list A) (i : nat) (x : A) :
  l !! i = Some x -> Random.choice l i = Ok x.
Proof.
  intros Hx. pose proof (lookup_lt_Some _ _ _ Hx) as Hi.
  unfold Random.choice. destruct l as [| a l]; [cbn in Hi; lia |].
  rewrite Nat.mod_small by exact Hi. now rewrite Hx.
Qed.

(** The property [all_words] changes nothing but the cached view. *)
Lemma all_words_frame (app app' : t) (fs : World) (o : option (list Entry.t)) :
  all_words app fs = Ok (o, app') -> app' = set_all_words o app.
Proof.
  unfold all_words, _load_all. destruct app as [m wl c ws aw tot i rd ro cf lim td tc].
  cbn. destruct aw as [l |].
  - intros [= <- <-]. reflexivity.
  - destruct c as [c |]; [| intros [= <- <-]; reflexivity].
    destruct (wordlist_files fs !! WordListRef.path c); [| discriminate].
    destruct (forallb hashable (map LearnedWord.word ws)); [| discriminate].
    cbn. intros [= <- <-]. reflexivity.
Qed.

(** The view that [all_words] returns carries flags that agree with
    [self.words], provided a view cached earlier does. *)
Lemma all_words_synced (app app' : t) (fs : World) (aw : list Entry.t) :
  Inv.synced app -> all_words app fs = Ok (Some aw, app') ->
  Forall (fun e => Entry.is_learned e
                   = str_in (Entry.word e) (map LearnedWord.word (words app))) aw.
Proof.
  unfold Inv.synced, all_words, _load_all.
  destruct (_all_words app) as [l |] eqn:Hcache.
  - intros Hs [= <- <-]. exact Hs.
  - intros _. destruct (curr app) as [c |];
      [| cbn; intros [= Hc _]; rewrite Hcache in Hc; discriminate].
    destruct (wordlist_files fs !! WordListRef.path c); [| discriminate].
    destruct (forallb hashable (map LearnedWord.word (words app))); [| discriminate].
    cbn. intros [= <- <-]. apply Forall_map, Forall_true. reflexivity.
Qed.

(** The day change and the loading of the view do not interfere. *)
Lemma all_words_new_day (day : pystr) (app : t) (fs : World) :
  all_words (new_day day app fs).1 (new_day day app fs).2
  = match all_words app fs with
    | Ok (o, app') => Ok (o, (new_day day app' fs).1)
    | Raise e => Raise e
    end.
Proof.
  unfold all_words, _load_all. destruct app as [m wl c ws aw tot i rd ro cf lim td tc].
  cbn. destruct aw as [l |]; [reflexivity |].
  destruct c as [c |]; [| reflexivity].
  destruct (wordlist_files fs !! WordListRef.path c); [| reflexivity].
  destruct (forallb hashable (map LearnedWord.word ws)); reflexivity.
Qed.

Lemma filter_flags (aw : list Entry.t) (learned : list pyval) :
  Forall (fun e => Entry.is_learned e = str_in (Entry.word e) learned) aw ->
  List.filter (fun w => negb (Entry.is_learned w)) aw
  = List.filter (fun e => negb (str_in (Entry.word e) learned)) aw.
Proof.
  induction 1 as [| e aw He _ IH]; [reflexivity |].
  cbn. rewrite He, IH. reflexivity.
Qed.

Lemma get_new_word_found (env : Env) (app app' : t) (fs : World)
    (aw : list Entry.t) :
  review_only app = false -> (today_count app <? limit app)%Z = true ->
  all_words app fs = Ok (Some aw, app') ->
  List.filter (fun w => negb (Entry.is_learned w)) aw <> [] ->
  exists e,
    List.filter (fun w => negb (Entry.is_learned w)) aw
      !! (randbelow_draw env mod
            length (List.filter (fun w => negb (Entry.is_learned w)) aw))%nat
    = Some e /\
    get_new_word env app fs
    = Ok (Some (NewWord (Entry.word e) (Entry.translation e) true
                  (new_word_of e (time_ms env) (date_today env))), app').
Proof.
  intros Hro Hquota Haw Hne.
  destruct (choice_position _ (randbelow_draw env) Hne) as (e & Hpos & Hdraw).
  exists e. split; [exact Hpos |].
  unfold get_new_word. rewrite Hro, Hquota, Haw. cbn -[List.filter].
  destruct (List.filter (fun w => negb (Entry.is_learned w)) aw) eqn:Hf;
    [contradiction |].
  rewrite Hdraw. reflexivity.
Qed.

(** With the flags of the view in step with the learned words: when
    [review_only] is false, the quota allows a new word and some entry of
    the word list is not among the learned words, [get_word] returns one
    of these entries, at the position given by the uniform draw, as a new
    word with [ef = 2.5], [n = 0], [interval = 1], [last_review = now] and
    [is_new = True], and leaves [self.words] as it was. *)
Lemma get_word_new_item (env : Env) (app app' : t) (fs : World)
    (aw : list Entry.t) :
  review_only app = false ->
  Spec.allowNewItem (date_today env) app = true ->
  Inv.synced app ->
  all_words app fs = Ok (Some aw, app') ->
  let fresh := List.filter
                 (fun e => negb (str_in (Entry.word e)
                                   (map LearnedWord.word (words app)))) aw in
  fresh <> [] ->
  exists e nw st fs',
    get_word env app fs
    = Ok (NewWord (Entry.word e) (Entry.translation e) true nw, st, fs') /\
    fresh !! (randbelow_draw env mod length fresh)%nat = Some e /\
    nw = LearnedWord.mk (PStr (Entry.word e)) (PStr (Entry.translation e))
           2.5%Q 0 (Int 1) (time_ms env) (Some true) (Some (date_today env)) /\
    words st = words app.
Proof.
  intros Hro Hquota Hsync Haw fresh Hfresh.
  pose proof (all_words_synced app app' fs aw Hsync Haw) as Hflags.
  pose proof (filter_flags aw _ Hflags) as Hfilter. fold fresh in Hfilter.
  pose proof (all_words_frame app app' fs _ Haw) as ->.
  unfold Spec.allowNewItem in Hquota.
  destruct (pystr_eqb (date_today env) (today app)) eqn:Hday.
  - apply pystr_eqb_eq in Hday.
    destruct (get_new_word_found env app _ fs aw Hro Hquota Haw) as (e & Hpos & Hget).
    { now rewrite Hfilter. }
    rewrite Hfilter in Hpos.
    exists e, (new_word_of e (time_ms env) (date_today env)),
      (set_all_words (Some aw) app), fs.
    rewrite (get_word_same_day env app fs) by congruence.
    rewrite Hget. repeat split; assumption.
  - assert (Hne : today app <> date_today env).
    { intros Heq. rewrite Heq, pystr_eqb_refl in Hday. discriminate. }
    pose proof (all_words_new_day (date_today env) app fs) as Haw1.
    rewrite Haw in Haw1.
    destruct (get_new_word_found env (new_day (date_today env) app fs).1 _
                (new_day (date_today env) app fs).2 aw Hro Hquota Haw1)
      as (e & Hpos & Hget).
    { now rewrite Hfilter. }
    rewrite Hfilter in Hpos.
    exists e, (new_word_of e (time_ms env) (date_today env)),
      (new_day (date_today env) (set_all_words (Some aw) app) fs).1,
      (new_day (date_today env) app fs).2.
    rewrite (get_word_stale env app fs Hne), Hget.
    repeat split; assumption.
Qed.


(** *** The review block *)

Lemma get_new_word_skipped (env : Env) (app : t) (fs : World) :
  negb (review_only app) && (today_count app <? limit app)%Z = false ->
  get_new_word env app fs = Ok (None, app).
Proof. intros Hgate. unfold get_new_word. now rewrite Hgate. Qed.

(** A word reviewed at this very millisecond has weight zero, unless its
    interval is not positive: then the weight is 1.0 whatever the time. *)
Lemma review_weight_just_reviewed (w : LearnedWord.t) (now : Z) :
  LearnedWord.last_review w = now ->
  (0 < num_val (LearnedWord.interval w))%Q ->
  (MemoryAlgorithm.review_weight w now == 0)%Q.
Proof.
  intros Hnow Hpos. unfold MemoryAlgorithm.review_weight.
  destruct (Qlt_le_dec 0 (num_val (LearnedWord.interval w))) as [_ | Hle];
    [| exfalso; lra].
  rewrite Hnow, Z.sub_diag. unfold Qdiv. ring.
Qed.

Lemma review_weight_no_interval (w : LearnedWord.t) (now : Z) :
  (num_val (LearnedWord.interval w) <= 0)%Q ->
  MemoryAlgorithm.review_weight w now = 1.0%Q.
Proof.
  intros Hle. unfold MemoryAlgorithm.review_weight.
  destruct (Qlt_le_dec 0 (num_val (LearnedWord.interval w))) as [Hpos | _];
    [exfalso; lra | reflexivity].
Qed.

Lemma get_review_word_nonempty (env : Env) (app : t) (fs : World) :
  words app <> [] ->
  get_review_word env app fs
  = (drawn ← Random.choices (seq 0 (length (words app)))
               (weights_of app (time_ms env)) (random_draw env);
     i ← py_index drawn 0;
     match words app !! i with
     | Some w => Ok (Review w, set_idx i app)
     | None => Raise IndexError
     end).
Proof.
  destruct app as [m wl c ws aw tot i rd ro cf lim td tc]. cbn [words].
  intros Hne. destruct ws as [| w ws]; [contradiction | reflexivity].
Qed.

Lemma get_review_word_no_weight (env : Env) (app : t) (fs : World) :
  words app <> [] ->
  (foldr Qplus 0 (weights_of app (time_ms env)) <= 0)%Q ->
  get_review_word env app fs = Raise ValueError.
Proof.
  intros Hne Hsum. rewrite (get_review_word_nonempty env app fs Hne).
  rewrite choices_no_weight; [reflexivity | | exact Hsum].
  unfold weights_of. destruct (words app); [contradiction | discriminate].
Qed.

(** With a positive total weight the review block returns a learned
    word, the one at the position drawn, and records the position. With
    weights that are not negative, position [i] is drawn when
    [u * total] falls in the stretch of width [weights[i]]. *)
Lemma get_review_word_weighted (env : Env) (app : t) (fs : World) :
  Forall (Qle 0) (weights_of app (time_ms env)) ->
  (0 < foldr Qplus 0 (weights_of app (time_ms env)))%Q ->
  (0 <= random_draw env < 1)%Q ->
  exists i w,
    get_review_word env app fs = Ok (Review w, set_idx i app) /\
    words app !! i = Some w /\
    (foldr Qplus 0 (take i (weights_of app (time_ms env)))
     <= random_draw env * foldr Qplus 0 (weights_of app (time_ms env)))%Q /\
    (random_draw env * foldr Qplus 0 (weights_of app (time_ms env))
     < foldr Qplus 0 (take (S i) (weights_of app (time_ms env))))%Q.
Proof.
  intros Hnn Hsum Hu.
  destruct (choices_weighted (seq 0 (length (words app)))
              (weights_of app (time_ms env)) (random_draw env))
    as (i & x & Hdraw & Hx & Hlow & Hhigh); try assumption.
  { unfold weights_of. now rewrite length_map, length_seq. }
  pose proof (lookup_lt_Some _ _ _ Hx) as Hi. rewrite length_seq in Hi.
  rewrite lookup_seq_lt in Hx by exact Hi. injection Hx as <-.
  destruct (lookup_lt_is_Some_2 (words app) i Hi) as [w Hw].
  exists i, w. split; [| now repeat split].
  rewrite get_review_word_nonempty by (intros Hnil; rewrite Hnil in Hw; discriminate).
  rewrite Hdraw, bind_Ok. change (py_index [i] 0) with (Ok i).
  rewrite bind_Ok, Hw. reflexivity.
Qed.

Lemma sum_ones (l : list Q) :
  Forall (fun w => w == 1)%Q l ->
  (foldr Qplus 0 l == inject_Z (Z.of_nat (length l)))%Q.
Proof.
  induction 1 as [| w l Hw _ IH]; [reflexivity |].
  cbn [foldr length]. rewrite Hw, IH, Nat2Z.inj_succ. unfold Z.succ.
  rewrite inject_Z_plus. ring.
Qed.

(** When no interval is positive every weight is 1.0 and the draw is
    uniform: position [i] is drawn when [i <= u * len < i + 1]. *)
Lemma get_review_word_uniform (env : Env) (app : t) (fs : World) :
  words app <> [] ->
  Forall (fun w => num_val (LearnedWord.interval w) <= 0)%Q (words app) ->
  (0 <= random_draw env < 1)%Q ->
  exists i w,
    get_review_word env app fs = Ok (Review w, set_idx i app) /\
    words app !! i = Some w /\
    (inject_Z (Z.of_nat i)
     <= random_draw env * inject_Z (Z.of_nat (length (words app))))%Q /\
    (random_draw env * inject_Z (Z.of_nat (length (words app)))
     < inject_Z (Z.of_nat (S i)))%Q.
Proof.
  intros Hne Hint Hu.
  assert (Hones : Forall (fun w => w == 1)%Q (weights_of app (time_ms env))).
  { unfold weights_of. apply Forall_map. eapply Forall_impl; [exact Hint |].
    intros w Hw. cbn. now rewrite review_weight_no_interval. }
  assert (Hlen : length (weights_of app (time_ms env)) = length (words app)).
  { unfold weights_of. apply length_map. }
  pose proof (sum_ones _ Hones) as Htotal. rewrite Hlen in Htotal.
  destruct (get_review_word_weighted env app fs) as (i & w & Hget & Hw & Hlow & Hhigh).
  { eapply Forall_impl; [exact Hones |]. intros q Hq. cbn in Hq. rewrite Hq. lra. }
  { rewrite Htotal. destruct (words app); [contradiction |].
    cbn [length]. rewrite Nat2Z.inj_succ. unfold Z.succ. rewrite inject_Z_plus.
    pose proof (Nat2Z.is_nonneg (length l)) as Hl.
    rewrite Zle_Qle in Hl. change (inject_Z 0) with 0%Q in Hl.
    change (inject_Z 1) with 1%Q. lra. }
  { exact Hu. }
  pose proof (lookup_lt_Some _ _ _ Hw) as Hi.
  exists i, w. split; [exact Hget |]. split; [exact Hw |].
  rewrite Htotal in Hlow, Hhigh.
  rewrite (sum_ones (take i _)) in Hlow by now apply Forall_take.
  rewrite (sum_ones (take (S i) _)) in Hhigh by now apply Forall_take.
  rewrite length_take, Hlen in Hlow, Hhigh.
  rewrite Nat.min_l in Hlow by lia. rewrite Nat.min_l in Hhigh by lia.
  split; assumption.
Qed.

(** C1. The review block draws by weight and has no fall-back: when
    every weight is zero the call to [random.choices] raises
    [ValueError], and [get_word] with it. *)
Theorem get_word_all_weights_zero (env : Env) (app : t) (fs : World) :
  review_only app = true \/ Spec.allowNewItem (date_today env) app = false ->
  words app <> [] ->
  Forall (fun w => MemoryAlgorithm.review_weight w (time_ms env) == 0)%Q (words app) ->
  get_word env app fs = Raise ValueError.
Proof.
  intros Hbranch Hne Hzero.
  assert (Hsum : forall a : t, words a = words app ->
                   (foldr Qplus 0 (weights_of a (time_ms env)) <= 0)%Q).
  { intros a Ha. unfold weights_of. rewrite Ha, sum_zero; [apply Qle_refl |].
    now apply Forall_map. }
  unfold Spec.allowNewItem in Hbranch.
  destruct (pystr_eqb (date_today env) (today app)) eqn:Hday.
  - apply pystr_eqb_eq in Hday.
    rewrite (get_word_same_day env app fs) by congruence.
    rewrite get_new_word_skipped.
    + rewrite bind_Ok. cbn match.
      rewrite get_review_word_no_weight; [reflexivity | exact Hne | now apply Hsum].
    + destruct Hbranch as [-> | ->]; [reflexivity | apply andb_false_r].
  - assert (Hstale : today app <> date_today env).
    { intros Heq. rewrite Heq, pystr_eqb_refl in Hday. discriminate. }
    rewrite (get_word_stale env app fs Hstale).
    rewrite get_new_word_skipped.
    + rewrite bind_Ok. cbn match.
      rewrite get_review_word_no_weight; [reflexivity | exact Hne | now apply Hsum].
    + destruct Hbranch as [Hro | Hlim].
      * cbn. now rewrite Hro.
      * cbn. rewrite Hlim. apply andb_false_r.
Qed.


(** *** The cached view stays in step with [self.words] *)

Lemma synced_ext (a b : t) :
  words a = words b -> _all_words a = _all_words b -> Inv.synced a -> Inv.synced b.
Proof. unfold Inv.synced. intros -> ->. auto. Qed.

Lemma all_words_keeps_synced (app app' : t) (fs : World)
    (o : option (list Entry.t)) :
  all_words app fs = Ok (o, app') -> Inv.synced app -> Inv.synced app'.
Proof.
  intros Haw Hs. pose proof (all_words_frame app app' fs o Haw) as ->.
  destruct o as [aw |]; [| exact I].
  exact (all_words_synced app _ fs aw Hs Haw).
Qed.

Lemma get_new_word_synced (env : Env) (app app' : t) (fs : World)
    (new : option selection) :
  get_new_word env app fs = Ok (new, app') -> Inv.synced app -> Inv.synced app'.
Proof.
  unfold get_new_word. intros Hget Hs.
  destruct (negb (review_only app) && (today_count app <? limit app)%Z);
    [| injection Hget as _ <-; exact Hs].
  destruct (all_words app fs) as [[o a] | e] eqn:Haw; [| discriminate].
  pose proof (all_words_keeps_synced app a fs o Haw Hs) as Hs'.
  cbn in Hget. destruct o as [aw |]; [| discriminate].
  destruct (List.filter (fun w => negb (Entry.is_learned w)) aw) as [| e l].
  - injection Hget as _ <-. exact Hs'.
  - destruct (Random.choice (e :: l) (randbelow_draw env)); [| discriminate].
    injection Hget as _ <-. exact Hs'.
Qed.

Lemma get_review_word_synced (env : Env) (app app' : t) (fs : World)
    (sel : selection) :
  get_review_word env app fs = Ok (sel, app') -> Inv.synced app -> Inv.synced app'.
Proof.
  intros Hget Hs. destruct (words app) as [| w0 ws] eqn:Hws.
  - unfold get_review_word in Hget. rewrite Hws in Hget.
    destruct (all_words app fs) as [[o a] | e] eqn:Haw; [| discriminate].
    pose proof (all_words_keeps_synced app a fs o Haw Hs) as Hs'.
    cbn in Hget. destruct o as [[| e' l] |]; inversion Hget; subst; exact Hs'.
  - rewrite get_review_word_nonempty in Hget by (rewrite Hws; discriminate).
    destruct (Random.choices _ _ _) as [drawn | e]; [| discriminate].
    rewrite bind_Ok in Hget.
    destruct (py_index drawn 0) as [i | e]; [| discriminate].
    rewrite bind_Ok in Hget.
    destruct (words app !! i); [| discriminate].
    inversion Hget; subst. now apply (synced_ext app).
Qed.

Lemma get_word_synced (env : Env) (app app' : t) (fs fs' : World) (sel : selection) :
  get_word env app fs = Ok (sel, app', fs') -> Inv.synced app -> Inv.synced app'.
Proof.
  unfold get_word. intros Hget Hs.
  destruct (if negb (pystr_eqb (date_today env) (today app))
            then new_day (date_today env) app fs else (app, fs)) as [a f] eqn:Hroll.
  assert (Hsa : Inv.synced a).
  { destruct (negb (pystr_eqb (date_today env) (today app)));
      injection Hroll as <- _; [now apply (synced_ext app) | exact Hs]. }
  destruct (get_new_word env a f) as [[new a1] | e] eqn:Hnew; [| discriminate].
  pose proof (get_new_word_synced env a a1 f new Hnew Hsa) as Hs1.
  cbn in Hget. destruct new as [sel' |]; [injection Hget as _ <- _; exact Hs1 |].
  destruct (get_review_word env a1 f) as [[sel' a2] | e] eqn:Hrev; [| discriminate].
  cbn in Hget. injection Hget as _ <- _.
  exact (get_review_word_synced env a1 a2 f sel' Hrev Hs1).
Qed.

Lemma pystr_eqb_sym (a b : pystr) : pystr_eqb a b = pystr_eqb b a.
Proof.
  destruct (pystr_eqb b a) eqn:Hba.
  - apply pystr_eqb_eq in Hba. subst. apply pystr_eqb_refl.
  - destruct (pystr_eqb a b) eqn:Hab; [| reflexivity].
    apply pystr_eqb_eq in Hab. subst. now rewrite pystr_eqb_refl in Hba.
Qed.

Lemma str_in_app (s : pystr) (l1 l2 : list pyval) :
  str_in s (l1 ++ l2) = str_in s l1 || str_in s l2.
Proof. unfold str_in. apply existsb_app. Qed.

(** Marking the first entry of a word: with no word listed twice, the
    flags then agree with the learned words extended by that word. *)
Lemma mark_learned_synced (s : pystr) (aw : list Entry.t) (learned : list pyval) :
  NoDup (map Entry.word aw) ->
  Forall (fun e => Entry.is_learned e = str_in (Entry.word e) learned) aw ->
  Forall (fun e => Entry.is_learned e = str_in (Entry.word e) (learned ++ [PStr s]))
    (mark_learned (PStr s) aw).
Proof.
  intros Hnd Hflags. induction Hflags as [| e aw He Hflags IH]; [constructor |].
  cbn [map] in Hnd. apply NoDup_cons in Hnd as [Hnotin Hnd].
  cbn [mark_learned py_ne_str]. rewrite negb_involutive.
  destruct (pystr_eqb s (Entry.word e)) eqn:Heq.
  - apply pystr_eqb_eq in Heq. subst s. constructor.
    + cbn. rewrite str_in_app. cbn. rewrite pystr_eqb_refl. now rewrite orb_true_r.
    + apply Forall_forall. intros e' Hin.
      rewrite Forall_forall in Hflags. rewrite (Hflags e' Hin), str_in_app. cbn.
      destruct (pystr_eqb (Entry.word e') (Entry.word e)) eqn:Hdup;
        [| now rewrite !orb_false_r].
      apply pystr_eqb_eq in Hdup. exfalso. apply Hnotin.
      rewrite <- Hdup. apply list_elem_of_In, in_map. now apply list_elem_of_In.
  - constructor; [| now apply IH].
    rewrite He, str_in_app. cbn. rewrite pystr_eqb_sym, Heq. now rewrite !orb_false_r.
Qed.

Lemma answer_word_keeps_word (w w' : LearnedWord.t) (q now : Z) :
  answer_word w q now = Ok w' -> LearnedWord.word w' = LearnedWord.word w.
Proof.
  intros Hw'. destruct (Z.lt_ge_cases q 3) as [Hlt | Hge].
  - rewrite (answer_word_failed w q now Hlt) in Hw'. now injection Hw' as <-.
  - destruct (Z.eq_dec (LearnedWord.n w) 0%Z) as [Hn | Hn].
    + rewrite (answer_word_first_success w q now Hge Hn) in Hw'. now injection Hw' as <-.
    + rewrite (answer_word_later_success w q now Hge Hn) in Hw'. now injection Hw' as <-.
Qed.

Lemma answer_keeps_words (app app' : t) (q now : Z) :
  answer q now app = Ok app' ->
  map LearnedWord.word (words app') = map LearnedWord.word (words app) /\
  _all_words app' = _all_words app.
Proof.
  unfold answer. destruct (words app !! idx app) as [w |] eqn:Hw; [| discriminate].
  destruct (answer_word w q now) as [w' |] eqn:Hw'; [| discriminate].
  rewrite bind_Ok. intros [= <-]. split; [| reflexivity]. cbn [words set_words].
  apply answer_word_keeps_word in Hw'.
  apply list_eq. intros i. rewrite !list_lookup_fmap.
  destruct (Nat.eq_dec i (idx app)) as [-> | Hne].
  - rewrite list_lookup_insert_eq by (now apply lookup_lt_Some in Hw).
    rewrite Hw. cbn. now rewrite Hw'.
  - now rewrite list_lookup_insert_ne by congruence.
Qed.

Lemma answer_synced (app app' : t) (q now : Z) :
  answer q now app = Ok app' -> Inv.synced app -> Inv.synced app'.
Proof.
  intros Hans. destruct (answer_keeps_words app app' q now Hans) as [Hwords Hview].
  unfold Inv.synced. now rewrite Hview, Hwords.
Qed.

(** Confirming a word keeps the view in step, as long as the word list
    names no word twice. *)
Lemma main_confirm_synced `{PyLib} (sel : selection) (q now : Z) (app app' : t)
    (fs fs' : World) (aw : list Entry.t) :
  _all_words app = Some aw -> NoDup (map Entry.word aw) -> Inv.synced app ->
  (forall w tr b nw, sel = NewWord w tr b nw ->
                     exists s, LearnedWord.word nw = PStr s) ->
  main_confirm sel q now app fs = Ok (app', fs') -> Inv.synced app'.
Proof.
  intros Hview Hnd Hs Hword. unfold main_confirm.
  destruct sel as [w tr b nw | w | err].
  - destruct (Hword w tr b nw eq_refl) as [s Hs'].
    unfold all_words. cbn [_all_words set_idx set_words]. rewrite Hview.
    rewrite !bind_Ok. cbn match.
    destruct (answer q now _) as [a |] eqn:Hans; [| discriminate].
    rewrite bind_Ok. intros [= <- _].
    apply (answer_synced _ _ q now Hans).
    unfold Inv.synced. cbn -[str_in mark_learned]. rewrite map_app. cbn [map].
    rewrite Hs'. apply mark_learned_synced; [exact Hnd |].
    unfold Inv.synced in Hs. now rewrite Hview in Hs.
  - rewrite bind_Ok. cbn match.
    destruct (answer q now app) as [a |] eqn:Hans; [| discriminate].
    rewrite bind_Ok. intros [= <- _]. exact (answer_synced _ _ q now Hans Hs).
  - rewrite bind_Ok. cbn match.
    destruct (answer q now app) as [a |] eqn:Hans; [| discriminate].
    rewrite bind_Ok. intros [= <- _]. exact (answer_synced _ _ q now Hans Hs).
Qed.


End GetWordFacts.

Lemma get_word_new_item_witness :
  let env := Examples.env_at Examples.day1 5000 1 0%Q in
  let app := Examples.app_with [Examples.apple] 0 50 Examples.day1 in
  exists e nw st fs',
    VocabularyApp.get_word env app Examples.world0
    = Ok (NewWord (Entry.word e) (Entry.translation e) true nw, st, fs') /\
    Entry.word e = lit "pear" /\
    VocabularyApp.words st = VocabularyApp.words app.
Proof.
  intros env app.
  destruct (get_word_new_item env app
              (VocabularyApp.set_all_words
                 (Some [Entry.mk (lit "apple") (lit "a red fruit") true;
                        Entry.mk (lit "pear") (lit "a green fruit") false]) app)
              Examples.world0
              [Entry.mk (lit "apple") (lit "a red fruit") true;
               Entry.mk (lit "pear") (lit "a green fruit") false])
    as (e & nw & st & fs' & Hget & Hpos & _ & Hwords).
  - reflexivity.
  - reflexivity.
  - exact I.
  - vm_compute. reflexivity.
  - vm_compute. discriminate.
  - exists e, nw, st, fs'. split; [exact Hget |]. split; [| exact Hwords].
    vm_compute in Hpos. injection Hpos as <-. reflexivity.
Defined.

Lemma get_word_all_weights_zero_witness :
  VocabularyApp.get_word (Examples.env_at Examples.day1 1000 0 0.5%Q)
    (Examples.reviewing [Examples.apple] Examples.day1) Examples.world0
  = Raise ValueError.
Proof.
  apply get_word_all_weights_zero.
  - left. reflexivity.
  - discriminate.
  - repeat constructor.
Defined.

(** ** A session: a new word is shown, confirmed and saved *)

(** The word kept in memory carries [learn_date]; its row in the cache has
    the six persisted keys. *)
Lemma confirmed_word_on_disk :
  let env := Examples.env_at Examples.day1 5000 0 0%Q in
  let app := Examples.app_with [] 0 50 Examples.day1 in
  exists sel st fs st' fs' w tr ef,
    VocabularyApp.get_word env app Examples.world0 = Ok (sel, st, fs) /\
    VocabularyApp.main_confirm (H := Posix.lib) sel 5 6000 st fs = Ok (st', fs') /\
    VocabularyApp.words st' = [w] /\
    LearnedWord.learn_date w = Some Examples.day1 /\
    LearnedWord.is_new w = None /\
    VocabularyApp.today_count st' = 1%Z /\
    cache_files fs' !! Examples.cache_path
    = Some (Parsed (PDict [(lit "WORDLIST",
                            PList [PList [PStr (lit "apple"); PStr tr; PFloat ef;
                                          PInt 1; PInt 6; PInt 6000]])])).
Proof.
  intros env app. eexists _, _, _, _, _, _, _, _.
  split; [vm_compute; reflexivity |].
  split; [vm_compute; reflexivity |].
  split; [reflexivity |]. split; [reflexivity |]. split; [reflexivity |].
  split; [reflexivity |]. vm_compute. reflexivity.
Qed.

(** * Further properties of the code *)

(** ** [MemoryAlgorithm] *)

Section MoreMemoryAlgorithmFacts.
Import MemoryAlgorithm.
Local Open Scope Q_scope.

(** X1. [initial_interval] on every integer: 1 for 0, 6 for every positive
    [n]; a negative [n] indexes the two-element list from its end (6 for
    -1, 1 for -2) and raises [IndexError] below -2. *)
Theorem initial_interval_cases (n : Z) :
  initial_interval n
  = if (n <? -2)%Z then Raise IndexError
    else if (n =? 0)%Z || (n =? -2)%Z then Ok 1%Z else Ok 6%Z.
Proof.
  unfold initial_interval.
  destruct (Z.ltb_spec n (-2)) as [Hlow | Hlow].
  - rewrite Z.min_l by lia. unfold py_index. cbn [length].
    destruct (Z.ltb_spec n 0) as [_ | Hn]; [| lia].
    destruct (Z.ltb_spec (Z.of_nat 2 + n) 0) as [_ | Hj]; [reflexivity | lia].
  - destruct (Z.le_gt_cases 1 n) as [Hpos | Hsmall].
    + rewrite Z.min_r by lia.
      destruct (Z.eqb_spec n 0) as [H0 | _]; [lia |].
      destruct (Z.eqb_spec n (-2)) as [H2 | _]; [lia | reflexivity].
    + assert (Hn : n = 0%Z \/ n = (-1)%Z \/ n = (-2)%Z) by lia.
      destruct Hn as [-> | [-> | ->]]; reflexivity.
Qed.

Lemma update_ef_unfold (ef : Q) (q : Z) :
  update_ef ef q
  = py_max (ef + (0.1 - inject_Z (5 - q) * (0.08 + inject_Z (5 - q) * 0.02))) 1.3.
Proof. reflexivity. Qed.

Lemma py_max_ge_l (a b : Q) : a <= py_max a b.
Proof. unfold py_max. destruct (Qlt_le_dec a b); lra. Qed.

Lemma py_max_mono (a b c : Q) : a <= b -> py_max a c <= py_max b c.
Proof.
  intros Hab. unfold py_max.
  destruct (Qlt_le_dec a c), (Qlt_le_dec b c); lra.
Qed.

Lemma inject_Z_sub5 (q : Z) : inject_Z (5 - q) == 5 - inject_Z q.
Proof. unfold Z.sub. rewrite inject_Z_plus, inject_Z_opp. ring. Qed.

(** X2. One answer moves the ease factor by at most 0.1 up and 0.8 down
    for a quality in [0, 5]; a better quality never gives a smaller ease
    factor, nor does a larger ease factor before the answer. *)
Theorem update_ef_step (ef ef' : Q) (q q' : Z) :
  (0 <= q <= q')%Z -> (q' <= 5)%Z -> ef <= ef' ->
  update_ef ef q <= update_ef ef q' /\
  update_ef ef q <= update_ef ef' q /\
  ef - 0.8 <= update_ef ef q /\
  update_ef ef q <= py_max (ef + 0.1) 1.3.
Proof.
  intros [Hq0 Hqq] Hq5 Hef. rewrite !update_ef_unfold.
  assert (Hd : 0 <= inject_Z (5 - q) <= 5).
  { rewrite inject_Z_sub5. rewrite Zle_Qle in Hq0. assert (Hq : (q <= 5)%Z) by lia.
    rewrite Zle_Qle in Hq. change (inject_Z 0) with 0 in Hq0.
    change (inject_Z 5) with 5 in Hq. lra. }
  assert (Hd' : 0 <= inject_Z (5 - q') <= inject_Z (5 - q)).
  { rewrite !inject_Z_sub5. rewrite Zle_Qle in Hqq, Hq5.
    change (inject_Z 5) with 5 in Hq5. lra. }
  set (d := inject_Z (5 - q)) in *. set (d' := inject_Z (5 - q')) in *.
  clearbody d d'.
  split; [apply py_max_mono; nra |].
  split; [apply py_max_mono; lra |].
  split.
  - eapply Qle_trans; [| apply py_max_ge_l]. nra.
  - apply py_max_mono. nra.
Qed.

Lemma update_ef_step_witness :
  update_ef 2.5 3 <= update_ef 2.5 4 /\
  update_ef 2.5 3 <= update_ef 2.6 3 /\
  2.5 - 0.8 <= update_ef 2.5 3 /\
  update_ef 2.5 3 <= py_max (2.5 + 0.1) 1.3.
Proof.
  apply (update_ef_step 2.5 2.6 3 4); [lia | lia | vm_compute; discriminate].
Defined.

(** X3. The weight of a word is never negative while the clock has not
    gone back behind its last review, and positive once time has passed;
    for a positive interval it reaches 1 exactly when the interval has
    elapsed (86,400,000 ms a day). *)
Theorem review_weight_sign (w : LearnedWord.t) (now : Z) :
  (LearnedWord.last_review w <= now)%Z ->
  0 <= review_weight w now /\
  ((LearnedWord.last_review w < now)%Z -> 0 < review_weight w now) /\
  (0 < num_val (LearnedWord.interval w) ->
   (1 <= review_weight w now <->
    num_val (LearnedWord.interval w) * 86400000
    <= inject_Z (now - LearnedWord.last_review w))).
Proof.
  intros Hnow. unfold review_weight.
  assert (He : 0 <= inject_Z (now - LearnedWord.last_review w)).
  { change 0 with (inject_Z 0). rewrite <- Zle_Qle. lia. }
  change (inject_Z (86400 * 1000)) with 86400000.
  set (d := inject_Z (now - LearnedWord.last_review w)) in *.
  set (i := num_val (LearnedWord.interval w)) in *.
  assert (Hlt : (LearnedWord.last_review w < now)%Z -> 0 < d).
  { intros H. unfold d. change 0 with (inject_Z 0). rewrite <- Zlt_Qlt. lia. }
  clearbody d i.
  destruct (Qlt_le_dec 0 i) as [Hi | Hi].
  - assert (Hw : d / 86400000 / i * (86400000 * i) == d) by (field; lra).
    set (x := d / 86400000 / i) in *. clearbody x.
    split; [nra |]. split; [intros H; specialize (Hlt H); nra |].
    intros _. split; intros H; nra.
  - split; [lra |]. split; [intros _; lra |]. intros H. lra.
Qed.

End MoreMemoryAlgorithmFacts.

Lemma review_weight_sign_witness :
  (0 <= MemoryAlgorithm.review_weight Examples.apple 2000)%Q /\
  ((LearnedWord.last_review Examples.apple < 2000)%Z ->
   (0 < MemoryAlgorithm.review_weight Examples.apple 2000)%Q).
Proof.
  assert (H : (LearnedWord.last_review Examples.apple <= 2000)%Z)
    by (vm_compute; discriminate).
  destruct (review_weight_sign Examples.apple 2000 H) as (H1 & H2 & _).
  exact (conj H1 H2).
Defined.

(** ** [VocabularyApp.answer] *)

Section MoreAnswerFacts.
Import MemoryAlgorithm VocabularyApp.

Lemma answer_word_frame (w w' : LearnedWord.t) (q now : Z) :
  answer_word w q now = Ok w' ->
  LearnedWord.word w' = LearnedWord.word w /\
  LearnedWord.translation w' = LearnedWord.translation w /\
  LearnedWord.learn_date w' = LearnedWord.learn_date w /\
  LearnedWord.last_review w' = now /\
  LearnedWord.is_new w' = None.
Proof.
  intros Hw'. destruct (Z.lt_ge_cases q 3) as [Hlt | Hge].
  - rewrite (answer_word_failed w q now Hlt) in Hw'. injection Hw' as <-. now cbn.
  - destruct (Z.eq_dec (LearnedWord.n w) 0%Z) as [Hn | Hn].
    + rewrite (answer_word_first_success w q now Hge Hn) in Hw'.
      injection Hw' as <-. now cbn.
    + rewrite (answer_word_later_success w q now Hge Hn) in Hw'.
      injection Hw' as <-. now cbn.
Qed.

(** X4. [answer] touches one dict only: the list keeps its length, every
    other position keeps its word, and the word at [self.idx] keeps its
    text and its [learn_date], gets [last_review = now] and loses
    [is_new]; no other field of the program changes. *)
Theorem answer_frame (app app' : t) (q now : Z) :
  answer q now app = Ok app' ->
  length (words app') = length (words app) /\
  (forall j, j <> idx app -> words app' !! j = words app !! j) /\
  (exists w w',
     words app !! idx app = Some w /\ words app' !! idx app = Some w' /\
     LearnedWord.word w' = LearnedWord.word w /\
     LearnedWord.translation w' = LearnedWord.translation w /\
     LearnedWord.learn_date w' = LearnedWord.learn_date w /\
     LearnedWord.last_review w' = now /\
     LearnedWord.is_new w' = None) /\
  app' = set_words (words app') app.
Proof.
  unfold answer. destruct (words app !! idx app) as [w |] eqn:Hw; [| discriminate].
  destruct (answer_word w q now) as [w' |] eqn:Hw'; [| discriminate].
  rewrite bind_Ok. intros [= <-]. cbn [words set_words].
  split; [apply length_insert |].
  split; [intros j Hj; apply list_lookup_insert_ne; congruence |].
  split.
  - exists w, w'. split; [reflexivity |].
    split; [apply list_lookup_insert_eq; now apply lookup_lt_Some in Hw |].
    exact (answer_word_frame w w' q now Hw').
  - destruct app. reflexivity.
Qed.

Lemma answer_frame_witness :
  exists app',
    answer 4 2000 (Examples.app_with [Examples.apple; Examples.stale] 0 50 Examples.day1)
    = Ok app' /\
    length (words app') = 2%nat /\ words app' !! 1%nat = Some Examples.stale.
Proof.
  destruct (answer 4 2000
              (Examples.app_with [Examples.apple; Examples.stale] 0 50 Examples.day1))
    as [app' |] eqn:Hans; [| vm_compute in Hans; discriminate].
  exists app'. split; [reflexivity |].
  destruct (answer_frame _ _ _ _ Hans) as (Hlen & Hother & _).
  split; [exact Hlen |]. rewrite Hother by (vm_compute; discriminate). reflexivity.
Defined.

(** X5. [answer] raises exactly when [self.idx] is not a position of
    [self.words] (as when no word was learned yet), and then it raises
    [IndexError]. *)
Theorem answer_raises_iff (app : t) (q now : Z) :
  (forall e, answer q now app = Raise e -> e = IndexError) /\
  (answer q now app = Raise IndexError <-> (length (words app) <= idx app)%nat).
Proof.
  unfold answer. destruct (words app !! idx app) as [w |] eqn:Hw.
  - destruct (answer_word_total w q now) as [w' Hw']. rewrite Hw', bind_Ok.
    apply lookup_lt_Some in Hw.
    split; [discriminate |]. split; [discriminate | lia].
  - apply lookup_ge_None in Hw. split; [now intros e [= <-] |].
    split; [intros _; exact Hw | reflexivity].
Qed.

Lemma answer_word_well_formed (w w' : LearnedWord.t) (q now : Z) :
  Inv.well_formed w -> answer_word w q now = Ok w' -> Inv.well_formed w'.
Proof.
  intros [Hs Hef] Hw'. split; [exact (answer_word_scheduled w w' q now Hs Hw') |].
  destruct (Z.lt_ge_cases q 3) as [Hlt | Hge].
  - rewrite (answer_word_failed w q now Hlt) in Hw'. injection Hw' as <-. exact Hef.
  - destruct (Z.eq_dec (LearnedWord.n w) 0%Z) as [Hn | Hn].
    + rewrite (answer_word_first_success w q now Hge Hn) in Hw'.
      injection Hw' as <-. apply update_ef_floor.
    + rewrite (answer_word_later_success w q now Hge Hn) in Hw'.
      injection Hw' as <-. apply update_ef_floor.
Qed.

(** X6. [answer] keeps the invariants of the learning states: if every
    word has [n >= 0], an interval of at least 1 that is 1 whenever
    [n = 0] (the int [1] or the float [1.0]), and [ef >= 1.3], the same
    holds after any answer, whatever [q] is, and still holds for the words
    as [load_wordlist] reads them back after a save. *)
Theorem answer_keeps_well_formed (app app' : t) (q now : Z) :
  Forall Inv.well_formed (words app) -> answer q now app = Ok app' ->
  Forall Inv.well_formed (words app') /\
  Forall Inv.well_formed (map reloaded (words app')).
Proof.
  intros Hall. unfold answer.
  destruct (words app !! idx app) as [w |] eqn:Hw; [| discriminate].
  destruct (answer_word w q now) as [w' |] eqn:Hw'; [| discriminate].
  rewrite bind_Ok. intros [= <-]. cbn [words set_words].
  assert (Hkept : Forall Inv.well_formed (<[idx app := w']> (words app))).
  { apply Forall_insert; [exact Hall |].
    apply (answer_word_well_formed w w' q now); [| exact Hw'].
    rewrite Forall_lookup in Hall. exact (Hall _ _ Hw). }
  split; [exact Hkept |].
  apply Forall_fmap. apply (Forall_impl _ _ _ Hkept).
  intros x [Hs Hef]. split; [now apply reloaded_scheduled | exact Hef].
Qed.

(** The witness answers a new word that was saved and loaded again: its
    interval is the float [1.0]. *)
Lemma answer_keeps_well_formed_witness :
  exists app',
    answer 1 2000
      (Examples.app_with
         [reloaded (new_word_of (Entry.mk (lit "pear") (lit "a green fruit") false)
                      1000 Examples.day1)] 0 50 Examples.day1) = Ok app' /\
    Forall Inv.well_formed (words app') /\
    Forall Inv.well_formed (map reloaded (words app')).
Proof.
  destruct (answer 1 2000
              (Examples.app_with
                 [reloaded (new_word_of (Entry.mk (lit "pear") (lit "a green fruit") false)
                              1000 Examples.day1)] 0 50 Examples.day1))
    as [app' |] eqn:Hans; [| vm_compute in Hans; discriminate].
  exists app'. split; [reflexivity |].
  apply (answer_keeps_well_formed
           (Examples.app_with
              [reloaded (new_word_of (Entry.mk (lit "pear") (lit "a green fruit") false)
                           1000 Examples.day1)] 0 50 Examples.day1) app' 1 2000);
    [| exact Hans].
  repeat constructor; cbn; try lia; try reflexivity; vm_compute; discriminate.
Defined.

End MoreAnswerFacts.

(** ** [VocabularyApp.get_word] *)

Section MoreGetWordFacts.
Import VocabularyApp.

Lemma set_all_words_same (a : t) : set_all_words (_all_words a) a = a.
Proof. destruct a. reflexivity. Qed.

(** What the first [if] of [get_word] leaves behind. *)
Lemma day_check_facts (env : Env) (app a : t) (fs f : World) :
  (if negb (pystr_eqb (date_today env) (today app))
   then new_day (date_today env) app fs else (app, fs)) = (a, f) ->
  words a = words app /\ _all_words a = _all_words app /\
  review_only a = review_only app /\ limit a = limit app /\
  curr a = curr app /\ idx a = idx app /\
  today a = date_today env /\
  today_count a = (if pystr_eqb (date_today env) (today app)
                   then today_count app else 0%Z) /\
  wordlist_files f = wordlist_files fs /\ cache_files f = cache_files fs.
Proof.
  destruct (pystr_eqb (date_today env) (today app)) eqn:Hday; cbn [negb].
  - apply pystr_eqb_eq in Hday. intros [= <- <-]. now repeat split.
  - intros [= <- <-]. now repeat split.
Qed.

Lemma get_new_word_inv (env : Env) (a a' : t) (f : World) (new : option selection) :
  get_new_word env a f = Ok (new, a') ->
  (exists o, a' = set_all_words o a) /\
  match new with
  | None => True
  | Some sel =>
      review_only a = false /\ (today_count a <? limit a)%Z = true /\
      exists aw e,
        _all_words a' = Some aw /\ In e aw /\ Entry.is_learned e = false /\
        sel = NewWord (Entry.word e) (Entry.translation e) true
                (new_word_of e (time_ms env) (date_today env))
  end.
Proof.
  unfold get_new_word. intros Hget.
  destruct (review_only a) eqn:Hro; cbn [negb andb] in Hget.
  { injection Hget as <- <-. split; [| exact I].
    exists (_all_words a). symmetry. apply set_all_words_same. }
  destruct (today_count a <? limit a)%Z eqn:Hquota.
  2:{ injection Hget as <- <-. split; [| exact I].
      exists (_all_words a). symmetry. apply set_all_words_same. }
  destruct (all_words a f) as [[o a1] | e] eqn:Haw; [| discriminate].
  pose proof (all_words_frame a a1 f o Haw) as Ha1.
  rewrite bind_Ok in Hget. cbn match in Hget.
  destruct o as [aw |]; [| discriminate].
  destruct (List.filter (fun w => negb (Entry.is_learned w)) aw) as [| e0 l] eqn:Hf.
  - injection Hget as <- <-. split; [eauto | exact I].
  - destruct (Random.choice (e0 :: l) (randbelow_draw env)) as [e |] eqn:Hdraw;
      [| discriminate].
    rewrite bind_Ok in Hget. injection Hget as <- <-.
    split; [eauto |]. split; [reflexivity |]. split; [reflexivity |].
    exists aw, e. split; [subst a1; reflexivity |].
    assert (Hin : In e (List.filter (fun w => negb (Entry.is_learned w)) aw)).
    { rewrite Hf. unfold Random.choice in Hdraw.
      destruct ((e0 :: l) !! (randbelow_draw env mod length (e0 :: l))%nat)
        as [x |] eqn:Hx; [| discriminate].
      injection Hdraw as <-. apply list_elem_of_In. eapply list_elem_of_lookup_2.
      exact Hx. }
    apply filter_In in Hin as [Hin Hflag].
    split; [exact Hin |]. split; [| reflexivity].
    now destruct (Entry.is_learned e).
Qed.

Lemma get_review_word_inv (env : Env) (a a' : t) (f : World) (sel : selection) :
  get_review_word env a f = Ok (sel, a') ->
  (words a = [] /\
   exists o, a' = set_all_words o a /\
     match o with
     | Some (_ :: _) => sel = ErrorDict (lit "no_learned_words")
     | _ => sel = ErrorDict (lit "no_words")
     end) \/
  (exists i w, words a !! i = Some w /\ sel = Review w /\ a' = set_idx i a).
Proof.
  intros Hget. destruct (words a) as [| w0 ws] eqn:Hws.
  - left. split; [reflexivity |].
    unfold get_review_word in Hget. rewrite Hws in Hget.
    destruct (all_words a f) as [[o a1] | e] eqn:Haw; [| discriminate].
    pose proof (all_words_frame a a1 f o Haw) as Ha1.
    rewrite bind_Ok in Hget. cbn match in Hget. exists o.
    destruct o as [[| e' l] |]; inversion Hget; subst; split; reflexivity.
  - right. rewrite get_review_word_nonempty in Hget by (rewrite Hws; discriminate).
    destruct (Random.choices _ _ _) as [drawn | e]; [| discriminate].
    rewrite bind_Ok in Hget.
    destruct (py_index drawn 0) as [i | e]; [| discriminate].
    rewrite bind_Ok in Hget.
    destruct (words a !! i) as [w |] eqn:Hw; [| discriminate].
    inversion Hget; subst. exists i, w. rewrite <- Hws. now repeat split.
Qed.

Lemma get_word_inv (env : Env) (app app' : t) (fs fs' : World) (sel : selection) :
  get_word env app fs = Ok (sel, app', fs') ->
  exists a f new a1,
    (if negb (pystr_eqb (date_today env) (today app))
     then new_day (date_today env) app fs else (app, fs)) = (a, f) /\
    fs' = f /\
    get_new_word env a f = Ok (new, a1) /\
    match new with
    | Some sel' => sel' = sel /\ app' = a1
    | None => get_review_word env a1 f = Ok (sel, app')
    end.
Proof.
  unfold get_word. intros Hget.
  destruct (if negb (pystr_eqb (date_today env) (today app))
            then new_day (date_today env) app fs else (app, fs)) as [a f] eqn:Hroll.
  exists a, f.
  destruct (get_new_word env a f) as [[new a1] | e] eqn:Hnew; [| discriminate].
  exists new, a1. rewrite bind_Ok in Hget. cbn match in Hget.
  destruct new as [sel' |].
  - inversion Hget; subst. now repeat split.
  - destruct (get_review_word env a1 f) as [[sel' a2] | e] eqn:Hrev; [| discriminate].
    rewrite bind_Ok in Hget. inversion Hget; subst. now repeat split.
Qed.

(** X7. A query never changes what was learned nor the settings of the
    session: [self.words], [limit], [review_only] and the current list
    stay as they were, the stored date becomes today's, the counter is
    kept on the same day and is 0 after a day change, and on disk only
    the settings file can have been written. *)
Theorem get_word_frame (env : Env) (app app' : t) (fs fs' : World) (sel : selection) :
  get_word env app fs = Ok (sel, app', fs') ->
  words app' = words app /\ limit app' = limit app /\
  review_only app' = review_only app /\ curr app' = curr app /\
  today app' = date_today env /\
  today_count app' = (if pystr_eqb (date_today env) (today app)
                      then today_count app else 0%Z) /\
  wordlist_files fs' = wordlist_files fs /\ cache_files fs' = cache_files fs.
Proof.
  intros Hget.
  destruct (get_word_inv env app app' fs fs' sel Hget)
    as (a & f & new & a1 & Hroll & -> & Hnew & Hrest).
  destruct (day_check_facts env app a fs f Hroll)
    as (Hw & _ & Hro & Hlim & Hcurr & _ & Hday & Hcount & Hwf & Hcf).
  destruct (get_new_word_inv env a a1 f new Hnew) as [[o ->] _].
  assert (Hfields : forall b : t,
            (b = set_all_words o a \/
             (exists o', b = set_all_words o' (set_all_words o a)) \/
             (exists i, b = set_idx i (set_all_words o a))) ->
            words b = words app /\ limit b = limit app /\
            review_only b = review_only app /\ curr b = curr app /\
            today b = date_today env /\
            today_count b = (if pystr_eqb (date_today env) (today app)
                             then today_count app else 0%Z)).
  { intros b [-> | [[o' ->] | [i ->]]]; cbn; now repeat split. }
  destruct new as [sel' |].
  - destruct Hrest as [_ ->].
    destruct (Hfields _ (or_introl eq_refl)) as (? & ? & ? & ? & ? & ?).
    now repeat split.
  - destruct (get_review_word_inv env _ app' f sel Hrest)
      as [[_ (o' & -> & _)] | (i & w & _ & _ & ->)].
    + destruct (Hfields _ (or_intror (or_introl (ex_intro _ o' eq_refl))))
        as (? & ? & ? & ? & ? & ?). now repeat split.
    + destruct (Hfields _ (or_intror (or_intror (ex_intro _ i eq_refl))))
        as (? & ? & ? & ? & ? & ?). now repeat split.
Qed.

(** X8. A new word is offered only outside review-only mode and while the
    daily quota allows it, and it is an entry of the word list whose
    [is_learned] flag is off; it comes with the state of a word never
    reviewed. *)
Theorem get_word_new_only_if_allowed (env : Env) (app app' : t) (fs fs' : World)
    (w tr : pystr) (b : bool) (nw : LearnedWord.t) :
  get_word env app fs = Ok (NewWord w tr b nw, app', fs') ->
  review_only app = false /\
  Spec.allowNewItem (date_today env) app = true /\
  exists aw e,
    _all_words app' = Some aw /\ In e aw /\ Entry.is_learned e = false /\
    w = Entry.word e /\ tr = Entry.translation e /\ b = true /\
    nw = new_word_of e (time_ms env) (date_today env).
Proof.
  intros Hget.
  destruct (get_word_inv env app app' fs fs' _ Hget)
    as (a & f & new & a1 & Hroll & -> & Hnew & Hrest).
  destruct (day_check_facts env app a fs f Hroll)
    as (_ & _ & Hro & Hlim & _ & _ & _ & Hcount & _ & _).
  pose proof (get_new_word_inv env a a1 f new Hnew) as [_ Hsel].
  destruct new as [sel' |].
  - destruct Hrest as [-> ->].
    destruct Hsel as (Hro' & Hquota & aw & e & Haw & Hin & Hflag & Heq).
    injection Heq as -> -> -> ->.
    split; [congruence |]. split.
    + unfold Spec.allowNewItem. rewrite <- Hcount, <- Hlim. exact Hquota.
    + exists aw, e. now repeat split.
  - destruct (get_review_word_inv env a1 app' f _ Hrest)
      as [[_ (o' & _ & Ho)] | (i & w' & _ & Hrv & _)]; [| discriminate].
    destruct o' as [[| ? ?] |]; discriminate.
Qed.

(** X9. A review word that [get_word] returns is the element of
    [self.words] at the position it leaves in [self.idx]: the call of
    [answer] that follows finds it and cannot raise. *)
Theorem get_word_review_then_answer (env : Env) (app app' : t) (fs fs' : World)
    (w : LearnedWord.t) (q now : Z) :
  get_word env app fs = Ok (Review w, app', fs') ->
  words app' !! idx app' = Some w /\
  exists w' app'',
    answer q now app' = Ok app'' /\ words app'' !! idx app'' = Some w' /\
    LearnedWord.word w' = LearnedWord.word w.
Proof.
  intros Hget.
  destruct (get_word_inv env app app' fs fs' _ Hget)
    as (a & f & new & a1 & Hroll & -> & Hnew & Hrest).
  pose proof (get_new_word_inv env a a1 f new Hnew) as [_ Hsel].
  assert (Hw : words app' !! idx app' = Some w).
  { destruct new as [sel' |].
    - destruct Hrest as [-> ->].
      destruct Hsel as (_ & _ & aw & e & _ & _ & _ & Heq). discriminate.
    - destruct (get_review_word_inv env a1 app' f _ Hrest)
        as [[_ (o' & _ & Ho)] | (i & w' & Hw' & Hrv & ->)].
      + destruct o' as [[| ? ?] |]; discriminate.
      + injection Hrv as ->. exact Hw'. }
  split; [exact Hw |].
  destruct (answer_word_total w q now) as [w' Hw'].
  exists w', (set_words (<[idx app' := w']> (words app')) app').
  split; [exact (answer_at app' w w' q now Hw Hw') |].
  split; [now apply (lookup_answered app' w) |].
  exact (answer_word_keeps_word w w' q now Hw').
Qed.

(** X10. [get_word] returns an error dict only when no word was learned
    yet, and the error is [no_learned_words] when the word list has an
    entry and [no_words] when it has none or no list is selected. *)
Theorem get_word_error_cases (env : Env) (app app' : t) (fs fs' : World)
    (err : pystr) :
  get_word env app fs = Ok (ErrorDict err, app', fs') ->
  words app = [] /\
  match _all_words app' with
  | Some (_ :: _) => err = lit "no_learned_words"
  | _ => err = lit "no_words"
  end.
Proof.
  intros Hget.
  destruct (get_word_inv env app app' fs fs' _ Hget)
    as (a & f & new & a1 & Hroll & -> & Hnew & Hrest).
  destruct (day_check_facts env app a fs f Hroll) as (Hw & _).
  destruct (get_new_word_inv env a a1 f new Hnew) as [[o ->] Hsel].
  destruct new as [sel' |].
  - destruct Hrest as [-> ->].
    destruct Hsel as (_ & _ & aw & e & _ & _ & _ & Heq). discriminate.
  - destruct (get_review_word_inv env _ app' f _ Hrest)
      as [[Hnil (o' & -> & Ho)] | (i & w' & _ & Hrv & _)]; [| discriminate].
    split; [cbn in Hnil; congruence |]. cbn [_all_words set_all_words].
    destruct o' as [[| ? ?] |]; congruence.
Qed.


Lemma get_word_frame_witness :
  exists sel app' fs',
    get_word (Examples.env_at Examples.day2 5000 0 0%Q)
      (Examples.app_with [Examples.apple] 7 50 Examples.day1) Examples.world0
    = Ok (sel, app', fs') /\
    words app' = [Examples.apple] /\ today_count app' = 0%Z.
Proof.
  destruct (get_word (Examples.env_at Examples.day2 5000 0 0%Q)
              (Examples.app_with [Examples.apple] 7 50 Examples.day1) Examples.world0)
    as [[[sel app'] fs'] |] eqn:Hget; [| vm_compute in Hget; discriminate].
  exists sel, app', fs'. split; [reflexivity |].
  destruct (get_word_frame _ _ _ _ _ _ Hget) as (Hw & _ & _ & _ & _ & Hc & _).
  split; [exact Hw | exact Hc].
Defined.

Lemma get_word_new_only_if_allowed_witness :
  exists w tr b nw app' fs',
    get_word (Examples.env_at Examples.day1 5000 0 0%Q)
      (Examples.app_with [] 0 50 Examples.day1) Examples.world0
    = Ok (NewWord w tr b nw, app', fs') /\
    Spec.allowNewItem Examples.day1 (Examples.app_with [] 0 50 Examples.day1) = true.
Proof.
  destruct (get_word (Examples.env_at Examples.day1 5000 0 0%Q)
              (Examples.app_with [] 0 50 Examples.day1) Examples.world0)
    as [[[[w tr b nw | w | err] app'] fs'] |] eqn:Hget;
    try (vm_compute in Hget; discriminate).
  exists w, tr, b, nw, app', fs'. split; [reflexivity |].
  exact (proj1 (proj2 (get_word_new_only_if_allowed _ _ _ _ _ _ _ _ _ Hget))).
Defined.

Lemma get_word_review_then_answer_witness :
  exists w app' fs' w' app'',
    get_word (Examples.env_at Examples.day1 5000 0 0.5%Q)
      (Examples.reviewing [Examples.apple] Examples.day1) Examples.world0
    = Ok (Review w, app', fs') /\
    answer 5 6000 app' = Ok app'' /\ words app'' !! idx app'' = Some w'.
Proof.
  destruct (get_word (Examples.env_at Examples.day1 5000 0 0.5%Q)
              (Examples.reviewing [Examples.apple] Examples.day1) Examples.world0)
    as [[[[w tr b nw | w | err] app'] fs'] |] eqn:Hget;
    try (vm_compute in Hget; discriminate).
  destruct (get_word_review_then_answer _ _ _ _ _ _ 5 6000 Hget)
    as (_ & w' & app'' & Hans & Hw' & _).
  exists w, app', fs', w', app''. now repeat split.
Defined.

Lemma get_word_error_cases_witness :
  exists err app' fs',
    get_word (Examples.env_at Examples.day1 5000 0 0%Q)
      (Examples.app_with [] 50 50 Examples.day1) Examples.world0
    = Ok (ErrorDict err, app', fs') /\
    words (Examples.app_with [] 50 50 Examples.day1) = [].
Proof.
  destruct (get_word (Examples.env_at Examples.day1 5000 0 0%Q)
              (Examples.app_with [] 50 50 Examples.day1) Examples.world0)
    as [[[[w tr b nw | w | err] app'] fs'] |] eqn:Hget;
    try (vm_compute in Hget; discriminate).
  exists err, app', fs'. split; [reflexivity |].
  exact (proj1 (get_word_error_cases _ _ _ _ _ _ Hget)).
Defined.

(** *** The review block, seen from [get_word] *)

Lemma get_word_review_branch (env : Env) (app a : t) (fs f : World) :
  review_only app = true \/ Spec.allowNewItem (date_today env) app = false ->
  (if negb (pystr_eqb (date_today env) (today app))
   then new_day (date_today env) app fs else (app, fs)) = (a, f) ->
  get_word env app fs
  = ('(sel, self) ← get_review_word env a f; Ok (sel, self, f)).
Proof.
  intros Hbranch Hroll.
  destruct (day_check_facts env app a fs f Hroll)
    as (_ & _ & Hro & Hlim & _ & _ & _ & Hcount & _ & _).
  unfold get_word. rewrite Hroll. rewrite get_new_word_skipped; [reflexivity |].
  rewrite Hro, Hcount, Hlim. destruct Hbranch as [-> | Hq]; [reflexivity |].
  unfold Spec.allowNewItem in Hq. rewrite Hq. apply andb_false_r.
Qed.

Lemma review_weight_nonneg (w : LearnedWord.t) (now : Z) :
  (LearnedWord.last_review w <= now)%Z ->
  (0 <= MemoryAlgorithm.review_weight w now)%Q.
Proof.
  intros Hnow. unfold MemoryAlgorithm.review_weight.
  assert (He : (0 <= inject_Z (now - LearnedWord.last_review w))%Q).
  { change 0%Q with (inject_Z 0). rewrite <- Zle_Qle. lia. }
  destruct (Qlt_le_dec 0 (num_val (LearnedWord.interval w))) as [Hi | Hi]; [| lra].
  apply Qle_shift_div_l; [exact Hi |]. rewrite Qmult_0_l.
  apply Qle_shift_div_l; [reflexivity |]. now rewrite Qmult_0_l.
Qed.

Lemma review_weight_pos (w : LearnedWord.t) (now : Z) :
  (LearnedWord.last_review w < now)%Z \/
  (num_val (LearnedWord.interval w) <= 0)%Q ->
  (0 < MemoryAlgorithm.review_weight w now)%Q.
Proof.
  intros Hcase. unfold MemoryAlgorithm.review_weight.
  destruct (Qlt_le_dec 0 (num_val (LearnedWord.interval w))) as [Hi | Hi]; [| lra].
  destruct Hcase as [Hnow | Hle]; [| lra].
  assert (He : (0 < inject_Z (now - LearnedWord.last_review w))%Q).
  { change 0%Q with (inject_Z 0). rewrite <- Zlt_Qlt. lia. }
  apply Qlt_shift_div_l; [exact Hi |]. rewrite Qmult_0_l.
  apply Qlt_shift_div_l; [reflexivity |]. now rewrite Qmult_0_l.
Qed.

Lemma sum_pos (l : list Q) :
  Forall (Qle 0) l -> Exists (Qlt 0) l -> (0 < foldr Qplus 0 l)%Q.
Proof.
  intros Hnn Hex. induction Hex as [x l Hx | x l Hex IH].
  - apply Forall_cons in Hnn as [_ Hl]. pose proof (sum_nonneg l Hl). cbn. lra.
  - apply Forall_cons in Hnn as [Hx Hl]. specialize (IH Hl). cbn. lra.
Qed.

(** X11. In review-only mode, or once the quota is used up, with at least
    one learned word whose last review lies in the past and none whose
    last review lies in the future, [get_word] does not raise: it returns
    one of the learned words and leaves its position in [self.idx]; the
    position is the one where [random() * total] falls among the running
    sums of the weights. *)
Theorem get_word_review_progress (env : Env) (app : t) (fs : World) :
  review_only app = true \/ Spec.allowNewItem (date_today env) app = false ->
  Forall (fun w => (LearnedWord.last_review w <= time_ms env)%Z) (words app) ->
  Exists (fun w => (LearnedWord.last_review w < time_ms env)%Z) (words app) ->
  (0 <= random_draw env < 1)%Q ->
  exists i w a f,
    get_word env app fs = Ok (Review w, a, f) /\
    words app !! i = Some w /\ idx a = i /\ words a = words app /\
    (foldr Qplus 0 (take i (weights_of app (time_ms env)))
     <= random_draw env * foldr Qplus 0 (weights_of app (time_ms env)))%Q /\
    (random_draw env * foldr Qplus 0 (weights_of app (time_ms env))
     < foldr Qplus 0 (take (S i) (weights_of app (time_ms env))))%Q.
Proof.
  intros Hbranch Hpast Hsome Hu.
  destruct (if negb (pystr_eqb (date_today env) (today app))
            then new_day (date_today env) app fs else (app, fs)) as [a f] eqn:Hroll.
  destruct (day_check_facts env app a fs f Hroll) as (Hw & _).
  assert (Hweights : weights_of a (time_ms env) = weights_of app (time_ms env)).
  { unfold weights_of. now rewrite Hw. }
  destruct (get_review_word_weighted env a f) as (i & w & Hget & Hi & Hlow & Hhigh).
  - rewrite Hweights. unfold weights_of. apply Forall_map.
    eapply Forall_impl; [exact Hpast |]. intros w Hle. now apply review_weight_nonneg.
  - rewrite Hweights. apply sum_pos.
    + unfold weights_of. apply Forall_map.
      eapply Forall_impl; [exact Hpast |]. intros w Hle. now apply review_weight_nonneg.
    + unfold weights_of. apply Exists_exists in Hsome as (w & Hin & Hlt).
      apply Exists_exists. exists (MemoryAlgorithm.review_weight w (time_ms env)).
      split; [| apply review_weight_pos; now left].
      apply list_elem_of_In.
      apply (in_map (fun w => MemoryAlgorithm.review_weight w (time_ms env))).
      now apply list_elem_of_In.
  - exact Hu.
  - exists i, w, (set_idx i a), f.
    rewrite (get_word_review_branch env app a fs f Hbranch Hroll), Hget.
    rewrite Hweights in Hlow, Hhigh. rewrite Hw in Hi.
    split; [reflexivity |]. now repeat split.
Qed.

Lemma get_word_review_progress_witness :
  exists i w a f,
    get_word (Examples.env_at Examples.day1 5000 0 0.5%Q)
      (Examples.reviewing [Examples.apple] Examples.day1) Examples.world0
    = Ok (Review w, a, f) /\
    words (Examples.reviewing [Examples.apple] Examples.day1) !! i = Some w /\
    idx a = i.
Proof.
  destruct (get_word_review_progress (Examples.env_at Examples.day1 5000 0 0.5%Q)
              (Examples.reviewing [Examples.apple] Examples.day1) Examples.world0)
    as (i & w & a & f & Hget & Hw & Hi & _).
  - left. reflexivity.
  - repeat constructor. vm_compute. discriminate.
  - constructor. reflexivity.
  - split; vm_compute; [discriminate | reflexivity].
  - exists i, w, a, f. now repeat split.
Defined.

(** X12. When no learned word has a positive interval, every weight is
    1.0 and the review draw is uniform: position [i] is drawn exactly
    when [i <= random() * len(self.words) < i + 1]. *)
Theorem get_word_review_uniform (env : Env) (app : t) (fs : World) :
  review_only app = true \/ Spec.allowNewItem (date_today env) app = false ->
  words app <> [] ->
  Forall (fun w => num_val (LearnedWord.interval w) <= 0)%Q (words app) ->
  (0 <= random_draw env < 1)%Q ->
  exists i w a f,
    get_word env app fs = Ok (Review w, a, f) /\
    words app !! i = Some w /\ idx a = i /\
    (inject_Z (Z.of_nat i)
     <= random_draw env * inject_Z (Z.of_nat (length (words app))))%Q /\
    (random_draw env * inject_Z (Z.of_nat (length (words app)))
     < inject_Z (Z.of_nat (S i)))%Q.
Proof.
  intros Hbranch Hne Hint Hu.
  destruct (if negb (pystr_eqb (date_today env) (today app))
            then new_day (date_today env) app fs else (app, fs)) as [a f] eqn:Hroll.
  destruct (day_check_facts env app a fs f Hroll) as (Hw & _).
  destruct (get_review_word_uniform env a f) as (i & w & Hget & Hi & Hlow & Hhigh);
    [now rewrite Hw | now rewrite Hw | exact Hu |].
  exists i, w, (set_idx i a), f.
  rewrite (get_word_review_branch env app a fs f Hbranch Hroll), Hget.
  rewrite Hw in Hi, Hlow, Hhigh. split; [reflexivity |]. now repeat split.
Qed.

Lemma get_word_review_uniform_witness :
  exists i w a f,
    get_word (Examples.env_at Examples.day1 1000 0 0.5%Q)
      (Examples.reviewing [Examples.negative; Examples.negative] Examples.day1)
      Examples.world0
    = Ok (Review w, a, f) /\ i = 1%nat.
Proof.
  destruct (get_word_review_uniform (Examples.env_at Examples.day1 1000 0 0.5%Q)
              (Examples.reviewing [Examples.negative; Examples.negative] Examples.day1)
              Examples.world0)
    as (i & w & a & f & Hget & Hw & Hi & Hlow & Hhigh).
  - left. reflexivity.
  - discriminate.
  - repeat constructor; vm_compute; discriminate.
  - split; vm_compute; [discriminate | reflexivity].
  - exists i, w, a, f. split; [exact Hget |].
    cbn [length words Examples.reviewing] in Hlow, Hhigh.
    assert (Hi1 : (inject_Z (Z.of_nat i) <= 1)%Q).
    { eapply Qle_trans; [exact Hlow |]. vm_compute. discriminate. }
    assert (Hi2 : (1 < inject_Z (Z.of_nat (S i)))%Q).
    { eapply Qle_lt_trans; [| exact Hhigh]. vm_compute. discriminate. }
    change 1%Q with (inject_Z 1) in Hi1, Hi2.
    rewrite <- Zle_Qle in Hi1. rewrite <- Zlt_Qlt in Hi2. lia.
Defined.

End MoreGetWordFacts.

(** ** The word list as [_load_all] reads it *)

Section MoreWordListFacts.
Import WordListManager VocabularyApp.

Lemma lstrip_head (s r : pystr) (c : N) : lstrip s = c :: r -> is_space c = false.
Proof.
  induction s as [| d s IH]; [discriminate |]. cbn.
  destruct (is_space d) eqn:Hd; [exact IH |]. now intros [= <- _].
Qed.

Lemma lstrip_app_last (l : pystr) (c : N) :
  is_space c = false -> exists l', lstrip (l ++ [c]) = l' ++ [c].
Proof.
  intros Hc. induction l as [| d l IH].
  - exists []. cbn. now rewrite Hc.
  - cbn. destruct (is_space d); [exact IH |]. now exists (d :: l).
Qed.

(** A stripped line starts and ends with a character that is not white
    space. *)
Lemma strip_ends (s r : pystr) (c : N) :
  strip s = c :: r ->
  is_space c = false /\ exists d, last (c :: r) = Some d /\ is_space d = false.
Proof.
  unfold strip, rstrip. intros Hs.
  destruct (lstrip s) as [| c0 t] eqn:Ht; [discriminate |].
  pose proof (lstrip_head s t c0 Ht) as Hc0.
  split.
  - cbn [rev] in Hs. destruct (lstrip_app_last (rev t) c0 Hc0) as [l' Hl'].
    rewrite Hl', rev_app_distr in Hs. cbn in Hs. now injection Hs as <- _.
  - destruct (lstrip (rev (c0 :: t))) as [| d u] eqn:Hu; [discriminate |].
    exists d. split; [| exact (lstrip_head _ _ _ Hu)].
    rewrite <- Hs. cbn [rev]. now rewrite last_snoc.
Qed.

Lemma split_on_last (sep : N) (s : pystr) :
  exists fields lastf,
    split_on sep s = fields ++ [lastf] /\
    (lastf = [] -> s = [] \/ last s = Some sep).
Proof.
  induction s as [| c s (fields & lastf & Hsplit & Hlast)].
  - exists [], []. split; [reflexivity | now left].
  - cbn [split_on]. destruct (N.eqb_spec c sep) as [-> | Hne].
    + exists ([] :: fields), lastf. rewrite Hsplit. split; [reflexivity |].
      intros Hl. right. destruct (Hlast Hl) as [-> | Hs]; [reflexivity |].
      destruct s; [discriminate | exact Hs].
    + rewrite Hsplit. destruct fields as [| w fields].
      * exists [], (c :: lastf). split; [reflexivity | discriminate].
      * exists ((c :: w) :: fields), lastf. split; [reflexivity |].
        intros Hl. right. destruct (Hlast Hl) as [-> | Hs].
        -- cbn in Hsplit. injection Hsplit as _ Hnil. destruct fields; discriminate.
        -- destruct s; [discriminate | exact Hs].
Qed.

Lemma split_on_first (sep c : N) (s : pystr) :
  c <> sep -> exists w ws, split_on sep (c :: s) = (c :: w) :: ws.
Proof.
  intros Hne. cbn [split_on]. destruct (N.eqb_spec c sep) as [Heq | _]; [contradiction |].
  destruct (split_on sep s) as [| w ws]; eauto.
Qed.

Lemma span_word_first (c : N) (s : pystr) :
  is_space c = false -> exists w r, span_word (c :: s) = (c :: w, r).
Proof. intros Hc. cbn. rewrite Hc. destruct (span_word s) as [w r]. eauto. Qed.

Lemma entry_of_line_fields (ln r : pystr) (c : N) (e : Entry.t) :
  strip ln = c :: r -> In e (entry_of_line (strip ln)) ->
  Entry.word e <> [] /\ Entry.translation e <> [].
Proof.
  intros Hs Hin. destruct (strip_ends ln r c Hs) as (Hc & d & Hd & Hdsp).
  rewrite Hs in Hin. unfold entry_of_line in Hin.
  destruct (contains tab (c :: r)).
  - destruct (split_on_first tab c r) as (w & ws & Hfirst).
    { intros ->. discriminate. }
    destruct (split_on_last tab (c :: r)) as (fields & lastf & Hsplit & Hlast).
    rewrite Hfirst in Hin, Hsplit.
    destruct ws as [| tr [| x ws]]; try contradiction.
    destruct Hin as [<- | []]. cbn. split; [discriminate |].
    destruct fields as [| f1 [| f2 fields]]; cbn in Hsplit; try discriminate.
    + injection Hsplit as _ Htr. intros ->.
      destruct (Hlast (eq_sym Htr)) as [Hnil | Hl]; [discriminate |].
      rewrite Hd in Hl. injection Hl as ->. discriminate.
    + injection Hsplit as _ _ Hrest. destruct fields; discriminate.
  - unfold split_ws1 in Hin. cbn [lstrip] in Hin. rewrite Hc in Hin.
    destruct (span_word_first c r Hc) as (w & rest & Hspan). rewrite Hspan in Hin.
    destruct (lstrip rest) as [| x tr]; [contradiction |].
    destruct Hin as [<- | []]. cbn. split; discriminate.
Qed.

Lemma nonblank_lines_stripped (f : list pystr) (ln : pystr) :
  In ln (nonblank_lines f) -> exists raw c r, ln = strip raw /\ strip raw = c :: r.
Proof.
  unfold nonblank_lines. intros Hin. apply in_map_iff in Hin as (raw & <- & Hraw).
  apply filter_In in Hraw as [_ Htruthy].
  destruct (strip raw) as [| c r] eqn:Hs; [discriminate |]. eauto.
Qed.

(** X13. Every entry that [_load_all] builds has a word and a translation
    that are not empty: a line gives an entry only if it has text on both
    sides of its single tab or, without a tab, text after its first run of
    white space. *)
Theorem _load_all_fields_nonempty (self self' : VocabularyApp.t) (fs : World)
    (c : WordListRef.t) (aw : list Entry.t) :
  curr self = Some c -> _load_all self fs = Ok self' ->
  _all_words self' = Some aw ->
  Forall (fun e => Entry.word e <> [] /\ Entry.translation e <> []) aw.
Proof.
  intros Hc Hload Haw. unfold _load_all in Hload. rewrite Hc in Hload.
  destruct (wordlist_files fs !! WordListRef.path c) as [f |]; [| discriminate].
  destruct (forallb hashable (map LearnedWord.word (words self))); [| discriminate].
  injection Hload as <-. cbn in Haw. injection Haw as <-.
  apply Forall_map. apply Forall_forall. intros e He. cbn.
  apply list_elem_of_In, in_flat_map in He as (ln & Hln & He).
  destruct (nonblank_lines_stripped f ln Hln) as (raw & ch & r & -> & Hs).
  exact (entry_of_line_fields raw r ch e Hs He).
Qed.

Lemma _load_all_fields_nonempty_witness :
  exists self' aw,
    _load_all (Examples.app_with [] 0 50 Examples.day1) Examples.world0 = Ok self' /\
    _all_words self' = Some aw /\
    Forall (fun e => Entry.word e <> [] /\ Entry.translation e <> []) aw.
Proof.
  destruct (_load_all (Examples.app_with [] 0 50 Examples.day1) Examples.world0)
    as [self' |] eqn:Hload; [| vm_compute in Hload; discriminate].
  destruct (_load_all_entries (Examples.app_with [] 0 50 Examples.day1) self'
              Examples.world0 Examples.the_ref Examples.fruit_lines)
    as (aw & Haw & _); [reflexivity | vm_compute; reflexivity | exact Hload |].
  exists self', aw. split; [reflexivity |]. split; [exact Haw |].
  exact (_load_all_fields_nonempty (Examples.app_with [] 0 50 Examples.day1) self'
           Examples.world0 Examples.the_ref aw eq_refl Hload Haw).
Defined.

(** X14. For a word list that was just selected, the view that
    [all_words] loads holds one entry per non-blank line that splits in
    two, in the order of the file, so never more entries than the count
    [self.total] that [load_wordlist] took from the same file; every flag
    is set from the learned words. *)
Theorem select_then_all_words `{PyLib} (i : nat) (app app1 app2 : VocabularyApp.t)
    (fs : World) (aw : list Entry.t) :
  select_wordlist i app fs = Ok app1 ->
  all_words app1 fs = Ok (Some aw, app2) ->
  exists wl f,
    wordlists app !! i = Some wl /\
    wordlist_files fs !! WordListRef.path wl = Some f /\
    total app2 = length (nonblank_lines f) /\
    (length aw <= total app2)%nat /\
    map (fun e => (Entry.word e, Entry.translation e)) aw
    = map (fun e => (Entry.word e, Entry.translation e))
        (flat_map entry_of_line (nonblank_lines f)) /\
    Forall (fun e => Entry.is_learned e
                     = str_in (Entry.word e) (map LearnedWord.word (words app2))) aw.
Proof.
  intros Hsel Haw. unfold select_wordlist in Hsel.
  destruct (wordlists app !! i) as [wl |] eqn:Hwl; [| discriminate].
  unfold load_wordlist in Hsel.
  destruct (wordlist_files fs !! WordListRef.path wl) as [f |] eqn:Hf; [| discriminate].
  rewrite bind_Ok in Hsel. cbn match in Hsel. injection Hsel as <-.
  exists wl, f. split; [reflexivity |]. split; [exact Hf |].
  pose proof (all_words_frame _ _ _ _ Haw) as ->.
  unfold all_words in Haw. cbn [_all_words] in Haw.
  destruct (_load_all _ fs) as [a |] eqn:Hload; [| discriminate].
  rewrite bind_Ok in Haw. injection Haw as Hview _.
  assert (Hentries : exists aw',
            _all_words a = Some aw' /\
            map (fun e => (Entry.word e, Entry.translation e)) aw'
            = map (fun e => (Entry.word e, Entry.translation e))
                (flat_map entry_of_line (nonblank_lines f)) /\
            (length aw' <= length (nonblank_lines f))%nat).
  { match type of Hload with
    | _load_all ?x _ = _ => exact (_load_all_entries x a fs wl f eq_refl Hf Hload)
    end. }
  destruct Hentries as (aw' & Haw' & Hmap & Hlen).
  rewrite Hview in Haw'. injection Haw' as <-.
  split; [reflexivity |]. split; [exact Hlen |]. split; [exact Hmap |].
  cbn [words set_all_words].
  unfold _load_all in Hload. cbn [curr] in Hload. rewrite Hf in Hload.
  cbn [words] in Hload.
  destruct (forallb hashable _); [| discriminate].
  injection Hload as <-. cbn in Hview. injection Hview as <-.
  apply Forall_map, Forall_true. reflexivity.
Qed.

End MoreWordListFacts.

Lemma select_then_all_words_witness :
  exists app1 aw app2,
    VocabularyApp.select_wordlist (H := Posix.lib) 0
      (Examples.app_with [] 0 50 Examples.day1) Examples.world0 = Ok app1 /\
    VocabularyApp.all_words app1 Examples.world0 = Ok (Some aw, app2) /\
    (length aw <= VocabularyApp.total app2)%nat.
Proof.
  destruct (VocabularyApp.select_wordlist (H := Posix.lib) 0
              (Examples.app_with [] 0 50 Examples.day1) Examples.world0)
    as [app1 |] eqn:Hsel; [| vm_compute in Hsel; discriminate].
  destruct (VocabularyApp.all_words app1 Examples.world0)
    as [[[aw |] app2] |] eqn:Haw.
  - exists app1, aw, app2. split; [reflexivity |]. split; [exact Haw |].
    destruct (select_then_all_words (H := Posix.lib) 0 _ app1 app2 _ aw Hsel Haw)
      as (wl & f & _ & _ & _ & Hlen & _).
    exact Hlen.
  - vm_compute in Hsel. injection Hsel as <-. vm_compute in Haw. discriminate.
  - vm_compute in Hsel. injection Hsel as <-. vm_compute in Haw. discriminate.
Defined.

(** ** [WordListManager]: files *)

Section MoreCacheFacts.
Import WordListManager.
Context `{PyLib}.

(** X15. [reset_wordlist] answers whether a cache existed; afterwards the
    cache is gone, so that loading gives no learned word and the same
    count, a second reset answers [False], and neither the word lists nor
    the settings were touched. Right after [save_wordlist] it answers
    [True]. *)
Theorem reset_wordlist_then_load (self : t) (path : pystr) (fs : World)
    (f : list pystr) (words : list LearnedWord.t) :
  wordlist_files fs !! path = Some f ->
  (reset_wordlist self path fs).1
  = bool_decide (is_Some (cache_files fs !! get_cache_file self path)) /\
  load_wordlist self path (reset_wordlist self path fs).2
  = Ok ([], length (nonblank_lines f)) /\
  reset_wordlist self path (reset_wordlist self path fs).2
  = (false, (reset_wordlist self path fs).2) /\
  wordlist_files (reset_wordlist self path fs).2 = wordlist_files fs /\
  settings_file (reset_wordlist self path fs).2 = settings_file fs /\
  (reset_wordlist self path (save_wordlist self path words fs)).1 = true.
Proof.
  intros Hf. unfold reset_wordlist.
  destruct (cache_files fs !! get_cache_file self path) as [a |] eqn:Hc.
  - cbn [fst snd]. split; [reflexivity |]. split.
    { unfold load_wordlist. cbn [wordlist_files cache_files set_cache_files].
      now rewrite Hf, lookup_delete_eq. }
    split.
    { cbn [cache_files set_cache_files]. now rewrite lookup_delete_eq. }
    split; [reflexivity |]. split; [reflexivity |].
    unfold save_wordlist. cbn [cache_files set_cache_files].
    now rewrite lookup_insert_eq.
  - cbn [fst snd]. split; [reflexivity |]. split.
    { unfold load_wordlist. now rewrite Hf, Hc. }
    split; [now rewrite Hc |]. split; [reflexivity |]. split; [reflexivity |].
    unfold save_wordlist. cbn [cache_files set_cache_files].
    now rewrite lookup_insert_eq.
Qed.

(** X16. [save_wordlist] overwrites: what an earlier save of the same
    list wrote is forgotten, and a save touches neither the word lists,
    nor the settings, nor the cache of any other file. *)
Theorem save_wordlist_overwrites (self : t) (path : pystr)
    (words words' : list LearnedWord.t) (fs : World) :
  save_wordlist self path words' (save_wordlist self path words fs)
  = save_wordlist self path words' fs /\
  wordlist_files (save_wordlist self path words fs) = wordlist_files fs /\
  settings_file (save_wordlist self path words fs) = settings_file fs /\
  (forall p, p <> get_cache_file self path ->
             cache_files (save_wordlist self path words fs) !! p
             = cache_files fs !! p).
Proof.
  unfold save_wordlist, set_cache_files. cbn [wordlist_files cache_files settings_file].
  split; [now rewrite insert_insert_eq |].
  split; [reflexivity |]. split; [reflexivity |].
  intros p Hp. now rewrite lookup_insert_ne.
Qed.

(** X17. Saving one list does not change what loading another list
    gives, as long as the two lists have different cache files. *)
Theorem save_wordlist_other_list (self : t) (path path' : pystr)
    (words : list LearnedWord.t) (fs : World) :
  get_cache_file self path' <> get_cache_file self path ->
  load_wordlist self path' (save_wordlist self path words fs)
  = load_wordlist self path' fs.
Proof.
  intros Hne. unfold load_wordlist, save_wordlist, set_cache_files.
  cbn [wordlist_files cache_files]. now rewrite lookup_insert_ne.
Qed.

Lemma mapM_Ok_inv_length {A B} (f : A -> result B) (l : list A) (ys : list B) :
  mapM f l = Ok ys -> length ys = length l.
Proof.
  revert ys. induction l as [| x l IH]; intros ys.
  - now intros [= <-].
  - rewrite mapM_cons. destruct (f x) as [y | e]; [| discriminate].
    rewrite bind_Ok. destruct (mapM f l) as [k | e]; [| discriminate].
    rewrite bind_Ok. intros [= <-]. cbn. now rewrite (IH k).
Qed.

Lemma read_cache_Ok_rows (a : artifact) (ws : list LearnedWord.t) :
  read_cache a = Ok ws ->
  exists rows, CacheSpec.cache_rows a = Some rows /\ length ws = length rows.
Proof.
  intros Hread. destruct (CacheSpec.cache_rows a) as [rows |] eqn:Hrows.
  - exists rows. split; [reflexivity |].
    rewrite (read_cache_rows a rows Hrows) in Hread.
    now apply mapM_Ok_inv_length in Hread.
  - destruct (bad_cache_raises a) as [e He].
    + unfold CacheSpec.bad_cache. now rewrite Hrows.
    + rewrite He in Hread. discriminate.
Qed.

(** X18. A missing word-list file makes [load_wordlist] raise
    [FileNotFoundError]. With the file present and read as text, nothing
    that the cache holds makes it raise, the count it returns does not
    depend on the cache, and the learned words are all or nothing: none,
    or one for each row of the cache. *)
Theorem load_wordlist_cache_harmless (self : t) (path : pystr) (fs : World) :
  (wordlist_files fs !! path = None ->
   load_wordlist self path fs = Raise FileNotFoundError) /\
  (forall f, wordlist_files fs !! path = Some f ->
     forall caches, exists ws,
       load_wordlist self path (mkWorld (wordlist_files fs) caches (settings_file fs))
       = Ok (ws, length (nonblank_lines f)) /\
       (ws = [] \/
        exists a rows,
          caches !! get_cache_file self path = Some a /\
          CacheSpec.cache_rows a = Some rows /\ length ws = length rows)).
Proof.
  unfold load_wordlist. cbn [wordlist_files cache_files]. split.
  - now intros ->.
  - intros f -> caches.
    destruct (caches !! get_cache_file self path) as [a |] eqn:Ha;
      [| exists []; split; [reflexivity | now left]].
    destruct (read_cache a) as [ws | e] eqn:Hread; cbn [try_except].
    + exists ws. split; [reflexivity |]. right.
      destruct (read_cache_Ok_rows a ws Hread) as (rows & Hrows & Hlen).
      now exists a, rows.
    + exists []. split; [reflexivity | now left].
Qed.

End MoreCacheFacts.

Lemma reset_wordlist_then_load_witness :
  WordListManager.load_wordlist (H := Posix.lib) Examples.the_mgr Examples.list_path
    (WordListManager.reset_wordlist (H := Posix.lib) Examples.the_mgr
       Examples.list_path Examples.world_garbage).2
  = Ok ([], 3%nat) /\
  (WordListManager.reset_wordlist (H := Posix.lib) Examples.the_mgr
     Examples.list_path Examples.world_garbage).1 = true.
Proof.
  destruct (reset_wordlist_then_load (H := Posix.lib) Examples.the_mgr
              Examples.list_path Examples.world_garbage Examples.fruit_lines [])
    as (Hret & Hload & _); [vm_compute; reflexivity |].
  split; [exact Hload |]. rewrite Hret. vm_compute. reflexivity.
Defined.

Lemma save_wordlist_other_list_witness :
  WordListManager.load_wordlist (H := Posix.lib) Examples.the_mgr Examples.list_path
    (WordListManager.save_wordlist (H := Posix.lib) Examples.the_mgr
       (lit "/app/assets/verbs.txt") [Examples.apple] Examples.world0)
  = WordListManager.load_wordlist (H := Posix.lib) Examples.the_mgr Examples.list_path
      Examples.world0.
Proof.
  apply (save_wordlist_other_list (H := Posix.lib)). vm_compute. discriminate.
Defined.

(** ** [find_user_wordlists] *)

Section DiscoveryFacts.
Import Discovery.
Context `{PyLib}.

Lemma startswith_nil (s : pystr) : startswith s [] = true.
Proof. now destruct s. Qed.

Lemma cache_name_not_listed (base : pystr) :
  is_user_wordlist (lit "_" ++ base ++ lit ".json") = false.
Proof.
  unfold is_user_wordlist. change (lit "_") with [95%N]. cbn [app startswith].
  rewrite N.eqb_refl, startswith_nil. apply andb_false_r.
Qed.

Lemma find_user_wordlists_app (self : WordListManager.t) (l1 l2 : list pystr) :
  find_user_wordlists self (l1 ++ l2)
  = find_user_wordlists self l1 ++ find_user_wordlists self l2.
Proof. unfold find_user_wordlists. now rewrite List.filter_app, map_app. Qed.

(** X19. The cache files that the program writes into the assets
    directory (named [_<base>.json]) are never taken for word lists, nor
    is any file whose name does not end in [.txt]: adding such files to
    the directory leaves the list of word lists as it was. The lists found
    keep the order of the directory listing. *)
Theorem find_user_wordlists_ignores_caches (self : WordListManager.t)
    (l1 l2 : list pystr) (base other : pystr) :
  find_user_wordlists self (l1 ++ (lit "_" ++ base ++ lit ".json") :: l2)
  = find_user_wordlists self (l1 ++ l2) /\
  (endswith other (lit ".txt") = false ->
   find_user_wordlists self (l1 ++ other :: l2) = find_user_wordlists self (l1 ++ l2)) /\
  (endswith other (lit ".txt") = true -> startswith other (lit "_") = false ->
   find_user_wordlists self (l1 ++ other :: l2)
   = find_user_wordlists self l1
     ++ WordListRef.mk (path_join (WordListManager.assets_dir self) other)
          (fst (path_splitext other))
        :: find_user_wordlists self l2).
Proof.
  rewrite !find_user_wordlists_app.
  split; [| split].
  - f_equal. unfold find_user_wordlists. cbn [List.filter].
    now rewrite cache_name_not_listed.
  - intros Hend. f_equal. unfold find_user_wordlists. cbn [List.filter].
    unfold is_user_wordlist. now rewrite Hend.
  - intros Hend Hstart. f_equal. unfold find_user_wordlists. cbn [List.filter].
    unfold is_user_wordlist. now rewrite Hend, Hstart.
Qed.

End DiscoveryFacts.

(** ** The confirm branch of [main] *)

Section ConfirmFacts.
Import VocabularyApp.
Context `{PyLib}.

Lemma flush_cache (app : t) (fs : World) (c : WordListRef.t) :
  curr app = Some c ->
  settings_file (flush app fs) = Some (cfg app) /\
  WordListManager.read_cache
    <$> cache_files (flush app fs)
          !! WordListManager.get_cache_file (mgr app) (WordListRef.path c)
  = Some (Ok (map reloaded (words app))) /\
  wordlist_files (flush app fs) = wordlist_files fs.
Proof.
  intros Hc. unfold flush, save. rewrite Hc.
  unfold WordListManager.save_wordlist, save_settings, set_cache_files.
  cbn [settings_file cache_files wordlist_files].
  split; [reflexivity |]. split; [| reflexivity].
  rewrite lookup_insert_eq. cbn [fmap option_fmap option_map].
  now rewrite read_cache_saved.
Qed.

(** X20. Confirming a new word never raises once the view is loaded: the
    word is appended to [self.words] with the state [answer] gives it,
    [self.idx] points at it, the counter of the day goes up by one and is
    written to the settings, and the cache on disk reads back as the
    learned words now in memory. *)
Theorem main_confirm_new_word (w tr : pystr) (b : bool) (nw : LearnedWord.t)
    (q now : Z) (app : t) (fs : World) (aw : list Entry.t) (c : WordListRef.t) :
  _all_words app = Some aw -> curr app = Some c ->
  exists nw' app' fs',
    main_confirm (NewWord w tr b nw) q now app fs = Ok (app', fs') /\
    answer_word nw q now = Ok nw' /\
    words app' = words app ++ [nw'] /\
    idx app' = length (words app) /\
    today_count app' = (today_count app + 1)%Z /\
    cfg app' !! lit "TODAY_COUNT" = Some (PInt (today_count app + 1)) /\
    settings_file fs' = Some (cfg app') /\
    WordListManager.read_cache
      <$> cache_files fs'
            !! WordListManager.get_cache_file (mgr app) (WordListRef.path c)
    = Some (Ok (map reloaded (words app'))).
Proof.
  intros Hview Hc. destruct (answer_word_total nw q now) as [nw' Hnw'].
  set (app1 := set_cfg (lit "TODAY_COUNT") (PInt (today_count app + 1))
                 (set_today_count (today_count app + 1)
                    (set_all_words (Some (mark_learned (LearnedWord.word nw) aw))
                       (set_idx (length (words app ++ [nw]) - 1)
                          (set_words (words app ++ [nw]) app))))).
  assert (Hidx : words app1 !! idx app1 = Some nw).
  { cbn. rewrite length_app. cbn [length].
    replace (length (words app) + 1 - 1)%nat with (length (words app)) by lia.
    now rewrite lookup_app_r, Nat.sub_diag by lia. }
  pose proof (answer_at app1 nw nw' q now Hidx Hnw') as Hans.
  set (app2 := set_words (<[idx app1 := nw']> (words app1)) app1) in *.
  exists nw', app2, (flush app2 (save_settings (cfg app1) fs)).
  assert (Hwords : words app2 = words app ++ [nw']).
  { cbn. rewrite length_app. cbn [length].
    replace (length (words app) + 1 - 1)%nat with (length (words app)) by lia.
    rewrite insert_app_r_alt by lia. now rewrite Nat.sub_diag. }
  split.
  { unfold main_confirm, all_words. cbn [_all_words set_idx set_words].
    rewrite Hview, !bind_Ok. cbn match.
    match goal with |- context [answer q now ?x] => change x with app1 end.
    rewrite Hans, bind_Ok. reflexivity. }
  split; [exact Hnw' |]. split; [exact Hwords |].
  split.
  { cbn. rewrite length_app. cbn [length]. lia. }
  split; [reflexivity |].
  split; [cbn; apply lookup_insert_eq |].
  destruct (flush_cache app2 (save_settings (cfg app1) fs) c Hc) as (Hset & Hcache & _).
  split; [exact Hset | exact Hcache].
Qed.

(** X21. Confirming a review word never raises when [self.idx] is a
    position of [self.words]: the list keeps its length and its words,
    the counter of the day is not changed, and the cache on disk reads
    back as the learned words now in memory. *)
Theorem main_confirm_review (w w0 : LearnedWord.t) (q now : Z) (app : t)
    (fs : World) (c : WordListRef.t) :
  words app !! idx app = Some w0 -> curr app = Some c ->
  exists app' fs',
    main_confirm (Review w) q now app fs = Ok (app', fs') /\
    map LearnedWord.word (words app') = map LearnedWord.word (words app) /\
    today_count app' = today_count app /\
    _all_words app' = _all_words app /\
    WordListManager.read_cache
      <$> cache_files fs'
            !! WordListManager.get_cache_file (mgr app) (WordListRef.path c)
    = Some (Ok (map reloaded (words app'))).
Proof.
  intros Hw Hc. destruct (answer_word_total w0 q now) as [w' Hw'].
  pose proof (answer_at app w0 w' q now Hw Hw') as Hans.
  set (app' := set_words (<[idx app := w']> (words app)) app) in *.
  exists app', (flush app' fs).
  split; [unfold main_confirm; now rewrite bind_Ok, Hans, bind_Ok |].
  destruct (answer_keeps_words app app' q now Hans) as [Hwords Hview].
  split; [exact Hwords |]. split; [reflexivity |]. split; [exact Hview |].
  exact (proj1 (proj2 (flush_cache app' fs c Hc))).
Qed.

End ConfirmFacts.

Lemma main_confirm_new_word_witness :
  exists nw' app' fs',
    VocabularyApp.main_confirm (H := Posix.lib)
      (NewWord (lit "pear") (lit "a green fruit") true
         (VocabularyApp.new_word_of
            (Entry.mk (lit "pear") (lit "a green fruit") false) 5000 Examples.day1))
      5 6000
      (VocabularyApp.set_all_words
         (Some [Entry.mk (lit "pear") (lit "a green fruit") false])
         (Examples.app_with [Examples.apple] 0 50 Examples.day1))
      Examples.world0
    = Ok (app', fs') /\
    VocabularyApp.words app' = [Examples.apple; nw'] /\
    VocabularyApp.today_count app' = 1%Z.
Proof.
  destruct (main_confirm_new_word (H := Posix.lib) (lit "pear") (lit "a green fruit")
              true
              (VocabularyApp.new_word_of
                 (Entry.mk (lit "pear") (lit "a green fruit") false) 5000 Examples.day1)
              5 6000
              (VocabularyApp.set_all_words
                 (Some [Entry.mk (lit "pear") (lit "a green fruit") false])
                 (Examples.app_with [Examples.apple] 0 50 Examples.day1))
              Examples.world0
              [Entry.mk (lit "pear") (lit "a green fruit") false] Examples.the_ref
              eq_refl eq_refl)
    as (nw' & app' & fs' & Hrun & _ & Hwords & _ & Hcount & _).
  exists nw', app', fs'. split; [exact Hrun |]. split; [exact Hwords | exact Hcount].
Defined.

Lemma main_confirm_review_witness :
  exists app' fs',
    VocabularyApp.main_confirm (H := Posix.lib) (Review Examples.apple) 2 6000
      (Examples.reviewing [Examples.apple] Examples.day1) Examples.world0
    = Ok (app', fs') /\
    VocabularyApp.today_count app' = 1%Z.
Proof.
  destruct (main_confirm_review (H := Posix.lib) Examples.apple Examples.apple 2 6000
              (Examples.reviewing [Examples.apple] Examples.day1) Examples.world0
              Examples.the_ref eq_refl eq_refl)
    as (app' & fs' & Hrun & _ & Hcount & _).
  exists app', fs'. split; [exact Hrun | exact Hcount].
Defined.

(** ** [__init__], [save] and [select_wordlist] *)

Section StartFacts.
Import VocabularyApp.
Context `{PyLib}.

(** X22. The first start, with no settings file: provided [int()] reads
    the defaults ["50"] and ["0"], [__init__] does not raise, the limit
    is 50, the counter 0, nothing is selected or learned, and the
    settings are written with today's date. *)
Theorem init_without_settings (m : WordListManager.t) (found : list WordListRef.t)
    (day : pystr) (fs : World) :
  settings_file fs = None ->
  str_to_int (lit "50") = Some 50%Z -> str_to_int (lit "0") = Some 0%Z ->
  day <> [] ->
  exists app fs',
    init m found day fs = Ok (app, fs') /\
    limit app = 50%Z /\ today_count app = 0%Z /\ today app = day /\
    words app = [] /\ curr app = None /\ review_only app = false /\
    wordlists app = found /\
    cfg app !! lit "TODAY_DATE" = Some (PStr day) /\
    cfg app !! lit "TODAY_COUNT" = Some (PInt 0) /\
    cfg app !! lit "DAILY_NEW_LIMIT" = Some (PStr (lit "50")) /\
    settings_file fs' = Some (cfg app).
Proof.
  intros Hnone H50 H0 Hday. unfold init, load_settings. rewrite Hnone.
  assert (Hl : cfg_item
                 (<[lit "TODAY_DATE" := PStr []]>
                    (<[lit "TODAY_COUNT" := PStr (lit "0")]>
                       (<[lit "DAILY_NEW_LIMIT" := PStr (lit "50")]> ∅)))
                 (lit "DAILY_NEW_LIMIT") = Ok (PStr (lit "50")))
    by (vm_compute; reflexivity).
  assert (Hc : cfg_item
                 (<[lit "TODAY_DATE" := PStr []]>
                    (<[lit "TODAY_COUNT" := PStr (lit "0")]>
                       (<[lit "DAILY_NEW_LIMIT" := PStr (lit "50")]> ∅)))
                 (lit "TODAY_COUNT") = Ok (PStr (lit "0")))
    by (vm_compute; reflexivity).
  assert (Hd : cfg_item
                 (<[lit "TODAY_DATE" := PStr []]>
                    (<[lit "TODAY_COUNT" := PStr (lit "0")]>
                       (<[lit "DAILY_NEW_LIMIT" := PStr (lit "50")]> ∅)))
                 (lit "TODAY_DATE") = Ok (PStr []))
    by (vm_compute; reflexivity).
  rewrite Hl, Hc, Hd, !bind_Ok. cbn [py_int]. rewrite H50, H0, !bind_Ok.
  cbn [py_ne_str]. rewrite pystr_eqb_sym, (pystr_eqb_neq day []) by exact Hday.
  cbn [negb]. eexists _, _. split; [reflexivity |].
  repeat split; try reflexivity; cbn;
    rewrite ?lookup_insert_ne by (vm_compute; discriminate);
    apply lookup_insert_eq.
Qed.

(** X23. A start on the day the settings were written keeps the counter
    and the limit found there and writes nothing. *)
Theorem init_same_day (m : WordListManager.t) (found : list WordListRef.t)
    (day : pystr) (fs : World) (vl vc : pyval) (lim cnt : Z) :
  load_settings fs !! lit "DAILY_NEW_LIMIT" = Some vl -> py_int vl = Ok lim ->
  load_settings fs !! lit "TODAY_COUNT" = Some vc -> py_int vc = Ok cnt ->
  load_settings fs !! lit "TODAY_DATE" = Some (PStr day) ->
  exists app,
    init m found day fs = Ok (app, fs) /\
    limit app = lim /\ today_count app = cnt /\ today app = day /\
    cfg app = load_settings fs.
Proof.
  intros Hl Hlim Hc Hcnt Hd. unfold init, cfg_item.
  rewrite Hl, Hc, Hd, !bind_Ok, Hlim, Hcnt, !bind_Ok.
  cbn [py_ne_str]. rewrite pystr_eqb_refl. cbn [negb].
  eexists. split; [reflexivity |]. now repeat split.
Qed.

(** X24. Saving and then selecting the same list again brings back every
    learned word, in order and with the same six values; the view has to
    be loaded again and the count is the one of the file. *)
Theorem save_then_select (i : nat) (app : t) (fs : World) (wl : WordListRef.t)
    (f : list pystr) :
  wordlists app !! i = Some wl -> curr app = Some wl ->
  wordlist_files fs !! WordListRef.path wl = Some f ->
  exists app',
    select_wordlist i app (save app fs) = Ok app' /\
    words app' = map reloaded (words app) /\
    Forall2 same_state (words app') (words app) /\
    _all_words app' = None /\ curr app' = Some wl /\
    total app' = length (WordListManager.nonblank_lines f) /\
    today_count app' = today_count app.
Proof.
  intros Hi Hc Hf. unfold select_wordlist, save. rewrite Hi, Hc.
  unfold WordListManager.load_wordlist, WordListManager.save_wordlist,
    save_settings, set_cache_files.
  cbn [wordlist_files cache_files]. rewrite Hf, lookup_insert_eq, read_cache_saved.
  cbn [try_except]. rewrite bind_Ok. cbn match.
  eexists. split; [reflexivity |]. cbn.
  split; [reflexivity |]. split; [| now repeat split].
  induction (words app) as [| w ws IH]; constructor;
    [apply reloaded_same_state | exact IH].
Qed.

End StartFacts.

Lemma init_without_settings_witness :
  exists app fs',
    VocabularyApp.init (H := Posix.lib) Examples.the_mgr [Examples.the_ref]
      Examples.day1 Examples.world0 = Ok (app, fs') /\
    VocabularyApp.limit app = 50%Z /\ VocabularyApp.today_count app = 0%Z.
Proof.
  destruct (init_without_settings (H := Posix.lib) Examples.the_mgr
              [Examples.the_ref] Examples.day1 Examples.world0)
    as (app & fs' & Hrun & Hlim & Hcnt & _);
    [reflexivity | reflexivity | reflexivity | vm_compute; discriminate |].
  exists app, fs'. split; [exact Hrun |]. split; [exact Hlim | exact Hcnt].
Defined.

Lemma init_same_day_witness :
  exists app,
    VocabularyApp.init (H := Posix.lib) Examples.the_mgr [Examples.the_ref]
      Examples.day1
      (save_settings
         (VocabularyApp.cfg (Examples.app_with [] 7 50 Examples.day1)) Examples.world0)
    = Ok (app,
          save_settings
            (VocabularyApp.cfg (Examples.app_with [] 7 50 Examples.day1))
            Examples.world0) /\
    VocabularyApp.limit app = 50%Z /\ VocabularyApp.today_count app = 7%Z.
Proof.
  destruct (init_same_day (H := Posix.lib) Examples.the_mgr [Examples.the_ref]
              Examples.day1
              (save_settings
                 (VocabularyApp.cfg (Examples.app_with [] 7 50 Examples.day1))
                 Examples.world0)
              (PStr (lit "50")) (PInt 7) 50 7)
    as (app & Hrun & Hlim & Hcnt & _);
    try (vm_compute; reflexivity).
  exists app. split; [exact Hrun |]. split; [exact Hlim | exact Hcnt].
Defined.

Lemma save_then_select_witness :
  exists app',
    VocabularyApp.select_wordlist (H := Posix.lib) 0
      (Examples.app_with [Examples.apple] 0 50 Examples.day1)
      (VocabularyApp.save (H := Posix.lib)
         (Examples.app_with [Examples.apple] 0 50 Examples.day1) Examples.world0)
    = Ok app' /\
    VocabularyApp.words app' = map reloaded [Examples.apple].
Proof.
  destruct (save_then_select (H := Posix.lib) 0
              (Examples.app_with [Examples.apple] 0 50 Examples.day1) Examples.world0
              Examples.the_ref Examples.fruit_lines)
    as (app' & Hrun & Hwords & _);
    [reflexivity | reflexivity | vm_compute; reflexivity |].
  exists app'. split; [exact Hrun | exact Hwords].
Defined.

(** ** [UI.stats] and the reset branch of [main] *)

Section StatsFacts.
Import VocabularyApp.
Context `{PyLib}.

Lemma length_omap_le {A B} (g : A -> option B) (l : list A) :
  (length (omap g l) <= length l)%nat.
Proof.
  induction l as [| x l IH]; [reflexivity |].
  cbn. destruct (g x); cbn; lia.
Qed.

(** The new-word block succeeds when it is entered with an entry whose
    flag is off. *)
Lemma get_word_offers_new (env : Env) (app app' : t) (fs : World)
    (aw : list Entry.t) :
  review_only app = false ->
  Spec.allowNewItem (date_today env) app = true ->
  all_words app fs = Ok (Some aw, app') ->
  List.filter (fun w => negb (Entry.is_learned w)) aw <> [] ->
  exists w tr nw st fs',
    get_word env app fs = Ok (NewWord w tr true nw, st, fs').
Proof.
  intros Hro Hquota Haw Hne. unfold Spec.allowNewItem in Hquota.
  destruct (pystr_eqb (date_today env) (today app)) eqn:Hday.
  - apply pystr_eqb_eq in Hday.
    destruct (get_new_word_found env app app' fs aw Hro Hquota Haw Hne)
      as (e & _ & Hget).
    rewrite (get_word_same_day env app fs) by congruence. rewrite Hget.
    eexists _, _, _, _, _. reflexivity.
  - assert (Hstale : today app <> date_today env).
    { intros Heq. rewrite Heq, pystr_eqb_refl in Hday. discriminate. }
    pose proof (all_words_new_day (date_today env) app fs) as Haw1.
    rewrite Haw in Haw1.
    destruct (get_new_word_found env (new_day (date_today env) app fs).1 _
                (new_day (date_today env) app fs).2 aw Hro Hquota Haw1 Hne)
      as (e & _ & Hget).
    rewrite (get_word_stale env app fs Hstale), Hget.
    eexists _, _, _, _, _. reflexivity.
Qed.

Lemma known_cnt_le (learned : list LearnedWord.t) :
  (UI.known_cnt learned <= length learned)%nat.
Proof. unfold UI.known_cnt. apply List.filter_length_le. Qed.

Lemma ratio_bounds (k c : nat) :
  (k <= c)%nat -> (0 < c)%nat ->
  (0 <= inject_Z (Z.of_nat k) / inject_Z (Z.of_nat c) * 100 <= 100)%Q.
Proof.
  intros Hkc Hc.
  assert (Hk0 : (0 <= inject_Z (Z.of_nat k))%Q).
  { change 0%Q with (inject_Z 0). rewrite <- Zle_Qle. lia. }
  assert (Hc0 : (0 < inject_Z (Z.of_nat c))%Q).
  { change 0%Q with (inject_Z 0). rewrite <- Zlt_Qlt. lia. }
  assert (Hle : (inject_Z (Z.of_nat k) <= inject_Z (Z.of_nat c))%Q).
  { rewrite <- Zle_Qle. lia. }
  set (x := inject_Z (Z.of_nat k)) in *. set (y := inject_Z (Z.of_nat c)) in *.
  assert (Hxy : (x / y * y == x)%Q) by (field; lra).
  set (r := (x / y)%Q) in *. clearbody x y r. split; nra.
Qed.

(** X25. Every line of the table of [UI.stats] belongs to a word list
    with at least one non-blank line (an empty list is skipped, so there
    is no division by zero), its share of learned words is not negative,
    and its mastery rate lies between 0 and 100 and is 0 when nothing was
    learned. The table is made after saving, and it has at most one line
    per file of the directory. *)
Theorem stats_rows_bounds (app : t) (listing : list pystr) (fs : World) (r : UI.row) :
  r ∈ (UI.stats app listing fs).1 ->
  (0 < UI.total r)%nat /\
  (0 <= UI.learned_ratio r)%Q /\
  (0 <= UI.mastery_ratio r <= 100)%Q /\
  (UI.learned_cnt r = 0%nat -> UI.mastery_ratio r = 0.0%Q) /\
  (UI.stats app listing fs).2 = save app fs /\
  (length (UI.stats app listing fs).1 <= length listing)%nat.
Proof.
  unfold UI.stats. cbn [fst snd]. intros Hr.
  apply list_elem_of_omap in Hr as (wl & _ & Hrow).
  unfold UI.stats_row in Hrow.
  destruct (WordListManager.load_wordlist _ _ _) as [[learned tot] | e];
    [| discriminate].
  destruct (Nat.eqb_spec tot 0) as [Hz | Hnz]; [discriminate |].
  injection Hrow as <-. cbn [UI.total UI.learned_ratio UI.mastery_ratio UI.learned_cnt].
  split; [lia |]. split.
  { assert (Hl0 : (0 <= inject_Z (Z.of_nat (length learned)))%Q).
    { change 0%Q with (inject_Z 0). rewrite <- Zle_Qle. lia. }
    assert (Ht0 : (0 < inject_Z (Z.of_nat tot))%Q).
    { change 0%Q with (inject_Z 0). rewrite <- Zlt_Qlt. lia. }
    set (x := inject_Z (Z.of_nat (length learned))) in *.
    set (y := inject_Z (Z.of_nat tot)) in *.
    assert (Hxy : (x / y * y == x)%Q) by (field; lra).
    set (q := (x / y)%Q) in *. clearbody x y q. nra. }
  split.
  { destruct (Nat.eqb_spec (length learned) 0) as [_ | Hne];
      [split; vm_compute; discriminate |].
    apply ratio_bounds; [apply known_cnt_le | lia]. }
  split.
  { intros ->. reflexivity. }
  split; [reflexivity |].
  etransitivity; [apply length_omap_le |].
  unfold Discovery.find_user_wordlists. rewrite length_map.
  apply List.filter_length_le.
Qed.

Lemma known_cnt_reloaded (ws : list LearnedWord.t) :
  UI.known_cnt (map reloaded ws) = UI.known_cnt ws.
Proof.
  unfold UI.known_cnt. induction ws as [| w ws IH]; [reflexivity |].
  cbn [map List.filter]. cbn [reloaded LearnedWord.interval num_val].
  destruct (Qlt_le_dec (num_val (LearnedWord.interval w)) 21); cbn [length];
    now rewrite IH.
Qed.

(** X26. Because [UI.stats] saves first, the line of the current list
    counts the words learned in memory, saved or not; its mastery rate is
    the share of these words whose interval is at least 21 days. *)
Theorem stats_row_current (app : t) (fs : World) (wl : WordListRef.t)
    (f : list pystr) :
  curr app = Some wl -> wordlist_files fs !! WordListRef.path wl = Some f ->
  WordListManager.nonblank_lines f <> [] ->
  exists r,
    UI.stats_row (mgr app) wl (save app fs) = Some r /\
    UI.name r = WordListRef.name wl /\
    UI.learned_cnt r = length (words app) /\
    UI.total r = length (WordListManager.nonblank_lines f) /\
    UI.mastery_ratio r
    = if (length (words app) =? 0)%nat then 0.0%Q
      else (inject_Z (Z.of_nat (UI.known_cnt (words app)))
            / inject_Z (Z.of_nat (length (words app))) * 100)%Q.
Proof.
  intros Hc Hf Hne. unfold UI.stats_row, save. rewrite Hc.
  unfold WordListManager.load_wordlist, WordListManager.save_wordlist,
    save_settings, set_cache_files.
  cbn [wordlist_files cache_files]. rewrite Hf, lookup_insert_eq, read_cache_saved.
  cbn [try_except].
  destruct (Nat.eqb_spec (length (WordListManager.nonblank_lines f)) 0) as [Hz | _].
  { destruct (WordListManager.nonblank_lines f); [contradiction | discriminate]. }
  eexists. split; [reflexivity |]. cbn.
  rewrite length_map, known_cnt_reloaded. now repeat split.
Qed.

(** X27. A confirmed reset of a list that has a cache forgets every
    learned word and the loaded view and removes the cache; the next
    query then offers a new word whenever new words are allowed and the
    list has an entry. Without a cache, or without confirmation, nothing
    changes. *)
Theorem main_reset_starts_over (env : Env) (app : t) (fs : World)
    (c : WordListRef.t) (f : list pystr) (a : artifact) :
  curr app = Some c -> wordlist_files fs !! WordListRef.path c = Some f ->
  cache_files fs !! WordListManager.get_cache_file (mgr app) (WordListRef.path c)
  = Some a ->
  exists app' fs',
    Main.main_reset true app fs = Ok (app', fs') /\
    words app' = [] /\ _all_words app' = None /\
    total app' = length (WordListManager.nonblank_lines f) /\
    cache_files fs'
      !! WordListManager.get_cache_file (mgr app) (WordListRef.path c) = None /\
    Main.main_reset false app fs = Ok (app, fs) /\
    (review_only app = false -> Spec.allowNewItem (date_today env) app = true ->
     flat_map entry_of_line (WordListManager.nonblank_lines f) <> [] ->
     exists w tr nw st fs'',
       get_word env app' fs' = Ok (NewWord w tr true nw, st, fs'')).
Proof.
  intros Hc Hf Ha. unfold Main.main_reset. rewrite Hc.
  unfold WordListManager.reset_wordlist. rewrite Ha.
  unfold WordListManager.load_wordlist, set_cache_files.
  cbn [wordlist_files cache_files]. rewrite Hf, lookup_delete_eq, bind_Ok. cbn match.
  eexists _, _. split; [reflexivity |].
  split; [reflexivity |]. split; [reflexivity |]. split; [reflexivity |].
  split; [cbn; apply lookup_delete_eq |]. split; [reflexivity |].
  intros Hro Hquota Hentries.
  match goal with |- context [get_word env ?x ?y] => set (app' := x); set (fs' := y) end.
  set (aw := map (fun w => Entry.mk (Entry.word w) (Entry.translation w)
                             (str_in (Entry.word w) []))
                 (flat_map entry_of_line (WordListManager.nonblank_lines f))).
  assert (Haw : all_words app' fs' = Ok (Some aw, set_all_words (Some aw) app')).
  { unfold all_words, _load_all. cbn [_all_words curr words app'].
    cbn [wordlist_files fs']. rewrite Hf. reflexivity. }
  assert (Hfresh : List.filter (fun w => negb (Entry.is_learned w)) aw <> []).
  { unfold aw.
    destruct (flat_map entry_of_line (WordListManager.nonblank_lines f));
      [contradiction | discriminate]. }
  exact (get_word_offers_new env app' (set_all_words (Some aw) app') fs' aw
           Hro Hquota Haw Hfresh).
Qed.

End StatsFacts.

Lemma stats_rows_bounds_witness :
  exists r,
    r ∈ (UI.stats (H := Posix.lib)
           (Examples.app_with [Examples.apple] 0 50 Examples.day1)
           [lit "_fruit.json"; lit "fruit.txt"] Examples.world0).1 /\
    (0 <= UI.mastery_ratio r <= 100)%Q.
Proof.
  destruct (UI.stats (H := Posix.lib)
              (Examples.app_with [Examples.apple] 0 50 Examples.day1)
              [lit "_fruit.json"; lit "fruit.txt"] Examples.world0).1
    as [| r l] eqn:Hrows; [vm_compute in Hrows; discriminate |].
  assert (Hin : r ∈ (UI.stats (H := Posix.lib)
                       (Examples.app_with [Examples.apple] 0 50 Examples.day1)
                       [lit "_fruit.json"; lit "fruit.txt"] Examples.world0).1)
    by (rewrite Hrows; left).
  exists r. split; [left |].
  exact (proj1 (proj2 (proj2 (stats_rows_bounds (H := Posix.lib) _ _ _ r Hin)))).
Defined.

Lemma stats_row_current_witness :
  exists r,
    UI.stats_row (H := Posix.lib) Examples.the_mgr Examples.the_ref
      (VocabularyApp.save (H := Posix.lib)
         (Examples.app_with [Examples.apple] 0 50 Examples.day1) Examples.world0)
    = Some r /\
    UI.learned_cnt r = 1%nat /\ UI.total r = 3%nat.
Proof.
  destruct (stats_row_current (H := Posix.lib)
              (Examples.app_with [Examples.apple] 0 50 Examples.day1) Examples.world0
              Examples.the_ref Examples.fruit_lines)
    as (r & Hrow & _ & Hcnt & Htot & _);
    [reflexivity | vm_compute; reflexivity | vm_compute; discriminate |].
  exists r. split; [exact Hrow |]. split; [exact Hcnt |]. rewrite Htot.
  vm_compute. reflexivity.
Defined.

Lemma main_reset_starts_over_witness :
  exists app' fs',
    Main.main_reset (H := Posix.lib) true
      (Examples.app_with [Examples.apple] 0 50 Examples.day1) Examples.world_garbage
    = Ok (app', fs') /\
    VocabularyApp.words app' = [] /\ VocabularyApp._all_words app' = None.
Proof.
  destruct (main_reset_starts_over (H := Posix.lib)
              (Examples.env_at Examples.day1 5000 0 0%Q)
              (Examples.app_with [Examples.apple] 0 50 Examples.day1)
              Examples.world_garbage Examples.the_ref Examples.fruit_lines Unparsable)
    as (app' & fs' & Hrun & Hwords & Hview & _);
    [reflexivity | vm_compute; reflexivity | vm_compute; reflexivity |].
  exists app', fs'. split; [exact Hrun |]. split; [exact Hwords | exact Hview].
Defined.

(** ** The view and the learned words through a session *)

Section SessionFacts.
Import VocabularyApp.

(** X28. A query keeps the flags of the view in step with the learned
    words: what [get_word] loads or leaves is in step if the view it
    found was. A word offered as new is then never one of the learned
    words. *)
Theorem get_word_keeps_view_in_step (env : Env) (app app' : t) (fs fs' : World)
    (sel : selection) :
  get_word env app fs = Ok (sel, app', fs') -> Inv.synced app ->
  Inv.synced app' /\
  (forall w tr b nw, sel = NewWord w tr b nw ->
     str_in w (map LearnedWord.word (words app')) = false).
Proof.
  intros Hget Hs.
  pose proof (get_word_synced env app app' fs fs' sel Hget Hs) as Hs'.
  split; [exact Hs' |]. intros w tr b nw ->.
  destruct (get_word_inv env app app' fs fs' _ Hget)
    as (a & f & new & a1 & _ & _ & Hnew & Hrest).
  pose proof (get_new_word_inv env a a1 f new Hnew) as [_ Hsel].
  destruct new as [sel' |].
  - destruct Hrest as [-> ->].
    destruct Hsel as (_ & _ & aw & e & Haw & Hin & Hflag & Heq).
    injection Heq as -> _ _ _.
    unfold Inv.synced in Hs'. rewrite Haw in Hs'.
    rewrite Forall_forall in Hs'. rewrite <- (Hs' e); [exact Hflag |].
    now apply list_elem_of_In.
  - destruct (get_review_word_inv env a1 app' f _ Hrest)
      as [[_ (o' & _ & Ho)] | (i & w' & _ & Hrv & _)]; [| discriminate].
    destruct o' as [[| ? ?] |]; discriminate.
Qed.

(** X29. Confirming a word keeps the flags of the view in step with the
    learned words, provided the view names no word twice: the new word is
    flagged in the view as it is appended to the learned words, and an
    answer changes no word. With a word listed twice only its first entry
    is flagged. *)
Theorem main_confirm_keeps_view_in_step `{PyLib} (sel : selection) (q now : Z)
    (app app' : t) (fs fs' : World) (aw : list Entry.t) :
  _all_words app = Some aw -> NoDup (map Entry.word aw) -> Inv.synced app ->
  (forall w tr b nw, sel = NewWord w tr b nw ->
                     exists s, LearnedWord.word nw = PStr s) ->
  main_confirm sel q now app fs = Ok (app', fs') ->
  Inv.synced app' /\
  (forall w tr b nw, sel = NewWord w tr b nw ->
     _all_words app' = Some (mark_learned (LearnedWord.word nw) aw)).
Proof.
  intros Hview Hnd Hs Hword Hrun.
  split; [exact (main_confirm_synced sel q now app app' fs fs' aw Hview Hnd Hs Hword Hrun) |].
  intros w tr b nw ->. unfold main_confirm, all_words in Hrun.
  cbn [_all_words set_idx set_words] in Hrun. rewrite Hview, !bind_Ok in Hrun.
  cbn match in Hrun.
  destruct (answer q now _) as [a |] eqn:Hans; [| discriminate].
  rewrite bind_Ok in Hrun. injection Hrun as <- _.
  now rewrite (proj2 (answer_keeps_words _ _ q now Hans)).
Qed.

End SessionFacts.

Lemma get_word_keeps_view_in_step_witness :
  exists sel app' fs',
    VocabularyApp.get_word (Examples.env_at Examples.day1 5000 0 0%Q)
      (Examples.app_with [Examples.apple] 0 50 Examples.day1) Examples.world0
    = Ok (sel, app', fs') /\ Inv.synced app' /\
    (forall w tr b nw, sel = NewWord w tr b nw ->
       VocabularyApp.str_in w (map LearnedWord.word (VocabularyApp.words app'))
       = false).
Proof.
  destruct (VocabularyApp.get_word (Examples.env_at Examples.day1 5000 0 0%Q)
              (Examples.app_with [Examples.apple] 0 50 Examples.day1) Examples.world0)
    as [[[sel app'] fs'] |] eqn:Hget; [| vm_compute in Hget; discriminate].
  exists sel, app', fs'. split; [reflexivity |].
  exact (get_word_keeps_view_in_step _ _ _ _ _ _ Hget I).
Defined.

Lemma main_confirm_keeps_view_in_step_witness :
  exists app' fs',
    VocabularyApp.main_confirm (H := Posix.lib)
      (NewWord (lit "pear") (lit "a green fruit") true
         (VocabularyApp.new_word_of
            (Entry.mk (lit "pear") (lit "a green fruit") false) 5000 Examples.day1))
      5 6000
      (VocabularyApp.set_all_words
         (Some [Entry.mk (lit "pear") (lit "a green fruit") false])
         (Examples.app_with [] 0 50 Examples.day1))
      Examples.world0
    = Ok (app', fs') /\ Inv.synced app'.
Proof.
  destruct (VocabularyApp.main_confirm (H := Posix.lib)
              (NewWord (lit "pear") (lit "a green fruit") true
                 (VocabularyApp.new_word_of
                    (Entry.mk (lit "pear") (lit "a green fruit") false) 5000
                    Examples.day1))
              5 6000
              (VocabularyApp.set_all_words
                 (Some [Entry.mk (lit "pear") (lit "a green fruit") false])
                 (Examples.app_with [] 0 50 Examples.day1))
              Examples.world0)
    as [[app' fs'] |] eqn:Hrun; [| vm_compute in Hrun; discriminate].
  exists app', fs'. split; [reflexivity |].
  eapply (fun Hv Hn Hs Hw =>
            proj1 (main_confirm_keeps_view_in_step (H := Posix.lib)
                     _ _ _ _ _ _ _ _ Hv Hn Hs Hw Hrun)).
  - reflexivity.
  - apply NoDup_singleton.
  - repeat constructor.
  - intros w tr b nw [= _ _ _ <-]. eexists. reflexivity.
Defined.

(** ** The settings file as text *)

Section SettingsTextFacts.
Import SettingsText.

Lemma lit_String (c : ascii) (s : string) : lit (String c s) = N_of_ascii c :: lit s.
Proof. reflexivity. Qed.

Lemma rstrip_app_space (s : pystr) (c : N) :
  is_space c = true -> rstrip (s ++ [c]) = rstrip s.
Proof. intros Hc. unfold rstrip. rewrite rev_unit. cbn [lstrip]. now rewrite Hc. Qed.

Lemma rstrip_snoc (s : pystr) (c : N) :
  is_space c = false -> rstrip (s ++ [c]) = s ++ [c].
Proof.
  intros Hc. unfold rstrip. rewrite rev_unit. cbn [lstrip]. rewrite Hc.
  rewrite <- rev_unit. apply rev_involutive.
Qed.

(** The text before the sign: a stripped key and the blank after it. *)
Lemma strip_key_blank (k : pystr) : strip k = k -> strip (k ++ [32%N]) = k.
Proof.
  intros Hk. destruct k as [| c r]; [reflexivity |].
  destruct (strip_ends _ _ _ Hk) as [Hc _].
  unfold strip in *. cbn [lstrip app] in *. rewrite Hc in *.
  change (c :: r ++ [32%N]) with ((c :: r) ++ [32%N]).
  now rewrite rstrip_app_space.
Qed.

Lemma contains_app_cons (c : N) (a b : pystr) : contains c (a ++ c :: b) = true.
Proof.
  unfold contains. rewrite existsb_app. cbn [existsb].
  now rewrite N.eqb_refl, orb_true_r.
Qed.

Lemma split_first_app (sep : N) (a r : pystr) :
  forallb (fun c => negb (c =? sep)%N) a = true ->
  split_first sep (a ++ sep :: r) = (a, r).
Proof.
  induction a as [| c a IH]; cbn [forallb app split_first].
  - now rewrite N.eqb_refl.
  - intros [Hc Ha]%andb_true_iff. apply negb_true_iff in Hc.
    now rewrite Hc, (IH Ha).
Qed.

Lemma lstrip_char_rev_last (c : N) (s : pystr) :
  match last s with Some d => negb (d =? c)%N | None => true end = true ->
  lstrip_char c (rev s) = rev s.
Proof.
  destruct (last s) as [d |] eqn:Hl.
  - intros Hd. apply negb_true_iff in Hd.
    apply last_Some in Hl as [l' ->]. rewrite rev_unit. cbn [lstrip_char].
    now rewrite Hd.
  - intros _. apply last_None in Hl as ->. reflexivity.
Qed.

(** The text after the sign: the quotes come off and leave the value. *)
Lemma strip_value_quoted (s : pystr) :
  text_ok s = true ->
  strip_char quote (strip (32%N :: quote :: s ++ [quote])) = s.
Proof.
  unfold text_ok. intros [[_ Hhead]%andb_true_iff Hlast]%andb_true_iff.
  unfold strip.
  replace (lstrip (32%N :: quote :: s ++ [quote])) with ((quote :: s) ++ [quote])
    by reflexivity.
  rewrite rstrip_snoc by reflexivity.
  unfold strip_char.
  replace (lstrip_char quote ((quote :: s) ++ [quote]))
    with (lstrip_char quote (s ++ [quote])) by reflexivity.
  destruct s as [| c r]; [reflexivity |].
  apply negb_true_iff in Hhead.
  cbn [app lstrip_char]. rewrite Hhead.
  change (c :: r ++ [quote]) with ((c :: r) ++ [quote]).
  rewrite rev_unit. cbn [lstrip_char]. rewrite N.eqb_refl.
  rewrite (lstrip_char_rev_last quote (c :: r) Hlast). apply rev_involutive.
Qed.

(** [load_settings] reads one written line as the item it was written
    for. *)
Lemma read_line_written (cfg : gmap pystr pyval) (k s : pystr) :
  key_ok k = true -> text_ok s = true ->
  read_line cfg (k ++ lit " = " ++ [quote] ++ s ++ [quote; newline])
  = <[k := PStr s]> cfg.
Proof.
  unfold key_ok. intros [Hk Hchars]%andb_true_iff Hs.
  apply pystr_eqb_eq in Hk.
  assert (Hnoeq : forall t, forallb (fun c => negb (c =? equals)%N) (k ++ t)
                            = forallb (fun c => negb (c =? equals)%N) t).
  { intros t. rewrite forallb_app.
    replace (forallb (fun c => negb (c =? equals)%N) k) with true; [reflexivity |].
    symmetry. apply forallb_forall. intros c Hc.
    rewrite forallb_forall in Hchars. now apply Hchars, andb_true_iff in Hc. }
  change (lit " = ") with [32%N; equals; 32%N].
  unfold read_line.
  assert (Hstrip : strip (k ++ [32%N; equals; 32%N] ++ [quote] ++ s ++ [quote; newline])
                   = match k with
                     | [] => equals :: 32%N :: quote :: s ++ [quote]
                     | _ => (k ++ [32%N]) ++ equals :: 32%N :: quote :: s ++ [quote]
                     end).
  { unfold strip. destruct k as [| c r].
    - replace (lstrip ([] ++ [32%N; equals; 32%N] ++ [quote] ++ s ++ [quote; newline]))
        with (((equals :: 32%N :: quote :: s) ++ [quote]) ++ [newline]).
      + rewrite rstrip_app_space by reflexivity. now rewrite rstrip_snoc.
      + cbn. now rewrite <- app_assoc.
    - destruct (strip_ends _ _ _ Hk) as [Hc _].
      cbn [lstrip app]. rewrite Hc.
      replace (c :: r ++ 32%N :: equals :: 32%N :: quote :: s ++ [quote; newline])
        with (((((c :: r) ++ [32%N]) ++ equals :: 32%N :: quote :: s) ++ [quote])
              ++ [newline]).
      + rewrite rstrip_app_space by reflexivity. rewrite rstrip_snoc by reflexivity.
        now rewrite <- !app_assoc.
      + cbn. rewrite <- ?app_assoc. cbn. now rewrite <- ?app_assoc. }
  rewrite Hstrip. destruct k as [| c r].
  - cbn [contains existsb]. rewrite N.eqb_refl. cbn [orb split_first].
    rewrite N.eqb_refl. now rewrite strip_value_quoted.
  - rewrite contains_app_cons, split_first_app.
    + now rewrite strip_key_blank, strip_value_quoted.
    + now rewrite Hnoeq.
Qed.

(** Reading a text line by line: a line without line ends, then [\n]. *)
Lemma lines_of_body (cur body rest : pystr) :
  forallb plain body = true ->
  lines_of cur (body ++ newline :: rest)
  = (rev cur ++ body ++ [newline]) :: lines_of [] rest.
Proof.
  revert cur. induction body as [| c body IH]; intros cur.
  - intros _. cbn [app lines_of]. now rewrite N.eqb_refl.
  - cbn [forallb app lines_of]. intros [Hc Hb]%andb_true_iff.
    unfold plain in Hc.
    apply andb_true_iff in Hc as [[Hn Hr]%andb_true_iff _].
    apply negb_true_iff in Hn, Hr. rewrite Hn, Hr, (IH _ Hb).
    cbn [rev]. now rewrite <- app_assoc.
Qed.

Lemma decimal_digits (u : Decimal.uint) :
  Forall (fun c => plain c = true /\ (c =? quote)%N = false)
    (lit (NilEmpty.string_of_uint u)).
Proof.
  induction u; cbn [NilEmpty.string_of_uint];
    [constructor | rewrite lit_String; constructor; [now split | assumption] ..].
Qed.

Lemma text_ok_chars (s : pystr) :
  Forall (fun c => plain c = true /\ (c =? quote)%N = false) s -> text_ok s = true.
Proof.
  intros Hall. unfold text_ok. rewrite !andb_true_iff. repeat split.
  - apply forallb_forall. intros c Hc%list_elem_of_In.
    rewrite Forall_forall in Hall. now apply Hall.
  - destruct s as [| c r]; [reflexivity |].
    apply Forall_cons in Hall as [[_ ->] _]. reflexivity.
  - destruct (last s) as [d |] eqn:Hl; [| reflexivity].
    apply last_Some_elem_of in Hl. rewrite Forall_forall in Hall.
    now destruct (Hall d Hl) as [_ ->].
Qed.

(** [str(z)] holds digits and a sign only. *)
Lemma decimal_text_ok (z : Z) : text_ok (decimal z) = true.
Proof.
  apply text_ok_chars. unfold decimal, NilZero.string_of_int.
  assert (Hu : forall u, Forall (fun c => plain c = true /\ (c =? quote)%N = false)
                           (lit (NilZero.string_of_uint u))).
  { intros u. destruct u; try apply decimal_digits.
    repeat constructor. }
  destruct (Z.to_int z) as [u | u]; [apply Hu |].
  rewrite lit_String. constructor; [now split | apply Hu].
Qed.

Lemma value_ok_text (v : pyval) :
  value_ok v = true -> exists s, py_str v = Some s /\ text_ok s = true.
Proof.
  destruct v as [| b | z | q | s | l | d]; cbn [value_ok py_str]; try discriminate.
  - intros _. eexists. split; reflexivity.
  - intros _. destruct b; eexists; split; reflexivity.
  - intros _. eexists. split; [reflexivity | apply decimal_text_ok].
  - intros Hs. eexists. split; [reflexivity | exact Hs].
Qed.

Lemma plain_encodable (s : pystr) :
  forallb plain s = true -> forallb encodable s = true.
Proof.
  rewrite !forallb_forall. intros Hall c Hc. specialize (Hall c Hc).
  unfold plain in Hall. now apply andb_true_iff in Hall.
Qed.

(** What is written for a list of items, read line by line. *)
Lemma written_lines (items : list (pystr * pyval)) :
  forallb (fun kv => key_ok kv.1 && value_ok kv.2) items = true ->
  exists ls,
    written items = Some ls /\
    forallb encodable (concat ls) = true /\
    (forall rest, lines_of [] (concat ls ++ rest) = ls ++ lines_of [] rest) /\
    (forall cfg, foldl read_line cfg ls
                 = foldl (fun m kv => <[kv.1 := read_back kv.2]> m) cfg items).
Proof.
  induction items as [| [k v] items IH]; cbn [forallb fst snd].
  - intros _. exists []. repeat split.
  - intros [[Hk Hv]%andb_true_iff Hrest]%andb_true_iff.
    destruct (IH Hrest) as (ls & Hls & Henc & Hlines & Hfold).
    destruct (value_ok_text v Hv) as (s & Hstr & Hs).
    exists ((k ++ lit " = " ++ [quote] ++ s ++ [quote; newline]) :: ls).
    assert (Hbody : forallb plain (k ++ lit " = " ++ [quote] ++ s ++ [quote]) = true).
    { rewrite !forallb_app. unfold key_ok in Hk. unfold text_ok in Hs.
      apply andb_true_iff in Hk as [_ Hk].
      apply andb_true_iff in Hs as [[Hs _]%andb_true_iff _].
      rewrite Hs. replace (forallb plain k) with true; [reflexivity |].
      symmetry. apply forallb_forall. intros c Hc.
      rewrite forallb_forall in Hk. now apply Hk, andb_true_iff in Hc. }
    repeat split.
    + unfold written in *. cbn [mapM fst snd]. rewrite Hls. unfold line.
      rewrite Hstr. reflexivity.
    + cbn [concat]. rewrite forallb_app, Henc, andb_true_r.
      replace (k ++ lit " = " ++ [quote] ++ s ++ [quote; newline])
        with ((k ++ lit " = " ++ [quote] ++ s ++ [quote]) ++ [newline])
        by (now rewrite <- !app_assoc).
      rewrite forallb_app, (plain_encodable _ Hbody). reflexivity.
    + intros rest. cbn [concat]. rewrite <- (app_assoc _ (concat ls) rest).
      replace ((k ++ lit " = " ++ [quote] ++ s ++ [quote; newline]) ++ concat ls ++ rest)
        with ((k ++ lit " = " ++ [quote] ++ s ++ [quote])
              ++ newline :: (concat ls ++ rest))
        by (rewrite <- ?app_assoc; reflexivity).
      rewrite (lines_of_body [] _ _ Hbody), Hlines. cbn [rev app].
      f_equal. repeat first [rewrite <- app_assoc | progress cbn [app]]. reflexivity.
    + intros cfg. cbn [foldl fst snd].
      rewrite (read_line_written cfg k s Hk Hs), Hfold.
      replace (read_back v) with (PStr s); [reflexivity |].
      unfold read_back. now rewrite Hstr.
Qed.

Lemma foldl_insert_union (f : pyval -> pyval) (items : list (pystr * pyval))
    (cfg : gmap pystr pyval) :
  NoDup items.*1 ->
  foldl (fun m kv => <[kv.1 := f kv.2]> m) cfg items
  = (f <$> (list_to_map items : gmap pystr pyval)) ∪ cfg.
Proof.
  revert cfg. induction items as [| [k v] items IH]; intros cfg.
  - intros _. cbn. now rewrite fmap_empty, (left_id_L ∅ (∪)).
  - cbn [fmap list_fmap fst snd foldl]. intros [Hk Hnd]%NoDup_cons.
    rewrite (IH _ Hnd), list_to_map_cons, fmap_insert, <- insert_union_l.
    rewrite insert_union_r; [reflexivity |].
    rewrite lookup_fmap. now rewrite (not_elem_of_list_to_map_1 _ _ Hk).
Qed.

(** X30. What [save_settings] writes, [load_settings] reads back. For
    distinct keys that hold no [=], no line end and no white space at
    either end, and values that are ints, bools, [None] or strings with no
    line end and no quote at either end, the file is written, and loading
    it gives every key the text of its value ([str(v)]: a counter saved as
    an int comes back as a string) on top of the defaults. *)
Theorem settings_text_round_trip (items : list (pystr * pyval)) :
  NoDup items.*1 ->
  forallb (fun kv => key_ok kv.1 && value_ok kv.2) items = true ->
  exists text,
    SettingsText.save_settings items = Some text /\
    SettingsText.load_settings (Some text)
    = (read_back <$> (list_to_map items : gmap pystr pyval)) ∪ defaults.
Proof.
  intros Hnd Hok.
  destruct (written_lines items Hok) as (ls & Hls & Henc & Hlines & Hfold).
  exists (concat ls). split.
  - unfold SettingsText.save_settings. now rewrite Hls, Henc.
  - unfold SettingsText.load_settings.
    specialize (Hlines []). rewrite app_nil_r in Hlines. cbn [lines_of] in Hlines.
    rewrite app_nil_r in Hlines.
    rewrite Hlines, Hfold. now apply foldl_insert_union.
Qed.

End SettingsTextFacts.

Lemma settings_text_round_trip_witness :
  exists text,
    SettingsText.save_settings
      [(lit "DAILY_NEW_LIMIT", PStr (lit "50")); (lit "TODAY_COUNT", PInt 3);
       (lit "TODAY_DATE", PStr (lit "2024-05-01"))] = Some text /\
    SettingsText.load_settings (Some text)
    = (SettingsText.read_back
         <$> (list_to_map
                [(lit "DAILY_NEW_LIMIT", PStr (lit "50")); (lit "TODAY_COUNT", PInt 3);
                 (lit "TODAY_DATE", PStr (lit "2024-05-01"))] : gmap pystr pyval))
      ∪ SettingsText.defaults.
Proof.
  apply settings_text_round_trip.
  - apply (bool_decide_unpack _). vm_compute. exact I.
  - vm_compute. reflexivity.
Defined.

(** ** The day change in [get_word] *)

Section DayRollover.
Import VocabularyApp.

(** C5. A query made with a stale stored date ([self.today] is not
    today's date) resets the count to 0 and sets the stored date to today
    before [count < limit] is evaluated. Whatever [get_word] returns, it
    returns with the count at 0, the date of today, both written to the
    settings and the settings saved; the query gives what it would give
    had the count been 0; a new word is offered when the list has an
    unlearned entry and the limit is positive, also when the stored count
    had reached the limit, and none is offered when the limit is not
    positive. *)
Theorem get_word_day_rollover (env : Env) (app : t) (fs : World) :
  today app <> date_today env ->
  (forall sel app' fs',
     get_word env app fs = Ok (sel, app', fs') ->
     today_count app' = 0%Z /\ today app' = date_today env /\
     cfg app' !! lit "TODAY_COUNT" = Some (PInt 0) /\
     cfg app' !! lit "TODAY_DATE" = Some (PStr (date_today env)) /\
     settings_file fs' = Some (cfg app')) /\
  get_word env app fs = get_word env (set_today_count 0 app) fs /\
  (review_only app = false -> (0 < limit app)%Z ->
   forall aw app0,
     all_words app fs = Ok (Some aw, app0) ->
     List.filter (fun e => negb (Entry.is_learned e)) aw <> [] ->
     exists w tr nw st fs',
       get_word env app fs = Ok (NewWord w tr true nw, st, fs') /\
       today_count st = 0%Z /\ today st = date_today env) /\
  ((limit app <= 0)%Z ->
   forall w tr b nw st fs',
     get_word env app fs <> Ok (NewWord w tr b nw, st, fs')) /\
  Spec.allowNewItem (date_today env) app = (0 <? limit app)%Z.
Proof.
  intros Hday.
  assert (Hstale : negb (pystr_eqb (date_today env) (today app)) = true).
  { rewrite (pystr_eqb_neq (date_today env) (today app)) by congruence.
    reflexivity. }
  assert (Hreset : forall sel app' fs',
            get_word env app fs = Ok (sel, app', fs') ->
            exists o i,
              app' = set_idx i (set_all_words o (new_day (date_today env) app fs).1) /\
              fs' = (new_day (date_today env) app fs).2 /\
              ((exists w tr b nw, sel = NewWord w tr b nw) -> (0 < limit app)%Z)).
  { intros sel app' fs' Hget.
    destruct (get_word_inv env app app' fs fs' _ Hget)
      as (a & f & new & a1 & Hroll & -> & Hnew & Hrest).
    rewrite Hstale in Hroll.
    destruct (get_new_word_inv env a a1 f new Hnew) as [[o ->] Hsel].
    destruct (new_day (date_today env) app fs) as [a0 f0] eqn:Hnd.
    injection Hroll as <- <-.
    destruct new as [sel' |].
    - destruct Hrest as [-> ->]. exists o, (idx a0). split; [| split; [reflexivity |]].
      + now destruct a0.
      + intros _. destruct Hsel as (_ & Hq & _).
        apply (f_equal fst) in Hnd. cbn in Hnd. subst a0. cbn in Hq. lia.
    - destruct (get_review_word_inv env _ app' f0 _ Hrest)
        as [(_ & o' & -> & Ho) | (i & w' & _ & -> & ->)].
      + exists o', (idx a0). split; [now destruct a0 |]. split; [reflexivity |].
        intros (w & tr & b & nw & ->). destruct o' as [[| ? ?] |]; discriminate.
      + exists o, i. split; [reflexivity |]. split; [reflexivity |].
        intros (w & tr & b & nw & [=]). }
  split.
  { intros sel app' fs' Hget.
    destruct (Hreset sel app' fs' Hget) as (o & i & -> & -> & _). cbn.
    split; [reflexivity |]. split; [reflexivity |].
    split; [apply lookup_insert_eq |].
    split; [| reflexivity].
    rewrite lookup_insert_ne by (vm_compute; discriminate).
    apply lookup_insert_eq. }
  split.
  { rewrite (get_word_stale env app fs Hday).
    rewrite (get_word_stale env (set_today_count 0 app) fs Hday).
    rewrite new_day_forgets_count. reflexivity. }
  split.
  { intros Hro Hlim aw app0 Haw Hfresh.
    pose proof (all_words_new_day (date_today env) app fs) as Haw1.
    rewrite Haw in Haw1.
    destruct (get_new_word_found env (new_day (date_today env) app fs).1
                (new_day (date_today env) app0 fs).1
                (new_day (date_today env) app fs).2 aw Hro) as (e & _ & Hget);
      [cbn; lia | exact Haw1 | exact Hfresh |].
    exists (Entry.word e), (Entry.translation e),
      (new_word_of e (time_ms env) (date_today env)),
      (new_day (date_today env) app0 fs).1, (new_day (date_today env) app fs).2.
    rewrite (get_word_stale env app fs Hday), Hget. now repeat split. }
  split.
  { intros Hlim w tr b nw st fs' Hget.
    destruct (Hreset _ st fs' Hget) as (_ & _ & _ & _ & Hpos).
    assert (0 < limit app)%Z by (apply Hpos; eauto). lia. }
  unfold Spec.allowNewItem.
  rewrite (pystr_eqb_neq (date_today env) (today app)) by congruence.
  reflexivity.
Qed.

End DayRollover.

(** The stored count has reached the limit of 50 on the day before: the
    query offers a new word and returns with the count at 0. *)
Lemma get_word_day_rollover_witness :
  let env := Examples.env_at Examples.day2 5000 0 0%Q in
  let app := Examples.app_with [] 50 50 Examples.day1 in
  VocabularyApp.today app <> date_today env /\
  VocabularyApp.today_count app = VocabularyApp.limit app /\
  exists w tr nw st fs',
    VocabularyApp.get_word env app Examples.world0
    = Ok (NewWord w tr true nw, st, fs') /\
    VocabularyApp.today_count st = 0%Z /\
    VocabularyApp.today st = date_today env.
Proof.
  intros env app.
  assert (Hday : VocabularyApp.today app <> date_today env)
    by (vm_compute; discriminate).
  split; [exact Hday |]. split; [reflexivity |].
  eapply (proj1 (proj2 (proj2 (get_word_day_rollover env app Examples.world0 Hday)))).
  - reflexivity.
  - reflexivity.
  - vm_compute. reflexivity.
  - vm_compute. discriminate.
Defined.

(** ** A learned word offered as new *)

Section LearnedWordOfferedAgain.
Import VocabularyApp.

(** C6 fails on the code: [get_word] takes the entries to offer as new
    from the [is_learned] flags of the view, not from [self.words]: when
    the view
    holds an entry whose flag is off although its word is learned, and the
    draw falls on it, the query returns that learned word as a new item.
    Such a view is what the confirm branch of [main] leaves when the list
    names a word twice: it flags the first entry and stops, where
    [_load_all] flags both. *)
Theorem get_word_offers_learned_word (env : Env) (app : t) (fs : World)
    (aw : list Entry.t) (e : Entry.t) :
  review_only app = false ->
  Spec.allowNewItem (date_today env) app = true ->
  _all_words app = Some aw ->
  List.filter (fun a => negb (Entry.is_learned a)) aw
    !! (randbelow_draw env
        mod length (List.filter (fun a => negb (Entry.is_learned a)) aw))%nat
  = Some e ->
  str_in (Entry.word e) (map LearnedWord.word (words app)) = true ->
  exists st fs',
    get_word env app fs
    = Ok (NewWord (Entry.word e) (Entry.translation e) true
            (new_word_of e (time_ms env) (date_today env)), st, fs') /\
    words st = words app /\
    str_in (Entry.word e) (map LearnedWord.word (words st)) = true /\
    ~ In e (List.filter
              (fun a => negb (str_in (Entry.word a)
                                (map LearnedWord.word (words app)))) aw).
Proof.
  intros Hro Hquota Hview Hdraw Hlearned.
  assert (Haw : all_words app fs = Ok (Some aw, app)).
  { unfold all_words. now rewrite Hview. }
  assert (Hfresh : List.filter (fun a => negb (Entry.is_learned a)) aw <> []).
  { intros Hnil. rewrite Hnil in Hdraw. discriminate. }
  assert (Hnot : ~ In e (List.filter
                           (fun a => negb (str_in (Entry.word a)
                                             (map LearnedWord.word (words app)))) aw)).
  { intros [_ Hin]%filter_In. now rewrite Hlearned in Hin. }
  unfold Spec.allowNewItem in Hquota.
  destruct (pystr_eqb (date_today env) (today app)) eqn:Hday.
  - apply pystr_eqb_eq in Hday.
    destruct (get_new_word_found env app _ fs aw Hro Hquota Haw Hfresh)
      as (e' & Hpos & Hget).
    rewrite Hdraw in Hpos. injection Hpos as <-.
    exists app, fs.
    rewrite (get_word_same_day env app fs) by congruence.
    rewrite Hget. now repeat split.
  - assert (Hne : today app <> date_today env).
    { intros Heq. rewrite Heq, pystr_eqb_refl in Hday. discriminate. }
    pose proof (all_words_new_day (date_today env) app fs) as Haw1.
    rewrite Haw in Haw1.
    destruct (get_new_word_found env (new_day (date_today env) app fs).1 _
                (new_day (date_today env) app fs).2 aw Hro Hquota Haw1 Hfresh)
      as (e' & Hpos & Hget).
    rewrite Hdraw in Hpos. injection Hpos as <-.
    exists (new_day (date_today env) app fs).1, (new_day (date_today env) app fs).2.
    rewrite (get_word_stale env app fs Hne), Hget. now repeat split.
Qed.

End LearnedWordOfferedAgain.

(** The session that reaches such a view: the list names [apple] twice,
    the first query offers [apple], the user confirms it, and the second
    query offers [apple] again. *)
Lemma get_word_offers_learned_word_witness :
  exists nw app1 fs1 app2 fs2,
    VocabularyApp.get_word (Examples.env_at Examples.day1 5000 0 0%Q)
      (Examples.app_with [] 0 50 Examples.day1) Examples.world_twice
    = Ok (NewWord (lit "apple") (lit "a red fruit") true nw, app1, fs1) /\
    VocabularyApp.main_confirm (H := Posix.lib)
      (NewWord (lit "apple") (lit "a red fruit") true nw) 5 6000 app1 fs1
    = Ok (app2, fs2) /\
    exists e st fs3,
      VocabularyApp.get_word (Examples.env_at Examples.day1 7000 0 0%Q) app2 fs2
      = Ok (NewWord (Entry.word e) (Entry.translation e) true
              (VocabularyApp.new_word_of e 7000 Examples.day1), st, fs3) /\
      Entry.word e = lit "apple" /\
      VocabularyApp.str_in (Entry.word e)
        (map LearnedWord.word (VocabularyApp.words app2)) = true.
Proof.
  do 5 eexists.
  split; [vm_compute; reflexivity |].
  split; [vm_compute; reflexivity |].
  match goal with
  | |- exists e st fs3, VocabularyApp.get_word ?env ?a ?f = _ /\ _ =>
      let view := eval vm_compute in (VocabularyApp._all_words a) in
      match view with
      | Some ?aw =>
          destruct (get_word_offers_learned_word env a f aw
                      (Entry.mk (lit "apple") (lit "a fruit of the apple tree") false))
            as (st & fs3 & Hget & _)
      end
  end.
  - reflexivity.
  - reflexivity.
  - reflexivity.
  - vm_compute. reflexivity.
  - vm_compute. reflexivity.
  - eexists _, st, fs3. split; [exact Hget |]. split; reflexivity.
Defined.
